(** * SSD1677 LUT editor: model, 112-byte LUT encoder, timing estimator,
      pattern edits and JSON persistence of [scripts/lut_editor.py].

    The development follows the Python source function by function.  Python
    integers are [Z], list positions are [nat] where the source counts them
    with [range] and [Z] where a caller supplies them, the two dictionaries
    of the editor are finite maps, Python floats are IEEE binary64 values
    ([spec_float] at precision 53), and a raised exception is a value of
    [res]. *)

From Stdlib Require Import ZArith Lia Ascii String SpecFloat.
From Stdlib Require Import Decimal DecimalString DecimalPos DecimalZ.
From Stdlib Require Hexadecimal HexadecimalPos HexadecimalN.
From stdpp Require Import base option list gmap strings.

Local Open Scope string_scope.
Local Open Scope Z_scope.

(** ** Python runtime: exceptions and the operations the editor uses *)

Module Py.

Inductive exn : Set :=
  | KeyError | IndexError | TypeError | ValueError | AttributeError
  | OverflowError | ZeroDivisionError
  | FuelExhausted. (* not a Python exception: a loop model ran out of fuel *)

Inductive res (A : Type) : Type :=
  | Ok (a : A)
  | Raise (e : exn).
Arguments Ok {A} a.
Arguments Raise {A} e.

Definition bind {A B} (r : res A) (k : A -> res B) : res B :=
  match r with
  | Ok a => k a
  | Raise e => Raise e
  end.

#[global] Instance res_ret : MRet res := fun A a => Ok a.
#[global] Instance res_bind : MBind res := fun A B k r => bind r k.

(** [for x in xs: s = body(x, s)], stopping at the first exception. *)
Fixpoint for_each {A S : Type} (xs : list A) (body : A -> S -> res S) (s : S)
  : res S :=
  match xs with
  | [] => Ok s
  | x :: xs' => s' ← body x s; for_each xs' body s'
  end.

(** [range(n)] *)
Definition range (n : nat) : list nat := seq 0 n.

(** [d[k]] on a dictionary. *)
Definition getitem `{Countable K} {V} (d : gmap K V) (k : K) : res V :=
  match d !! k with
  | Some v => Ok v
  | None => Raise KeyError
  end.

(** [l[i]] for a position counted from 0. *)
Definition index {A} (l : list A) (i : nat) : res A :=
  match l !! i with
  | Some v => Ok v
  | None => Raise IndexError
  end.

(** [l[i] = v] for a position counted from 0. *)
Definition setitem {A} (l : list A) (i : nat) (v : A) : res (list A) :=
  if bool_decide (i < length l)%nat then Ok (<[i := v]> l)
  else Raise IndexError.

(** Position designated by a Python index on a sequence of length [n]:
    negative indices count from the end. *)
Definition position (n : nat) (i : Z) : res nat :=
  if bool_decide (0 <= i < Z.of_nat n) then Ok (Z.to_nat i)
  else if bool_decide (- Z.of_nat n <= i < 0) then Ok (Z.to_nat (Z.of_nat n + i))
  else Raise IndexError.

(** [l.pop(i)]: the list without the element at index [i]. *)
Definition pop {A} (l : list A) (i : Z) : res (list A) :=
  k ← position (length l) i; Ok (delete k l).

(** [l[i] = v] for a Python index. *)
Definition setitem_z {A} (l : list A) (i : Z) (v : A) : res (list A) :=
  k ← position (length l) i; Ok (<[k := v]> l).

(** [l[i]] for a Python index. *)
Definition getitem_z {A} (l : list A) (i : Z) : res A :=
  k ← position (length l) i; index l k.

(** *** Text to integer: [int(text)], [int(text, 16)], [str(n)] *)

(** ASCII characters [str.strip] removes: those of [str.isspace]. *)
Definition is_space (c : ascii) : bool :=
  let n := nat_of_ascii c in
  ((9 <=? n)%nat && (n <=? 13)%nat) || ((28 <=? n)%nat && (n <=? 32)%nat).

(** ASCII characters [int] skips around a number: tab, newline, vertical
    tab, form feed, carriage return and space. *)
Definition is_blank (c : ascii) : bool :=
  let n := nat_of_ascii c in
  ((9 <=? n)%nat && (n <=? 13)%nat) || (n =? 32)%nat.

Fixpoint lstrip (sp : ascii -> bool) (s : string) : string :=
  match s with
  | String c s' => if sp c then lstrip sp s' else s
  | EmptyString => EmptyString
  end.

Fixpoint rstrip (sp : ascii -> bool) (s : string) : string :=
  match s with
  | String c s' =>
      match rstrip sp s' with
      | EmptyString => if sp c then EmptyString else String c EmptyString
      | r => String c r
      end
  | EmptyString => EmptyString
  end.

(** [text.strip()] *)
Definition strip (s : string) : string :=
  rstrip is_space (lstrip is_space s).

(** The text without the blanks [int] skips at both ends. *)
Definition unblank (s : string) : string :=
  rstrip is_blank (lstrip is_blank s).

(** Value of a digit character in a base up to 16. *)
Definition digit_value (base : Z) (c : ascii) : option Z :=
  let n := Z.of_nat (nat_of_ascii c) in
  let v :=
    if (48 <=? n) && (n <=? 57) then Some (n - 48)
    else if (97 <=? n) && (n <=? 102) then Some (n - 87)
    else if (65 <=? n) && (n <=? 70) then Some (n - 55)
    else None in
  match v with
  | Some d => if d <? base then Some d else None
  | None => None
  end.

Definition is_underscore (c : ascii) : bool := bool_decide (c = "_"%char).

(** Digits with single underscores between them; [prev_us] tells that the
    previous character was an underscore. *)
Fixpoint digits (base : Z) (s : string) (acc : Z) (prev_us : bool)
  : option Z :=
  match s with
  | EmptyString => if prev_us then None else Some acc
  | String c s' =>
      if is_underscore c then
        if prev_us then None else digits base s' acc true
      else
        match digit_value base c with
        | Some d => digits base s' (acc * base + d) false
        | None => None
        end
  end.

(** A non-empty digit string that does not start with an underscore. *)
Definition number (base : Z) (s : string) : option Z :=
  match s with
  | EmptyString => None
  | String c _ => if is_underscore c then None else digits base s 0 false
  end.

(** Optional sign. *)
Definition sign (s : string) : bool * string :=
  match s with
  | String c s' =>
      if bool_decide (c = "-"%char) then (true, s')
      else if bool_decide (c = "+"%char) then (false, s')
      else (false, s)
  | EmptyString => (false, s)
  end.

Definition signed (neg : bool) (v : option Z) : res Z :=
  match v with
  | Some n => Ok (if neg then - n else n)
  | None => Raise ValueError
  end.

(** [int(text)] on a string. *)
Definition int_of_str (text : string) : res Z :=
  let '(neg, body) := sign (unblank text) in
  signed neg (number 10 body).

(** The prefix [0x] or [0X], then at most one underscore. *)
Definition hex_prefix (s : string) : string :=
  match s with
  | String "0" (String c s') =>
      if bool_decide (c = "x"%char) || bool_decide (c = "X"%char) then
        match s' with
        | String "_" s'' => s''
        | _ => s'
        end
      else s
  | _ => s
  end.

(** [int(text, 16)] on a string. *)
Definition int_of_str16 (text : string) : res Z :=
  let '(neg, body) := sign (unblank text) in
  signed neg (number 16 (hex_prefix body)).

(** [str(n)] for an integer. *)
Definition str_of_int (n : Z) : string := NilZero.string_of_int (Z.to_int n).

(** [text.startswith(prefix)] *)
Definition startswith (text pre : string) : bool := String.prefix pre text.

(** *** Floats (IEEE binary64) and the arithmetic of [calculate_timing] *)

Definition prec : Z := 53.
Definition emax : Z := 1024.
Abbreviation float := spec_float.

(** A Python number: [int] or [float]. *)
Inductive num : Type :=
  | Int (z : Z)
  | Float (f : float).

(** [float(n)]: nearest binary64, [OverflowError] when out of range. *)
Definition float_of_int (n : Z) : res float :=
  match binary_normalize prec emax n 0 false with
  | S754_infinity _ => Raise OverflowError
  | f => Ok f
  end.

Definition to_float (a : num) : res float :=
  match a with
  | Int z => float_of_int z
  | Float f => Ok f
  end.

(** [a * b] *)
Definition mul (a b : num) : res num :=
  match a, b with
  | Int x, Int y => Ok (Int (x * y))
  | _, _ => x ← to_float a; y ← to_float b; Ok (Float (SFmul prec emax x y))
  end.

(** An integer as an exact mantissa with exponent 0. *)
Definition exact (n : Z) : float :=
  match n with
  | Z0 => S754_zero false
  | Zpos p => S754_finite false p 0
  | Zneg p => S754_finite true p 0
  end.

(** [a / b] on integers: the correctly rounded quotient. *)
Definition truediv (a b : Z) : res float :=
  if bool_decide (b = 0) then Raise ZeroDivisionError
  else
    match SFdiv prec emax (exact a) (exact b) with
    | S754_infinity _ => Raise OverflowError
    | f => Ok f
    end.

(** Exact comparison [f < n] of a float with an integer. *)
Definition float_lt_int (f : float) (n : Z) : bool :=
  match f with
  | S754_nan => false
  | S754_infinity s => s
  | S754_zero _ => 0 <? n
  | S754_finite s m e =>
      let v := if s then Zneg m else Zpos m in
      if 0 <=? e then v * 2 ^ e <? n else v <? n * 2 ^ (- e)
  end.

(** [a < n] for an integer literal [n]. *)
Definition lt_int (a : num) (n : Z) : bool :=
  match a with
  | Int z => z <? n
  | Float f => float_lt_int f n
  end.

(** [int(x)] on a float: truncation towards zero. *)
Definition int_of_float (f : float) : res Z :=
  match f with
  | S754_nan => Raise ValueError
  | S754_infinity _ => Raise OverflowError
  | S754_zero _ => Ok 0
  | S754_finite s m e =>
      let q := if 0 <=? e then Zpos m * 2 ^ e else Zpos m / 2 ^ (- e) in
      Ok (if s then - q else q)
  end.

(** [int(x)] *)
Definition int_of_num (a : num) : res Z :=
  match a with
  | Int z => Ok z
  | Float f => int_of_float f
  end.

(** The literal [1.1]. *)
Definition float_1_1 : float := S754_finite false 4953959590107546 (-52).

(** *** Commands on a mutable object: state that survives an exception *)

Definition cmd (S A : Type) : Type := S -> S * res A.

Definition cret {S A} (a : A) : cmd S A := fun s => (s, Ok a).

Definition cbind {S A B} (c : cmd S A) (k : A -> cmd S B) : cmd S B :=
  fun s =>
    match c s with
    | (s', Ok a) => k a s'
    | (s', Raise e) => (s', Raise e)
    end.

(** A computation that only reads the object. *)
Definition reads {S A} (f : S -> res A) : cmd S A := fun s => (s, f s).

(** An assignment to the object. *)
Definition writes {S} (f : S -> S) : cmd S unit := fun s => (f s, Ok tt).

(** [try: c  except ValueError: pass] *)
Definition except_ValueError {S} (c : cmd S unit) : cmd S unit :=
  fun s =>
    match c s with
    | (s', Raise ValueError) => (s', Ok tt)
    | r => r
    end.

(** [for x in xs: body(x)] *)
Fixpoint cfor {S A} (xs : list A) (body : A -> cmd S unit) : cmd S unit :=
  match xs with
  | [] => cret tt
  | x :: xs' => cbind (body x) (fun _ => cfor xs' body)
  end.

#[global] Instance cmd_ret {S} : MRet (cmd S) := fun A a => cret a.
#[global] Instance cmd_bind {S} : MBind (cmd S) := fun A B k c => cbind c k.

End Py.
Export Py.

(** ** The editor: data and the LUT encoder *)

Module LutEditor.

(** [VS_MAP], the 2-bit voltage codes and their names. *)
Definition VS_MAP : list (Z * string) :=
  [(0, "VSS"); (1, "VSH1"); (2, "VSL"); (3, "VSH2")].

(** [VS_REVERSE = {v: k for k, v in VS_MAP.items()}] *)
Definition VS_REVERSE : gmap string Z :=
  foldl (fun d kv => <[kv.2 := kv.1]> d) ∅ VS_MAP.

Definition VOLTAGE_OPTIONS : list string := ["VSS"; "VSH1"; "VSL"; "VSH2"].

(** The model part of a [LUTEditor] object (the widgets are not modelled). *)
Record LUTEditor : Type := mkLUTEditor {
  voltage_patterns : gmap Z (list string);
  timing_groups : list (list Z);
  frame_rate : Z;
  voltages : gmap string Z
}.

(** [__init__]: the configuration the editor starts with. *)
Definition init : LUTEditor := {|
  voltage_patterns :=
    <[3 := ["VSS"; "VSL"; "VSS"; "VSL"]]>
    (<[2 := ["VSH1"; "VSS"; "VSH1"; "VSS"]]>
    (<[1 := ["VSL"; "VSL"; "VSL"; "VSS"]]>
    (<[0 := ["VSS"; "VSH1"; "VSS"; "VSH1"]]> ∅)));
  timing_groups :=
    [ [4; 4; 0; 0; 0]; [2; 2; 0; 0; 0]; [0; 0; 0; 0; 0]; [0; 0; 0; 0; 0];
      [0; 0; 0; 0; 0]; [0; 0; 0; 0; 0]; [0; 0; 0; 0; 0]; [0; 0; 0; 0; 0];
      [0; 0; 0; 0; 0]; [0; 0; 0; 0; 0] ];
  frame_rate := 0x88;
  voltages :=
    <["VCOM" := 0x30]> (<["VSL" := 0x32]> (<["VSH2" := 0xA8]>
    (<["VSH1" := 0x41]> (<["VGH" := 0x17]> ∅))))
|}.

(** Body of [for phase_in_byte in range(4)] inside the packing loop: the
    steps still to visit, the byte built so far and the step counter. *)
Fixpoint pack_phases (pattern : list string) (phases : list nat)
    (byte_val : Z) (step_idx : nat) : res (Z * nat) :=
  match phases with
  | [] => Ok (byte_val, step_idx)
  | phase_in_byte :: rest =>
      if bool_decide (step_idx < length pattern)%nat then
        phase ← index pattern step_idx;
        let shift := 6 - Z.of_nat phase_in_byte * 2 in
        pack_phases pattern rest
          (Z.lor byte_val (Z.shiftl (default 0 (VS_REVERSE !! phase)) shift))
          (S step_idx)
      else Ok (byte_val, step_idx) (* break *)
  end.

(** [while step_idx < len(pattern) and byte_idx < 10]. *)
Fixpoint encode_steps (fuel : nat) (pattern : list string)
    (vs_start byte_idx step_idx : nat) (lut : list Z) : res (list Z) :=
  if bool_decide (step_idx < length pattern)%nat
     && bool_decide (byte_idx < 10)%nat then
    match fuel with
    | O => Raise FuelExhausted
    | S fuel' =>
        '(byte_val, step_idx') ← pack_phases pattern (range 4) 0 step_idx;
        lut' ← setitem lut (vs_start + byte_idx) byte_val;
        encode_steps fuel' pattern vs_start (S byte_idx) step_idx' lut'
    end
  else Ok lut.

(** [voltage_pattern_to_lut]: the 112-byte LUT of the current model. *)
Definition voltage_pattern_to_lut (self : LUTEditor) : res (list Z) :=
  let lut := replicate 112 0 in
  (* VS blocks L0-L3 *)
  lut ← for_each (range 4) (fun trans_idx lut =>
           pattern ← getitem (voltage_patterns self) (Z.of_nat trans_idx);
           let vs_start := (trans_idx * 10)%nat in
           encode_steps 10 pattern vs_start 0 0 lut) lut;
  (* L4 stays 0x00; TP/RP groups *)
  lut ← for_each (range 10) (fun group_idx lut =>
           let base := (50 + group_idx * 5)%nat in
           for_each (range 5) (fun i lut =>
             group ← index (timing_groups self) group_idx;
             v ← index group i;
             setitem lut (base + i) v) lut) lut;
  (* frame rate, 5 bytes *)
  lut ← for_each (range 5) (fun i lut =>
           setitem lut (100 + i) (frame_rate self)) lut;
  (* voltages *)
  v ← getitem (voltages self) "VGH";  lut ← setitem lut 105 v;
  v ← getitem (voltages self) "VSH1"; lut ← setitem lut 106 v;
  v ← getitem (voltages self) "VSH2"; lut ← setitem lut 107 v;
  v ← getitem (voltages self) "VSL";  lut ← setitem lut 108 v;
  v ← getitem (voltages self) "VCOM"; lut ← setitem lut 109 v;
  Ok lut.

(** [calculate_timing]: total frames and estimated refresh time in ms. *)
Definition calculate_timing (self : LUTEditor) : res (Z * Z) :=
  total_frames ← for_each (timing_groups self) (fun group total_frames =>
      let tp_sum := foldl Z.add 0 (take 4 group) in
      rp ← index group 4;
      Ok (total_frames + tp_sum * (rp + 1))) 0;
  ms_per_frame ←
    (if bool_decide (0 < frame_rate self)
     then f ← truediv 2500 (frame_rate self); Ok (Float f)
     else Ok (Int 50));
  let ms_per_frame := if lt_int ms_per_frame 10 then Int 10 else ms_per_frame in
  x ← mul (Int total_frames) ms_per_frame;
  y ← mul x (Float float_1_1);
  refresh_time ← int_of_num y;
  Ok (total_frames, refresh_time).

(** [update_preview], as far as it can raise: it encodes the LUT and
    estimates the timing; the text it writes to the widgets is not modelled. *)
Definition update_preview : cmd LUTEditor unit :=
  reads (fun self =>
    _ ← voltage_pattern_to_lut self;
    _ ← calculate_timing self;
    Ok tt).

(** [reload_voltage_pattern], as far as it can raise: it reads the pattern. *)
Definition reload_voltage_pattern (trans_idx : Z) : cmd LUTEditor unit :=
  reads (fun self => _ ← getitem (voltage_patterns self) trans_idx; Ok tt).

Definition set_pattern (trans_idx : Z) (pattern : list string)
    (self : LUTEditor) : LUTEditor :=
  {| voltage_patterns := <[trans_idx := pattern]> (voltage_patterns self);
     timing_groups := timing_groups self;
     frame_rate := frame_rate self;
     voltages := voltages self |}.

Definition set_timing_groups (groups : list (list Z)) (self : LUTEditor)
  : LUTEditor :=
  {| voltage_patterns := voltage_patterns self;
     timing_groups := groups;
     frame_rate := frame_rate self;
     voltages := voltages self |}.

Definition set_frame_rate (v : Z) (self : LUTEditor) : LUTEditor :=
  {| voltage_patterns := voltage_patterns self;
     timing_groups := timing_groups self;
     frame_rate := v;
     voltages := voltages self |}.

Definition set_voltage (name : string) (v : Z) (self : LUTEditor)
  : LUTEditor :=
  {| voltage_patterns := voltage_patterns self;
     timing_groups := timing_groups self;
     frame_rate := frame_rate self;
     voltages := <[name := v]> (voltages self) |}.

(** [add_voltage] *)
Definition add_voltage (trans_idx : Z) : cmd LUTEditor unit :=
  pattern ← reads (fun self => getitem (voltage_patterns self) trans_idx);
  if bool_decide (length pattern < 40)%nat then
    _ ← writes (set_pattern trans_idx (pattern ++ ["VSS"]));
    _ ← reload_voltage_pattern trans_idx;
    update_preview
  else mret tt.

(** [remove_voltage] *)
Definition remove_voltage (trans_idx volt_idx : Z) : cmd LUTEditor unit :=
  pattern ← reads (fun self => getitem (voltage_patterns self) trans_idx);
  if bool_decide (1 < length pattern)%nat then
    pattern' ← reads (fun _ => pop pattern volt_idx);
    _ ← writes (set_pattern trans_idx pattern');
    _ ← reload_voltage_pattern trans_idx;
    update_preview
  else mret tt.

(** [on_voltage_change].  [voltage_widgets] gives, for each transition that
    has an editor, the texts of the comboboxes in its container, one per
    step widget, at the time the callback runs.  The widgets are those of
    the last [reload_voltage_pattern]: their number is tested, not the
    length of the pattern, and the two differ when the pattern was replaced
    without a reload. *)
Definition on_voltage_change (voltage_widgets : gmap Z (list string))
    (trans_idx volt_idx : Z) : cmd LUTEditor unit :=
  widgets ← reads (fun _ => getitem voltage_widgets trans_idx);
  if bool_decide (volt_idx < Z.of_nat (length widgets)) then
    choice ← reads (fun _ => getitem_z widgets volt_idx);
    pattern ← reads (fun self => getitem (voltage_patterns self) trans_idx);
    pattern' ← reads (fun _ => setitem_z pattern volt_idx choice);
    _ ← writes (set_pattern trans_idx pattern');
    update_preview
  else mret tt.

(** [int(text or default)] *)
Definition int_or (text : string) (default : Z) : res Z :=
  if bool_decide (text = "") then Ok default else int_of_str text.

(** [self.timing_groups[group_idx][i] = val] *)
Definition assign_timing (group_idx i : nat) (val : Z) : cmd LUTEditor unit :=
  groups ← reads (fun self =>
    group ← index (timing_groups self) group_idx;
    group' ← setitem group i val;
    Ok (<[group_idx := group']> (timing_groups self)));
  writes (set_timing_groups groups).

(** One round of the loop of [on_timing_change]: the [try] statement for
    field [i]; [entries i] is the text of the i-th spinbox of the group. *)
Definition timing_round (entries : nat -> string) (group_idx i : nat)
  : cmd LUTEditor unit :=
  except_ValueError (
    val ← reads (fun _ => int_or (entries i) 0);
    assign_timing group_idx i val).

(** [on_timing_change] *)
Definition on_timing_change (entries : nat -> string) (group_idx : nat)
  : cmd LUTEditor unit :=
  _ ← cfor (range 5) (timing_round entries group_idx);
  update_preview.

(** [on_framerate_change]; [text] is the text of the frame-rate spinbox. *)
Definition on_framerate_change (text : string) : cmd LUTEditor unit :=
  _ ← except_ValueError (
        val ← reads (fun _ => int_or text 0x44);
        writes (set_frame_rate val));
  update_preview.

(** The entries of [self.voltage_entries], in the order they are created. *)
Definition VOLTAGE_NAMES : list string :=
  ["VGH"; "VSH1"; "VSH2"; "VSL"; "VCOM"].

(** The parse of one voltage entry. *)
Definition parse_voltage (entry_text : string) : res Z :=
  let text := strip entry_text in
  if startswith text "0x" || startswith text "0X"
  then int_of_str16 text
  else int_of_str text.

(** One round of the loop of [on_voltage_setting_change]: the [try]
    statement for one voltage; [entries name] is the text of its entry. *)
Definition voltage_round (entries : string -> string) (name : string)
  : cmd LUTEditor unit :=
  except_ValueError (
    val ← reads (fun _ => parse_voltage (entries name));
    writes (set_voltage name (Z.land val 0xFF))).

(** [on_voltage_setting_change] *)
Definition on_voltage_setting_change (entries : string -> string)
  : cmd LUTEditor unit :=
  _ ← cfor VOLTAGE_NAMES (voltage_round entries);
  update_preview.

End LutEditor.
Export LutEditor.

(** ** Persistence: the JSON document and the attributes it is loaded into *)

Module Persistence.

(** A value as [json.load] returns it.  The members of an object are kept
    in document order, with distinct keys as in a Python dictionary. *)
#[warnings="-register-all"]
Inductive json : Type :=
  | JNull
  | JBool (b : bool)
  | JInt (z : Z)
  | JFloat (f : float)
  | JStr (s : string)
  | JList (l : list json)
  | JDict (d : list (string * json)).

(** The four model attributes of the editor as the Python objects they hold:
    [load_from_file] stores whatever the document contains. *)
Record Attrs : Type := mkAttrs {
  attr_voltage_patterns : gmap Z json;
  attr_timing_groups : json;
  attr_frame_rate : json;
  attr_voltages : json
}.

Fixpoint assoc (key : string) (d : list (string * json)) : option json :=
  match d with
  | [] => None
  | (k, v) :: d' => if bool_decide (k = key) then Some v else assoc key d'
  end.

(** [data[key]] for a string key. *)
Definition member (data : json) (key : string) : res json :=
  match data with
  | JDict d =>
      match assoc key d with
      | Some v => Ok v
      | None => Raise KeyError
      end
  | _ => Raise TypeError
  end.

(** [obj.items()] *)
Definition items (obj : json) : res (list (string * json)) :=
  match obj with
  | JDict d => Ok d
  | _ => Raise AttributeError
  end.

(** *** The editor's values as JSON, and back *)

Definition json_of_pattern (pattern : list string) : json :=
  JList (JStr <$> pattern).

Definition json_of_group (group : list Z) : json := JList (JInt <$> group).

Definition json_of_groups (groups : list (list Z)) : json :=
  JList (json_of_group <$> groups).

Definition json_of_voltages (v : gmap string Z) : json :=
  JDict ((fun kv => (kv.1, JInt kv.2)) <$> map_to_list v).

Definition attrs_of (self : LUTEditor) : Attrs := {|
  attr_voltage_patterns := json_of_pattern <$> voltage_patterns self;
  attr_timing_groups := json_of_groups (timing_groups self);
  attr_frame_rate := JInt (frame_rate self);
  attr_voltages := json_of_voltages (voltages self)
|}.

Definition str_of_json (j : json) : option string :=
  match j with JStr s => Some s | _ => None end.

Definition int_of_json (j : json) : option Z :=
  match j with JInt z => Some z | _ => None end.

Definition pattern_of_json (j : json) : option (list string) :=
  match j with JList l => mapM str_of_json l | _ => None end.

Definition group_of_json (j : json) : option (list Z) :=
  match j with JList l => mapM int_of_json l | _ => None end.

Definition groups_of_json (j : json) : option (list (list Z)) :=
  match j with JList l => mapM group_of_json l | _ => None end.

Definition voltages_of_json (j : json) : option (gmap string Z) :=
  match j with
  | JDict d =>
      list_to_map <$> mapM (fun kv => v ← int_of_json kv.2; Some (kv.1, v)) d
  | _ => None
  end.

Definition patterns_of_json (m : gmap Z json)
  : option (gmap Z (list string)) :=
  if bool_decide (map_Forall (fun _ j => is_Some (pattern_of_json j)) m)
  then Some (omap pattern_of_json m)
  else None.

(** The attributes seen as an editor model, when every attribute holds a
    value of the type the editor itself gives it. *)
Definition typed (a : Attrs) : option LUTEditor :=
  vp ← patterns_of_json (attr_voltage_patterns a);
  tg ← groups_of_json (attr_timing_groups a);
  fr ← int_of_json (attr_frame_rate a);
  vs ← voltages_of_json (attr_voltages a);
  Some {| voltage_patterns := vp; timing_groups := tg;
          frame_rate := fr; voltages := vs |}.

(** [save_to_file]: the document [json.dump] writes, as [json.load] reads it
    back.  The integer keys of [voltage_patterns] become strings. *)
Definition save_to_file (self : LUTEditor) : json :=
  JDict [
    ("voltage_patterns",
      JDict ((fun kv => (str_of_int kv.1, json_of_pattern kv.2))
               <$> map_to_list (voltage_patterns self)));
    ("timing_groups", json_of_groups (timing_groups self));
    ("frame_rate", JInt (frame_rate self));
    ("voltages", json_of_voltages (voltages self)) ].

(** [{int(k): v for k, v in obj.items()}] *)
Definition int_keys (obj : json) : res (gmap Z json) :=
  kvs ← items obj;
  for_each kvs (fun kv acc => k ← int_of_str kv.1; Ok (<[k := kv.2]> acc)) ∅.

Definition set_attr_voltage_patterns (v : gmap Z json) (a : Attrs) : Attrs :=
  {| attr_voltage_patterns := v;
     attr_timing_groups := attr_timing_groups a;
     attr_frame_rate := attr_frame_rate a;
     attr_voltages := attr_voltages a |}.

Definition set_attr_timing_groups (v : json) (a : Attrs) : Attrs :=
  {| attr_voltage_patterns := attr_voltage_patterns a;
     attr_timing_groups := v;
     attr_frame_rate := attr_frame_rate a;
     attr_voltages := attr_voltages a |}.

Definition set_attr_frame_rate (v : json) (a : Attrs) : Attrs :=
  {| attr_voltage_patterns := attr_voltage_patterns a;
     attr_timing_groups := attr_timing_groups a;
     attr_frame_rate := v;
     attr_voltages := attr_voltages a |}.

Definition set_attr_voltages (v : json) (a : Attrs) : Attrs :=
  {| attr_voltage_patterns := attr_voltage_patterns a;
     attr_timing_groups := attr_timing_groups a;
     attr_frame_rate := attr_frame_rate a;
     attr_voltages := v |}.

(** Lines 522-527 of [load_from_file]: the four assignments, in order. *)
Definition load_fields (data : json) : cmd Attrs unit :=
  vp ← reads (fun _ => obj ← member data "voltage_patterns"; int_keys obj);
  _ ← writes (set_attr_voltage_patterns vp);
  tg ← reads (fun _ => member data "timing_groups");
  _ ← writes (set_attr_timing_groups tg);
  fr ← reads (fun _ => member data "frame_rate");
  _ ← writes (set_attr_frame_rate fr);
  vs ← reads (fun _ => member data "voltages");
  writes (set_attr_voltages vs).

(** Lines 529-545 of [load_from_file] on a model of the editor's types, as
    far as they can raise: the widgets are reloaded from the model (each
    loaded voltage name must have an entry widget) and the preview is
    recomputed. *)
Definition reload_widgets (self : LUTEditor) : res unit :=
  _ ← for_each (range 4) (fun i _ =>
        snd (reload_voltage_pattern (Z.of_nat i) self)) tt;
  _ ← for_each (range 10) (fun g _ =>
        for_each (range 5) (fun t _ =>
          group ← index (timing_groups self) g;
          _ ← index group t;
          Ok tt) tt) tt;
  _ ← for_each (map_to_list (voltages self)) (fun kv _ =>
        if bool_decide (kv.1 ∈ VOLTAGE_NAMES) then Ok tt else Raise KeyError) tt;
  snd (update_preview self).

Section Load.

(** Lines 529-545 on attributes that are not all of the editor's types (a
    float where an integer is expected, a string for a list, ...): the
    widget reload and the preview then run on dynamically typed values,
    which is left as a parameter.  They read the attributes and write
    none. *)
Variable untyped_reload : Attrs -> res unit.

Definition reload (a : Attrs) : res unit :=
  match typed a with
  | Some self => reload_widgets self
  | None => untyped_reload a
  end.

(** [load_from_file] on the parsed document [data].  The result is [Raise e]
    when the handler [except Exception as e] runs (the error dialog), [Ok tt]
    when the document is loaded. *)
Definition load_from_file (data : json) : cmd Attrs unit :=
  _ ← load_fields data;
  reads reload.

End Load.

End Persistence.
Export Persistence.

(** ** The data model and the byte layout of the specification *)

Module Spec.

(** The 2-bit code of a symbolic voltage name; any other name counts as
    [VSS]. *)
Definition voltage_code (name : string) : Z :=
  if bool_decide (name = "VSS") then 0
  else if bool_decide (name = "VSH1") then 1
  else if bool_decide (name = "VSL") then 2
  else if bool_decide (name = "VSH2") then 3
  else 0.

(** Code of step [i] of a pattern; a missing step contributes 0. *)
Definition code_at (pattern : list string) (i : nat) : Z :=
  match pattern !! i with
  | Some name => voltage_code name
  | None => 0
  end.

(** Byte [k] of a packed pattern: steps [4k .. 4k+3], first step in the two
    most significant bits. *)
Definition packed_byte (pattern : list string) (k : nat) : Z :=
  64 * code_at pattern (4 * k) + 16 * code_at pattern (4 * k + 1)
  + 4 * code_at pattern (4 * k + 2) + code_at pattern (4 * k + 3).

(** The 10-byte block of a pattern. *)
Definition packed_block (pattern : list string) : list Z :=
  packed_byte pattern <$> seq 0 10.

Definition byte (v : Z) : Prop := 0 <= v < 256.

Definition pattern_of (self : LUTEditor) (t : Z) : list string :=
  default [] (voltage_patterns self !! t).

Definition voltage_of (self : LUTEditor) (name : string) : Z :=
  default 0 (voltages self !! name).

(** Field [i] of timing group [g]. *)
Definition timing_field (self : LUTEditor) (g i : nat) : Z :=
  default 0 (timing_groups self !! g ≫= (.!! i)).

(** The 112 bytes of section 4.2, in order. *)
Definition layout (self : LUTEditor) : list Z :=
  packed_block (pattern_of self 0) ++ packed_block (pattern_of self 1)
  ++ packed_block (pattern_of self 2) ++ packed_block (pattern_of self 3)
  ++ replicate 10 0
  ++ concat (timing_groups self)
  ++ replicate 5 (frame_rate self)
  ++ (voltage_of self <$> VOLTAGE_NAMES)
  ++ [0; 0].

(** The shape of a WaveformModel: four patterns, ten groups of five fields,
    five voltage levels. *)
Record shaped (self : LUTEditor) : Prop := {
  shaped_patterns :
    ∀ t, 0 <= t < 4 → is_Some (voltage_patterns self !! t);
  shaped_groups : length (timing_groups self) = 10%nat;
  shaped_fields : Forall (fun g => length g = 5%nat) (timing_groups self);
  shaped_voltages :
    ∀ name, name ∈ VOLTAGE_NAMES → is_Some (voltages self !! name)
}.

(** A valid WaveformModel: shaped, every pattern of 1 to 40 steps named in
    [VOLTAGE_OPTIONS], every numeric field an unsigned byte, and no voltage
    level beyond the five named ones. *)
Record valid (self : LUTEditor) : Prop := {
  valid_shaped : shaped self;
  valid_lengths :
    ∀ t p, voltage_patterns self !! t = Some p → (1 <= length p <= 40)%nat;
  valid_steps :
    ∀ t p, voltage_patterns self !! t = Some p →
      Forall (fun name => name ∈ VOLTAGE_OPTIONS) p;
  valid_timing : Forall (Forall byte) (timing_groups self);
  valid_frame_rate : byte (frame_rate self);
  valid_voltages : ∀ name v, voltages self !! name = Some v →
      name ∈ VOLTAGE_NAMES ∧ byte v
}.

(** *** Pattern operations of section 4.1 *)

Inductive error : Set :=
  | CapacityExceeded
  | MinimumLengthViolation
  | IndexOutOfRange.

(** [append_step]: appends VSS; fails when the length is already 40. *)
Definition append_step (p : list string) : list string + error :=
  if bool_decide (length p = 40%nat) then inr CapacityExceeded
  else inl (p ++ ["VSS"])%list.

(** [remove_step]: removes the step at [index]; fails when the length is
    already 1, or when [index] is not below the length. *)
Definition remove_step (p : list string) (index : nat)
  : list string + error :=
  if bool_decide (length p = 1%nat) then inr MinimumLengthViolation
  else if bool_decide (length p <= index)%nat then inr IndexOutOfRange
  else inl (delete index p).

(** [set_step]: replaces the step at [index]. *)
Definition set_step (p : list string) (index : nat) (code : string)
  : list string + error :=
  if bool_decide (length p <= index)%nat then inr IndexOutOfRange
  else inl (<[index := code]> p).

(** What a callback reports to its caller: the exception it raises.  A
    normal return reports nothing. *)
Definition reported {A} (r : res A) : option exn :=
  match r with
  | Ok _ => None
  | Raise e => Some e
  end.

(** Every pattern of the model has 1 to 40 steps. *)
Definition lengths_ok (self : LUTEditor) : Prop :=
  ∀ t p, voltage_patterns self !! t = Some p → (1 <= length p <= 40)%nat.

(** A pattern edit issued by the user interface. *)
Inductive edit : Type :=
  | Append (trans_idx : Z)
  | Remove (trans_idx volt_idx : Z)
  | SetStep (voltage_widgets : gmap Z (list string)) (trans_idx volt_idx : Z).

Definition apply_edit (e : edit) : cmd LUTEditor unit :=
  match e with
  | Append t => add_voltage t
  | Remove t i => remove_voltage t i
  | SetStep widgets t i => on_voltage_change widgets t i
  end.

(** A sequence of callbacks: each one runs on the model the previous one
    left, whether or not it raised. *)
Definition run_edits (es : list edit) (self : LUTEditor) : LUTEditor :=
  foldl (fun s e => fst (apply_edit e s)) self es.

(** *** The timing estimate of section 4.3 *)

(** Frames of timing group [g]: (A + B + C + D) * (RP + 1). *)
Definition group_frames (self : LUTEditor) (g : nat) : Z :=
  (timing_field self g 0 + timing_field self g 1 + timing_field self g 2
   + timing_field self g 3) * (timing_field self g 4 + 1).

(** The sum over the groups 0..9. *)
Definition total_frames_of (self : LUTEditor) : Z :=
  foldr Z.add 0 (group_frames self <$> seq 0 10).

(** [max(a, n)] for an integer [n]. *)
Definition max_int (a : num) (n : Z) : num :=
  if lt_int a n then Int n else a.

(** [max(2500 / frame_rate, 10)] for a positive frame rate, 50 for 0. *)
Definition ms_per_frame_of (fr : Z) : res num :=
  if bool_decide (0 < fr) then q ← truediv 2500 fr; Ok (max_int (Float q) 10)
  else Ok (Int 50).

(** [floor(x)] on a float: the largest integer not above it. *)
Definition floor_of_float (f : float) : res Z :=
  match f with
  | S754_nan => Raise ValueError
  | S754_infinity _ => Raise OverflowError
  | S754_zero _ => Ok 0
  | S754_finite s m e =>
      let v := if s then Zneg m else Zpos m in
      Ok (if 0 <=? e then v * 2 ^ e else v / 2 ^ (- e))
  end.

Definition floor_of_num (a : num) : res Z :=
  match a with
  | Int z => Ok z
  | Float f => floor_of_float f
  end.

(** [floor(total_frames * ms_per_frame * 1.1)] *)
Definition estimated_ms_of (self : LUTEditor) : res Z :=
  ms_per_frame ← ms_per_frame_of (frame_rate self);
  x ← mul (Int (total_frames_of self)) ms_per_frame;
  y ← mul x (Float float_1_1);
  floor_of_num y.

(** Every timing field of the model is zero. *)
Definition all_zero (self : LUTEditor) : Prop :=
  Forall (Forall (fun v => v = 0)) (timing_groups self).

(** A float that is +0 or positive and finite, with a mantissa of at most
    54 bits and an exponent of at most [k]. *)
Definition good (k : Z) (f : float) : Prop :=
  f = S754_zero false
  ∨ ∃ m e, f = S754_finite false m e ∧ Z.pos m <= 2 ^ 53 ∧ e <= k.

(** The quotients [2500 / fr] for the frame rates 1..255 are positive and
    finite, with an exponent of at most -41. *)
Definition quotients_checked : bool :=
  forallb (fun n =>
    match truediv 2500 (Z.of_nat n) with
    | Ok (S754_finite false m e) => (Z.pos m <=? 2 ^ 53) && (e <=? -41)
    | _ => false
    end) (seq 1 255).

(** *** Sample inputs *)

(** A document that has only the field [voltage_patterns]. *)
Definition patterns_only_document : json :=
  JDict [("voltage_patterns", JDict [("0", JList [JStr "VSL"])])].

(** A document without the field [voltages], with an unknown voltage name,
    no timing group and a frame rate that is not a number. *)
Definition no_voltages_document : json :=
  JDict [("voltage_patterns", JDict [("0", JList [JStr "bogus"])]);
         ("timing_groups", JList []);
         ("frame_rate", JStr "fast")].

(** The initial model with an unknown voltage name in pattern 0 and no step
    in pattern 1. *)
Definition odd_model : LUTEditor :=
  set_pattern 1 [] (set_pattern 0 ["bogus"] init).

(** Spinbox texts of a timing group: the second one empty, the others not
    numbers. *)
Definition sample_timing_entries (i : nat) : string :=
  if bool_decide (i = 1%nat) then "" else "4x".

(** Entry texts of the voltage levels: out-of-range values for VGH and VSL,
    text that does not parse for the others. *)
Definition sample_voltage_entries (name : string) : string :=
  if bool_decide (name = "VGH") then " 0x1FF "
  else if bool_decide (name = "VSL") then "-1" else "bad".

Definition empty_entries {A} (_ : A) : string := "".

(** The initial model with 40 steps in pattern 0. *)
Definition full_model : LUTEditor := set_pattern 0 (replicate 40 "VSS") init.

(** The initial model with one step in pattern 0. *)
Definition single_model : LUTEditor := set_pattern 0 ["VSS"] init.

(** Step widgets of transition 2, as built for the initial model, with
    VSL chosen in the first combobox. *)
Definition sample_widgets : gmap Z (list string) :=
  {[ 2 := ["VSL"; "VSS"; "VSH1"; "VSS"] ]}.

(** *** Notions used in the proofs *)

(** Bytes [f k], for [k] in [ks], written from [vs_start] on. *)
Definition write_bytes (f : nat → Z) (vs_start : nat) (ks : list nat)
    (lut : list Z) : list Z :=
  foldl (fun l k => <[(vs_start + k)%nat := f k]> l) lut ks.

(** Group [g] of the model has five fields. *)
Definition five_fields (g : nat) (self : LUTEditor) : Prop :=
  ∃ group, timing_groups self !! g = Some group ∧ length group = 5%nat.

(** A decimal digit character. *)
Definition digit_char (c : ascii) : Prop :=
  In c ["0"; "1"; "2"; "3"; "4"; "5"; "6"; "7"; "8"; "9"]%char.

(** Every character of the string satisfies [P]. *)
Fixpoint all_chars (P : ascii → Prop) (s : string) : Prop :=
  match s with
  | EmptyString => True
  | String c s' => P c ∧ all_chars P s'
  end.

End Spec.
Export Spec.

(** ** The rest of the editor: widget texts, reset and the preview text *)

Module Ui.

(** *** Hexadecimal text: [f"{n:02X}"] *)

(** The digits of a hexadecimal number, in upper case. *)
Fixpoint upper_hex (d : Hexadecimal.uint) : string :=
  match d with
  | Hexadecimal.Nil => ""
  | Hexadecimal.D0 d => String "0" (upper_hex d)
  | Hexadecimal.D1 d => String "1" (upper_hex d)
  | Hexadecimal.D2 d => String "2" (upper_hex d)
  | Hexadecimal.D3 d => String "3" (upper_hex d)
  | Hexadecimal.D4 d => String "4" (upper_hex d)
  | Hexadecimal.D5 d => String "5" (upper_hex d)
  | Hexadecimal.D6 d => String "6" (upper_hex d)
  | Hexadecimal.D7 d => String "7" (upper_hex d)
  | Hexadecimal.D8 d => String "8" (upper_hex d)
  | Hexadecimal.D9 d => String "9" (upper_hex d)
  | Hexadecimal.Da d => String "A" (upper_hex d)
  | Hexadecimal.Db d => String "B" (upper_hex d)
  | Hexadecimal.Dc d => String "C" (upper_hex d)
  | Hexadecimal.Dd d => String "D" (upper_hex d)
  | Hexadecimal.De d => String "E" (upper_hex d)
  | Hexadecimal.Df d => String "F" (upper_hex d)
  end.

(** [f"{n:02X}"]: the upper-case hexadecimal digits of [n], after a minus
    sign when [n] is negative, with zeros added on the left up to a width
    of two characters. *)
Definition format_02X (n : Z) : string :=
  let ds := upper_hex (N.to_hex_uint (Z.abs_N n)) in
  if n <? 0 then String "-" ds
  else if (String.length ds <? 2)%nat then String "0" ds
  else ds.

(** *** The texts the editor writes into its entry widgets *)

(** Spinbox [t] of timing group [g]: [str(self.timing_groups[g][t])]. *)
Definition spin_text (self : LUTEditor) (g t : nat) : res string :=
  group ← index (timing_groups self) g;
  v ← index group t;
  Ok (str_of_int v).

(** The frame-rate spinbox: [str(self.frame_rate)]. *)
Definition frame_rate_text (self : LUTEditor) : string :=
  str_of_int (frame_rate self).

(** The entry of a voltage level: [f"0x{self.voltages[name]:02X}"]. *)
Definition entry_text (self : LUTEditor) (name : string) : res string :=
  v ← getitem (voltages self) name;
  Ok ("0x" +:+ format_02X v).

(** *** [reset_to_default] *)

Definition set_voltage_patterns (vp : gmap Z (list string))
    (self : LUTEditor) : LUTEditor :=
  {| voltage_patterns := vp;
     timing_groups := timing_groups self;
     frame_rate := frame_rate self;
     voltages := voltages self |}.

(** [reset_to_default]; [confirmed] is the answer to the dialog. *)
Definition reset_to_default (confirmed : bool) : cmd LUTEditor unit :=
  if confirmed then
    _ ← writes (set_voltage_patterns
           (<[3 := ["VSH1"; "VSS"]]>
           (<[2 := ["VSL"; "VSL"]]>
           (<[1 := ["VSH2"; "VSH1"]]>
           (<[0 := ["VSL"; "VSH1"]]> ∅)))));
    _ ← writes (set_timing_groups
           [ [10; 10; 0; 0; 0]; [8; 8; 0; 0; 0]; [0; 0; 0; 0; 0];
             [0; 0; 0; 0; 0]; [0; 0; 0; 0; 0]; [0; 0; 0; 0; 0];
             [0; 0; 0; 0; 0]; [0; 0; 0; 0; 0]; [0; 0; 0; 0; 0];
             [0; 0; 0; 0; 0] ]);
    _ ← cfor (range 4) (fun i => reload_voltage_pattern (Z.of_nat i));
    _ ← cfor (range 10) (fun g =>
          cfor (range 5) (fun t =>
            reads (fun self => _ ← spin_text self g t; Ok tt)));
    update_preview
  else mret tt.

(** *** The texts of [update_preview] *)

Definition TRANSITION_NAMES : list string :=
  ["Black → Black"; "Black → White"; "White → Black"; "White → White"].

(** The newline character. *)
Definition nl : string := String (ascii_of_nat 10) "".

(** [sep.join(l)] *)
Definition join (sep : string) (l : list string) : string :=
  String.concat sep l.

(** [for i in range(n): output += f"0x{lut[start + i]:02X},"] *)
Definition add_bytes (lut : list Z) (start n : nat) (output : string)
  : res string :=
  for_each (range n) (fun i output =>
    b ← index lut (start + i);
    Ok (output +:+ "0x" +:+ format_02X b +:+ ",")) output.

(** The C array text of [update_preview] (lines 446-484). *)
Definition preview_output (self : LUTEditor) (lut : list Z) : res string :=
  let output := "const unsigned char lut_custom[] PROGMEM = {" +:+ nl in
  (* VS blocks *)
  let output :=
    output +:+ "  // VS L0-L3 (voltage patterns per transition)" +:+ nl in
  output ← for_each (range 4) (fun trans_idx output =>
      pattern ← getitem (voltage_patterns self) (Z.of_nat trans_idx);
      let pattern_str := join "→" pattern in
      name ← index TRANSITION_NAMES trans_idx;
      let output :=
        output +:+ "  // " +:+ name +:+ ": [" +:+ pattern_str +:+ "]" +:+ nl
        +:+ "  " in
      output ← add_bytes lut (trans_idx * 10) 10 output;
      Ok (output +:+ nl)) output;
  let output := output +:+ "  // L4 (VCOM)" +:+ nl +:+ "  " in
  output ← add_bytes lut 40 10 output;
  let output := output +:+ nl in
  let output :=
    output +:+ nl +:+ "  // TP/RP groups (global timing)" +:+ nl in
  output ← for_each (range 10) (fun group_idx output =>
      let base := (50 + group_idx * 5)%nat in
      timing ← index (timing_groups self) group_idx;
      let output := output +:+ "  " in
      output ← add_bytes lut base 5 output;
      a ← index timing 0;
      b ← index timing 1;
      c ← index timing 2;
      d ← index timing 3;
      rp ← index timing 4;
      let output :=
        output +:+ "  // G" +:+ str_of_int (Z.of_nat group_idx)
        +:+ ": A=" +:+ str_of_int a +:+ " B=" +:+ str_of_int b
        +:+ " C=" +:+ str_of_int c +:+ " D=" +:+ str_of_int d
        +:+ " RP=" +:+ str_of_int rp in
      let tp_sum := foldl Z.add 0 (take 4 timing) in
      let output :=
        if bool_decide (0 < tp_sum)
        then output +:+ " (" +:+ str_of_int (tp_sum * (rp + 1)) +:+ " frames)"
        else output in
      Ok (output +:+ nl)) output;
  let output := output +:+ nl +:+ "  // Frame rate" +:+ nl +:+ "  " in
  output ← add_bytes lut 100 5 output;
  let output := output +:+ nl in
  let output :=
    output +:+ nl +:+ "  // Voltages (VGH, VSH1, VSH2, VSL, VCOM)" +:+ nl
    +:+ "  " in
  output ← add_bytes lut 105 5 output;
  let output := output +:+ nl in
  Ok (output +:+ nl +:+ "  // Reserved" +:+ nl +:+ "  0x00,0x00" +:+ nl
      +:+ "};" +:+ nl).

(** [update_preview]: the text of the timing label and the text of the
    preview pane. *)
Definition preview_texts (self : LUTEditor) : res (string * string) :=
  lut ← voltage_pattern_to_lut self;
  '(total_frames, refresh_time) ← calculate_timing self;
  let label :=
    "Total frames: " +:+ str_of_int total_frames +:+ " | Est. time: ~"
    +:+ str_of_int refresh_time +:+ "ms" in
  output ← preview_output self lut;
  Ok (label, output).

End Ui.
Export Ui.

(** ** Notions for the properties of the whole editor *)

Module Whole.

(** What the encoder reads of a model: the patterns 0..3, five fields of
    each of the groups 0..9, and the five voltage levels. *)
Record encodable (self : LUTEditor) : Prop := {
  encodable_patterns :
    ∀ t, 0 <= t < 4 → is_Some (voltage_patterns self !! t);
  encodable_groups :
    ∀ g, (g < 10)%nat →
      ∃ group, timing_groups self !! g = Some group ∧ (5 <= length group)%nat;
  encodable_voltages :
    ∀ name, name ∈ VOLTAGE_NAMES → is_Some (voltages self !! name)
}.

(** The first [n] groups have five fields each. *)
Definition groups_ok (n : nat) (tg : list (list Z)) : Prop :=
  (n <= length tg)%nat ∧ Forall (fun g => 5 <= length g)%nat (take n tg).

(** The table of such a model: as [layout], with the first five fields of
    the first ten groups. *)
Definition table (self : LUTEditor) : list Z :=
  packed_block (pattern_of self 0) ++ packed_block (pattern_of self 1)
  ++ packed_block (pattern_of self 2) ++ packed_block (pattern_of self 3)
  ++ replicate 10 0
  ++ concat (take 5 <$> take 10 (timing_groups self))
  ++ replicate 5 (frame_rate self)
  ++ (voltage_of self <$> VOLTAGE_NAMES)
  ++ [0; 0].

(** What the loop over the four patterns leaves in the zeroed table. *)
Definition pattern_blocks (vp : gmap Z (list string)) : res (list Z) :=
  match vp !! 0, vp !! 1, vp !! 2, vp !! 3 with
  | Some p0, Some p1, Some p2, Some p3 =>
      Ok (packed_block p0 ++ packed_block p1 ++ packed_block p2
          ++ packed_block p3 ++ replicate 72 0)%list
  | _, _, _, _ => Raise KeyError
  end.

(** The timing part of a WaveformModel: ten groups of five fields, each an
    unsigned byte. *)
Definition timing_ok (self : LUTEditor) : Prop :=
  length (timing_groups self) = 10%nat
  ∧ Forall (fun g => length g = 5%nat) (timing_groups self)
  ∧ Forall (Forall byte) (timing_groups self).

(** A callback of the user interface with its arguments; the texts are
    those of the entry widgets at the time the callback runs. *)
Inductive event : Type :=
  | AddVoltage (trans_idx : Z)
  | RemoveVoltage (trans_idx volt_idx : Z)
  | VoltageChange (voltage_widgets : gmap Z (list string))
      (trans_idx volt_idx : Z)
  | TimingChange (group_idx : nat) (entries : nat → string)
  | FramerateChange (text : string)
  | VoltageSettingChange (entries : string → string)
  | ResetToDefault (confirmed : bool).

Definition callback (ev : event) : cmd LUTEditor unit :=
  match ev with
  | AddVoltage t => add_voltage t
  | RemoveVoltage t i => remove_voltage t i
  | VoltageChange widgets t i => on_voltage_change widgets t i
  | TimingChange g entries => on_timing_change entries g
  | FramerateChange text => on_framerate_change text
  | VoltageSettingChange entries => on_voltage_setting_change entries
  | ResetToDefault confirmed => reset_to_default confirmed
  end.

(** A sequence of callbacks: each one runs on the model the previous one
    left, whether or not it raised. *)
Definition run (evs : list event) (self : LUTEditor) : LUTEditor :=
  foldl (fun s ev => fst (callback ev s)) self evs.

(** What every callback keeps: the shape of the model, patterns of 1 to 40
    steps, and voltage levels that are unsigned bytes under the five
    names. *)
Definition kept (self : LUTEditor) : Prop :=
  shaped self ∧ lengths_ok self
  ∧ ∀ name v, voltages self !! name = Some v → name ∈ VOLTAGE_NAMES ∧ byte v.

(** The callbacks the widgets can issue on a model: transitions 0..3, a
    step position within the pattern, step widgets that match the pattern
    (one combobox per step), a timing group 0..9 whose texts, when they
    parse, give unsigned bytes. *)
Definition in_range (ev : event) (self : LUTEditor) : Prop :=
  match ev with
  | AddVoltage t => 0 <= t < 4
  | RemoveVoltage t i =>
      0 <= t < 4 ∧ 0 <= i < Z.of_nat (length (pattern_of self t))
  | VoltageChange widgets t i =>
      0 <= t < 4 ∧ 0 <= i
      ∧ ∃ ws, widgets !! t = Some ws
          ∧ length ws = length (pattern_of self t)
  | TimingChange g entries =>
      (g < 10)%nat
      ∧ ∀ i v, (i < 5)%nat → int_or (entries i) 0 = Ok v → byte v
  | FramerateChange _ | VoltageSettingChange _ | ResetToDefault _ => True
  end.

(** An upper-case hexadecimal digit character. *)
Definition hex_char (c : ascii) : Prop :=
  In c ["0"; "1"; "2"; "3"; "4"; "5"; "6"; "7"; "8"; "9";
        "A"; "B"; "C"; "D"; "E"; "F"]%char.

(** The texts the editor writes into the spinboxes of group 0 and into the
    voltage entries for the initial model. *)
Definition written_timing_entries (i : nat) : string :=
  str_of_int (timing_field init 0 i).

Definition written_voltage_entries (name : string) : string :=
  "0x" +:+ format_02X (voltage_of init name).

(** A command that leaves the object as it is. *)
Definition keeps_state {S A} (c : cmd S A) : Prop := ∀ s, fst (c s) = s.

(** The initial model without its timing groups. *)
Definition no_groups_model : LUTEditor := set_timing_groups [] init.

End Whole.
Export Whole.

(** ** Tactics *)

(** One step of a computation in [res]. *)
Ltac res_step := cbn [mbind res_bind bind mret res_ret].

(** One step of a command on the editor. *)
Ltac cmd_step :=
  unfold mbind, cmd_bind, cbind, reads, writes, mret, cmd_ret, cret;
  cbn beta iota; cbn [fst snd res_bind bind].

(** Membership of a given name in a given list, by evaluation. *)
Ltac member := apply (bool_decide_unpack _); vm_compute; exact I.

(** ** The encoder *)

Section Encoder.

Lemma VS_REVERSE_get name :
  default 0 (VS_REVERSE !! name) = voltage_code name.
Proof.
  unfold VS_REVERSE, voltage_code, VS_MAP; simpl.
  repeat case_bool_decide; subst; try done.
  rewrite !lookup_insert_ne by done. by rewrite lookup_empty.
Qed.

Lemma voltage_code_range name : 0 <= voltage_code name < 4.
Proof. unfold voltage_code. repeat case_bool_decide; lia. Qed.

Lemma code_at_range p i : 0 <= code_at p i < 4.
Proof.
  unfold code_at. destruct (p !! i); [apply voltage_code_range | lia].
Qed.

Lemma code_at_ge p i : (length p <= i)%nat → code_at p i = 0.
Proof. intros H. unfold code_at. by rewrite lookup_ge_None_2. Qed.

(** The byte the source accumulates with [|=] and [<<]. *)
Lemma packed_byte_lor p k :
  packed_byte p k =
  Z.lor (Z.lor (Z.lor (Z.lor 0 (Z.shiftl (code_at p (4 * k)) 6))
                      (Z.shiftl (code_at p (4 * k + 1)) 4))
               (Z.shiftl (code_at p (4 * k + 2)) 2))
        (Z.shiftl (code_at p (4 * k + 3)) 0).
Proof.
  unfold packed_byte.
  pose proof (code_at_range p (4 * k)) as H0.
  pose proof (code_at_range p (4 * k + 1)) as H1.
  pose proof (code_at_range p (4 * k + 2)) as H2.
  pose proof (code_at_range p (4 * k + 3)) as H3.
  assert (Hc : ∀ c, 0 <= c < 4 → c = 0 ∨ c = 1 ∨ c = 2 ∨ c = 3) by lia.
  destruct (Hc _ H0) as [-> | [-> | [-> | ->]]];
  destruct (Hc _ H1) as [-> | [-> | [-> | ->]]];
  destruct (Hc _ H2) as [-> | [-> | [-> | ->]]];
  destruct (Hc _ H3) as [-> | [-> | [-> | ->]]]; reflexivity.
Qed.

Lemma packed_byte_byte p k : byte (packed_byte p k).
Proof.
  unfold byte, packed_byte.
  pose proof (code_at_range p (4 * k)).
  pose proof (code_at_range p (4 * k + 1)).
  pose proof (code_at_range p (4 * k + 2)).
  pose proof (code_at_range p (4 * k + 3)). lia.
Qed.

Lemma packed_byte_ge p k : (length p <= 4 * k)%nat → packed_byte p k = 0.
Proof.
  intros H. unfold packed_byte. rewrite !code_at_ge by lia. reflexivity.
Qed.

(** The two bits of slot [j] of a packed byte are the code of the step. *)
Lemma packed_byte_slot p k j :
  (j < 4)%nat →
  Z.land (Z.shiftr (packed_byte p k) (6 - 2 * Z.of_nat j)) 3
  = code_at p (4 * k + j).
Proof.
  intros Hj. unfold packed_byte.
  pose proof (code_at_range p (4 * k)) as H0.
  pose proof (code_at_range p (4 * k + 1)) as H1.
  pose proof (code_at_range p (4 * k + 2)) as H2.
  pose proof (code_at_range p (4 * k + 3)) as H3.
  assert (Hc : ∀ c, 0 <= c < 4 → c = 0 ∨ c = 1 ∨ c = 2 ∨ c = 3) by lia.
  destruct j as [|[|[|[|j]]]]; [| | | | lia];
    rewrite ?Nat.add_0_r;
  destruct (Hc _ H0) as [-> | [-> | [-> | ->]]];
  destruct (Hc _ H1) as [-> | [-> | [-> | ->]]];
  destruct (Hc _ H2) as [-> | [-> | [-> | ->]]];
  destruct (Hc _ H3) as [-> | [-> | [-> | ->]]]; reflexivity.
Qed.

(** One round of the inner loop from the start of byte [k]. *)
Lemma pack_phases_byte p k :
  (4 * k < length p)%nat →
  pack_phases p (range 4) 0 (4 * k)
  = Ok (packed_byte p k, (4 * S k) `min` length p)%nat.
Proof.
  intros Hk. rewrite packed_byte_lor.
  replace (4 * S k)%nat with (4 * k + 4)%nat by lia.
  remember (4 * k)%nat as n eqn:En. clear En k.
  assert (Hstep : ∀ i, (i < length p)%nat →
            ∃ name, p !! i = Some name ∧ code_at p i = voltage_code name).
  { intros i Hi. destruct (lookup_lt_is_Some_2 p i Hi) as [name Hn].
    exists name. split; [done|]. unfold code_at. by rewrite Hn. }
  assert (Hnone : ∀ i, ¬ (i < length p)%nat → code_at p i = 0).
  { intros i Hi. apply code_at_ge. lia. }
  replace (n + 1)%nat with (S n) by lia.
  replace (n + 2)%nat with (S (S n)) by lia.
  replace (n + 3)%nat with (S (S (S n))) by lia.
  unfold range; simpl seq. unfold pack_phases, index; simpl Z.of_nat.
  rewrite bool_decide_eq_true_2 by done.
  destruct (Hstep _ Hk) as (n0 & -> & ->); simpl.
  rewrite VS_REVERSE_get.
  case_bool_decide as H1.
  2:{ rewrite !Hnone by lia. rewrite ?Z.shiftl_0_l, ?Z.lor_0_r.
      simpl. do 2 f_equal. lia. }
  destruct (Hstep _ H1) as (n1 & -> & ->); simpl. rewrite VS_REVERSE_get.
  case_bool_decide as H2.
  2:{ rewrite !Hnone by lia. rewrite ?Z.shiftl_0_l, ?Z.lor_0_r.
      simpl. do 2 f_equal. lia. }
  destruct (Hstep _ H2) as (n2 & -> & ->); simpl. rewrite VS_REVERSE_get.
  case_bool_decide as H3.
  2:{ rewrite !Hnone by lia. rewrite ?Z.shiftl_0_l, ?Z.lor_0_r.
      simpl. do 2 f_equal. lia. }
  destruct (Hstep _ H3) as (n3 & -> & ->); simpl. rewrite VS_REVERSE_get.
  do 2 f_equal. lia.
Qed.

Lemma write_bytes_zero f vs_start ks lut :
  (∀ k, k ∈ ks → f k = 0 ∧ lut !! (vs_start + k)%nat = Some 0) →
  write_bytes f vs_start ks lut = lut.
Proof.
  unfold write_bytes. induction ks as [|k ks IH]; intros H; simpl; [done|].
  destruct (H k) as [Hk Hz]; [left|].
  rewrite Hk, list_insert_id by done.
  apply IH. intros k' Hk'. apply H. by right.
Qed.

(** The packing loop from byte [byte_idx] on: it ends within the fuel and
    leaves the packed bytes in the block. *)
Lemma encode_steps_from fuel p vs_start byte_idx lut :
  (byte_idx <= 10)%nat → (10 - byte_idx <= fuel)%nat →
  (vs_start + 10 <= length lut)%nat →
  (∀ k, (byte_idx <= k < 10)%nat → lut !! (vs_start + k)%nat = Some 0) →
  encode_steps fuel p vs_start byte_idx ((4 * byte_idx) `min` length p)%nat lut
  = Ok (write_bytes (packed_byte p) vs_start
          (seq byte_idx (10 - byte_idx)) lut).
Proof.
  revert byte_idx lut.
  induction fuel as [|fuel IH]; intros byte_idx lut Hb Hf Hlen Hz.
  - assert (byte_idx = 10)%nat as -> by lia. unfold encode_steps.
    rewrite (bool_decide_eq_false_2 (10 < 10)%nat) by lia.
    by rewrite andb_false_r.
  - unfold encode_steps; fold encode_steps.
    destruct (decide (4 * byte_idx < length p ∧ byte_idx < 10)%nat)
      as [[Hs Hlt]|Hstop].
    + rewrite Nat.min_l by lia.
      rewrite !bool_decide_eq_true_2 by lia. simpl andb.
      rewrite pack_phases_byte by done. simpl.
      unfold setitem. rewrite bool_decide_eq_true_2 by lia. simpl.
      rewrite IH.
      * replace (10 - byte_idx)%nat with (S (10 - S byte_idx)) by lia.
        reflexivity.
      * lia.
      * lia.
      * rewrite length_insert. lia.
      * intros k Hk. rewrite list_lookup_insert_ne by lia. apply Hz. lia.
    + replace (bool_decide ((4 * byte_idx) `min` length p < length p)%nat
               && bool_decide (byte_idx < 10)%nat) with false.
      2:{ symmetry. apply andb_false_iff.
          destruct (decide (byte_idx < 10)%nat).
          - left. apply bool_decide_eq_false_2. lia.
          - right. by apply bool_decide_eq_false_2. }
      rewrite write_bytes_zero; [done|].
      intros k Hk. apply elem_of_seq in Hk.
      split; [apply packed_byte_ge; lia | apply Hz; lia].
Qed.

Lemma encode_steps_block p vs_start lut :
  (vs_start + 10 <= length lut)%nat →
  take 10 (drop vs_start lut) = replicate 10 0 →
  encode_steps 10 p vs_start 0 0 lut
  = Ok (write_bytes (packed_byte p) vs_start (seq 0 10) lut).
Proof.
  intros Hlen Hz.
  apply (encode_steps_from 10 p vs_start 0 lut); [lia | lia | done |].
  intros k Hk.
  assert (take 10 (drop vs_start lut) !! k = Some 0) as H.
  { rewrite Hz. apply lookup_replicate_2. lia. }
  rewrite lookup_take_lt in H by lia. by rewrite lookup_drop in H.
Qed.

(** The four pattern blocks, written into the zeroed table. *)
Lemma vs_blocks (vp : gmap Z (list string)) p0 p1 p2 p3 :
  vp !! 0 = Some p0 → vp !! 1 = Some p1 →
  vp !! 2 = Some p2 → vp !! 3 = Some p3 →
  for_each (range 4) (fun trans_idx lut =>
      pattern ← getitem vp (Z.of_nat trans_idx);
      encode_steps 10 pattern (trans_idx * 10) 0 0 lut) (replicate 112 0)
  = Ok (packed_block p0 ++ packed_block p1 ++ packed_block p2
        ++ packed_block p3 ++ replicate 72 0)%list.
Proof.
  intros E0 E1 E2 E3.
  unfold range. cbn [seq for_each]. unfold getitem, packed_block.
  change (Z.of_nat 0) with 0. change (Z.of_nat 1) with 1.
  change (Z.of_nat 2) with 2. change (Z.of_nat 3) with 3.
  rewrite E0, E1, E2, E3. res_step.
  assert (Hlen : ∀ f s ks lut, length (write_bytes f s ks lut) = length lut).
  { intros f s ks. unfold write_bytes.
    induction ks as [|k ks IH]; intros lut; simpl; [done|].
    by rewrite IH, length_insert. }
  rewrite encode_steps_block;
    [| rewrite ?Hlen, length_replicate; lia | reflexivity].
  res_step.
  rewrite encode_steps_block;
    [| rewrite ?Hlen, length_replicate; lia | reflexivity].
  res_step.
  rewrite encode_steps_block;
    [| rewrite ?Hlen, length_replicate; lia | reflexivity].
  res_step.
  rewrite encode_steps_block;
    [| rewrite ?Hlen, length_replicate; lia | reflexivity].
  res_step.
  generalize (packed_byte p0) (packed_byte p1) (packed_byte p2)
    (packed_byte p3). intros f0 f1 f2 f3.
  reflexivity.
Qed.

Lemma list_of_length_5 {A} (g : list A) :
  length g = 5%nat → ∃ a b c d e, g = [a; b; c; d; e].
Proof.
  intros H. do 5 (destruct g as [|? g]; [discriminate|]).
  destruct g; [|discriminate]. eauto 6.
Qed.

Lemma groups_explicit (tg : list (list Z)) :
  length tg = 10%nat → Forall (fun g => length g = 5%nat) tg →
  ∃ g0 g1 g2 g3 g4 g5 g6 g7 g8 g9,
    tg = [g0; g1; g2; g3; g4; g5; g6; g7; g8; g9]
    ∧ Forall (fun g => ∃ a b c d e, g = [a; b; c; d; e]) tg.
Proof.
  intros Hl Hf.
  do 10 (destruct tg as [|? tg]; [discriminate|]).
  destruct tg; [|discriminate].
  do 10 eexists. split; [reflexivity|].
  eapply Forall_impl; [exact Hf|]. intros g. apply list_of_length_5.
Qed.

(** The encoder on a shaped model: it returns, and returns the layout. *)
Lemma encode_layout self :
  shaped self → voltage_pattern_to_lut self = Ok (layout self).
Proof.
  intros [Hp Hg Hf Hv]. destruct self as [vp tg fr vs]; simpl in *.
  destruct (Hp 0) as [p0 E0]; [lia|]. destruct (Hp 1) as [p1 E1]; [lia|].
  destruct (Hp 2) as [p2 E2]; [lia|]. destruct (Hp 3) as [p3 E3]; [lia|].
  destruct (Hv "VGH") as [vgh Evgh]; [member|].
  destruct (Hv "VSH1") as [vsh1 Evsh1]; [member|].
  destruct (Hv "VSH2") as [vsh2 Evsh2]; [member|].
  destruct (Hv "VSL") as [vsl Evsl]; [member|].
  destruct (Hv "VCOM") as [vcom Evcom]; [member|].
  destruct (groups_explicit tg Hg Hf)
    as (g0 & g1 & g2 & g3 & g4 & g5 & g6 & g7 & g8 & g9 & -> & Hall).
  repeat match goal with
  | H : Forall _ (_ :: _) |- _ =>
      apply Forall_cons in H; destruct H as [(? & ? & ? & ? & ? & ->) H]
  end.
  unfold voltage_pattern_to_lut, layout, pattern_of, voltage_of.
  cbn [voltage_patterns timing_groups frame_rate voltages].
  rewrite (vs_blocks vp p0 p1 p2 p3) by done. res_step.
  unfold getitem, VOLTAGE_NAMES. cbn [fmap list_fmap].
  rewrite E0, E1, E2, E3, Evgh, Evsh1, Evsh2, Evsl, Evcom.
  cbn [from_option]. unfold id, packed_block.
  generalize (packed_byte p0) (packed_byte p1) (packed_byte p2)
    (packed_byte p3). intros f0 f1 f2 f3.
  reflexivity.
Qed.

Lemma layout_block self t k :
  0 <= t < 4 → (k < 10)%nat →
  layout self !! (Z.to_nat (10 * t) + k)%nat
  = Some (packed_byte (pattern_of self t) k).
Proof.
  intros Ht Hk. unfold layout.
  assert (t = 0 ∨ t = 1 ∨ t = 2 ∨ t = 3) as [-> | [-> | [-> | ->]]] by lia;
    do 10 (destruct k as [|k]; [reflexivity|]); lia.
Qed.

Lemma layout_bytes self : valid self → Forall byte (layout self).
Proof.
  intros [Hs _ _ Ht Hf Hv]. unfold layout.
  assert (Hb : ∀ p, Forall byte (packed_block p)).
  { intros p. apply Forall_fmap, Forall_forall. intros k _.
    apply packed_byte_byte. }
  assert (H0 : byte 0) by (unfold byte; lia).
  repeat apply Forall_app_2; auto.
  - by apply Forall_replicate.
  - by apply Forall_concat.
  - by apply Forall_replicate.
  - apply Forall_fmap, Forall_forall. intros name Hn. unfold voltage_of; simpl.
    destruct (shaped_voltages _ Hs name Hn) as [v Ev]. rewrite Ev. simpl.
    by destruct (Hv name v Ev).
Qed.

Lemma init_valid : valid init.
Proof.
  assert (Hvp : ∀ t p, voltage_patterns init !! t = Some p →
            (t = 0 ∧ p = ["VSS"; "VSH1"; "VSS"; "VSH1"])
            ∨ (t = 1 ∧ p = ["VSL"; "VSL"; "VSL"; "VSS"])
            ∨ (t = 2 ∧ p = ["VSH1"; "VSS"; "VSH1"; "VSS"])
            ∨ (t = 3 ∧ p = ["VSS"; "VSL"; "VSS"; "VSL"])).
  { intros t p. unfold init; simpl. rewrite !lookup_insert_Some.
    rewrite lookup_empty. intros H.
    repeat (destruct H as [[<- <-]|[_ H]]; [auto 10|]). done. }
  split.
  - split.
    + intros t Ht.
      assert (t = 0 ∨ t = 1 ∨ t = 2 ∨ t = 3) as [-> | [-> | [-> | ->]]]
        by lia; by eexists.
    + reflexivity.
    + unfold init; simpl. by repeat constructor.
    + intros name Hn. unfold VOLTAGE_NAMES in Hn.
      repeat (apply elem_of_cons in Hn as [-> | Hn]; [by eexists|]).
      by apply elem_of_nil in Hn.
  - intros t p H.
    destruct (Hvp t p H) as [[_ ->] | [[_ ->] | [[_ ->] | [_ ->]]]];
      simpl; lia.
  - intros t p H.
    destruct (Hvp t p H) as [[_ ->] | [[_ ->] | [[_ ->] | [_ ->]]]];
      repeat constructor; member.
  - unfold init, byte; simpl. repeat constructor; lia.
  - unfold init, byte; simpl. lia.
  - intros name v. unfold init, byte; simpl.
    rewrite !lookup_insert_Some, lookup_empty. intros H.
    repeat (destruct H as [[<- <-]|[_ H]]; [split; [member | lia]|]). done.
Qed.

End Encoder.

(** C1. For every valid model the encoder returns exactly 112 bytes: bytes
    0-39 the four packed patterns in transition order (10 bytes each),
    bytes 40-49 zero, bytes 50-99 the ten timing groups verbatim in group
    order and field order A, B, C, D, RP, bytes 100-104 the frame rate five
    times, bytes 105-109 VGH, VSH1, VSH2, VSL, VCOM, bytes 110-111 zero. *)
Theorem encode_112_bytes (self : LUTEditor) :
  valid self →
  ∃ lut, voltage_pattern_to_lut self = Ok lut
    ∧ length lut = 112%nat
    ∧ Forall byte lut
    ∧ take 10 lut = packed_block (pattern_of self 0)
    ∧ take 10 (drop 10 lut) = packed_block (pattern_of self 1)
    ∧ take 10 (drop 20 lut) = packed_block (pattern_of self 2)
    ∧ take 10 (drop 30 lut) = packed_block (pattern_of self 3)
    ∧ take 10 (drop 40 lut) = replicate 10 0
    ∧ take 50 (drop 50 lut) = concat (timing_groups self)
    ∧ take 5 (drop 100 lut) = replicate 5 (frame_rate self)
    ∧ take 5 (drop 105 lut) =
        [voltage_of self "VGH"; voltage_of self "VSH1";
         voltage_of self "VSH2"; voltage_of self "VSL";
         voltage_of self "VCOM"]
    ∧ drop 110 lut = [0; 0].
Proof.
  intros Hv. exists (layout self).
  split; [apply encode_layout, Hv|].
  split; [|split; [by apply layout_bytes|]].
  all: destruct Hv as [[_ Hg Hf _] _ _ _ _ _].
  all: destruct (groups_explicit _ Hg Hf)
    as (g0 & g1 & g2 & g3 & g4 & g5 & g6 & g7 & g8 & g9 & E & Hall).
  all: unfold layout; rewrite E in *.
  all: repeat match goal with
       | H : Forall _ (_ :: _) |- _ =>
           apply Forall_cons in H; destruct H as [(? & ? & ? & ? & ? & ->) H]
       end.
  all: unfold packed_block;
       generalize (packed_byte (pattern_of self 0))
                  (packed_byte (pattern_of self 1))
                  (packed_byte (pattern_of self 2))
                  (packed_byte (pattern_of self 3)); intros f0 f1 f2 f3.
  - reflexivity.
  - repeat split; reflexivity.
Qed.

Lemma encode_112_bytes_witness :
  valid init ∧
  ∃ lut, voltage_pattern_to_lut init = Ok lut
    ∧ length lut = 112%nat
    ∧ Forall byte lut
    ∧ take 10 lut = packed_block (pattern_of init 0)
    ∧ take 10 (drop 10 lut) = packed_block (pattern_of init 1)
    ∧ take 10 (drop 20 lut) = packed_block (pattern_of init 2)
    ∧ take 10 (drop 30 lut) = packed_block (pattern_of init 3)
    ∧ take 10 (drop 40 lut) = replicate 10 0
    ∧ take 50 (drop 50 lut) = concat (timing_groups init)
    ∧ take 5 (drop 100 lut) = replicate 5 (frame_rate init)
    ∧ take 5 (drop 105 lut) =
        [voltage_of init "VGH"; voltage_of init "VSH1";
         voltage_of init "VSH2"; voltage_of init "VSL";
         voltage_of init "VCOM"]
    ∧ drop 110 lut = [0; 0].
Proof.
  split; [exact init_valid | exact (encode_112_bytes init init_valid)].
Defined.

(** C2. The encoder packs the steps of a pattern four per byte, two bits
    per step with the codes VSS=00, VSH1=01, VSL=10, VSH2=11, the first step
    of each group of four in bits 7-6 and the fourth in bits 1-0; the slots
    of missing steps are 0, and so is every byte past the last step.  The
    pattern [VSS, VSH1, VSS, VSH1] gives the byte 0x11 and
    [VSL, VSL, VSL, VSS] gives 0xA8. *)
Theorem pattern_packing (self : LUTEditor) (t : Z) (p : list string) :
  shaped self → 0 <= t < 4 → voltage_patterns self !! t = Some p →
  ∃ lut, voltage_pattern_to_lut self = Ok lut
    ∧ (∀ k, (k < 10)%nat →
        ∃ b, lut !! (Z.to_nat (10 * t) + k)%nat = Some b
          ∧ 0 <= b < 256
          ∧ (∀ j, (j < 4)%nat →
               Z.land (Z.shiftr b (6 - 2 * Z.of_nat j)) 3
               = code_at p (4 * k + j))
          ∧ ((length p <= 4 * k)%nat → b = 0))
    ∧ (p = ["VSS"; "VSH1"; "VSS"; "VSH1"] →
         lut !! Z.to_nat (10 * t) = Some 0x11)
    ∧ (p = ["VSL"; "VSL"; "VSL"; "VSS"] →
         lut !! Z.to_nat (10 * t) = Some 0xA8).
Proof.
  intros Hs Ht Hp. exists (layout self).
  split; [by apply encode_layout|].
  assert (Hpat : pattern_of self t = p) by (unfold pattern_of; by rewrite Hp).
  split; [|split].
  - intros k Hk. exists (packed_byte p k).
    rewrite layout_block, Hpat by done.
    split; [done|]. split; [apply packed_byte_byte|].
    split; [intros j Hj; by apply packed_byte_slot | apply packed_byte_ge].
  - intros ->.
    rewrite <- (Nat.add_0_r (Z.to_nat (10 * t))), layout_block, Hpat
      by (done || lia).
    reflexivity.
  - intros ->.
    rewrite <- (Nat.add_0_r (Z.to_nat (10 * t))), layout_block, Hpat
      by (done || lia).
    reflexivity.
Qed.

Lemma pattern_packing_witness :
  shaped init ∧ 0 <= 1 < 4
  ∧ voltage_patterns init !! 1 = Some ["VSL"; "VSL"; "VSL"; "VSS"]
  ∧ ∃ lut, voltage_pattern_to_lut init = Ok lut
    ∧ (∀ k, (k < 10)%nat →
        ∃ b, lut !! (Z.to_nat (10 * 1) + k)%nat = Some b
          ∧ 0 <= b < 256
          ∧ (∀ j, (j < 4)%nat →
               Z.land (Z.shiftr b (6 - 2 * Z.of_nat j)) 3
               = code_at ["VSL"; "VSL"; "VSL"; "VSS"] (4 * k + j))
          ∧ ((length ["VSL"; "VSL"; "VSL"; "VSS"] <= 4 * k)%nat → b = 0))
    ∧ (["VSL"; "VSL"; "VSL"; "VSS"] = ["VSS"; "VSH1"; "VSS"; "VSH1"] →
         lut !! Z.to_nat (10 * 1) = Some 0x11)
    ∧ (["VSL"; "VSL"; "VSL"; "VSS"] = ["VSL"; "VSL"; "VSL"; "VSS"] →
         lut !! Z.to_nat (10 * 1) = Some 0xA8).
Proof.
  pose proof (valid_shaped init init_valid) as Hs.
  assert (Ht : 0 <= 1 < 4) by lia.
  assert (Hp : voltage_patterns init !! 1 = Some ["VSL"; "VSL"; "VSL"; "VSS"])
    by reflexivity.
  exact (conj Hs (conj Ht (conj Hp (pattern_packing init 1 _ Hs Ht Hp)))).
Defined.

(** C6. A step whose name is outside {VSS, VSH1, VSL, VSH2} is encoded with
    code 0, the code of VSS, and does not make the encoder fail: on every
    model of the WaveformModel shape, whatever its step names, pattern
    lengths and numeric values, the encoder returns a table. *)
Theorem encode_unknown_name (self : LUTEditor) :
  shaped self →
  ∃ lut, voltage_pattern_to_lut self = Ok lut
    ∧ length lut = 112%nat
    ∧ ∀ t p i name,
        0 <= t < 4 → voltage_patterns self !! t = Some p →
        (i < 40)%nat → p !! i = Some name → name ∉ VOLTAGE_OPTIONS →
        default 0 (VS_REVERSE !! name) = 0
        ∧ ∃ b, lut !! (Z.to_nat (10 * t) + i / 4)%nat = Some b
            ∧ Z.land (Z.shiftr b (6 - 2 * Z.of_nat (i mod 4))) 3 = 0.
Proof.
  intros Hs. exists (layout self).
  split; [by apply encode_layout|]. split.
  - destruct Hs as [_ Hg Hf _].
    destruct (groups_explicit _ Hg Hf)
      as (g0 & g1 & g2 & g3 & g4 & g5 & g6 & g7 & g8 & g9 & E & Hall).
    unfold layout. rewrite E in *.
    repeat match goal with
    | H : Forall _ (_ :: _) |- _ =>
        apply Forall_cons in H; destruct H as [(? & ? & ? & ? & ? & ->) H]
    end.
    reflexivity.
  - intros t p i name Ht Hp Hi Hn Hu.
    assert (Hc : voltage_code name = 0).
    { unfold voltage_code.
      repeat case_bool_decide; subst; try done; exfalso; apply Hu; member. }
    split; [by rewrite VS_REVERSE_get|].
    exists (packed_byte p (i / 4)).
    assert (Hpat : pattern_of self t = p)
      by (unfold pattern_of; by rewrite Hp).
    assert (i / 4 < 10)%nat by (apply Nat.Div0.div_lt_upper_bound; lia).
    rewrite layout_block, Hpat by done. split; [done|].
    rewrite packed_byte_slot by (apply Nat.mod_upper_bound; lia).
    rewrite <- Nat.div_mod_eq. unfold code_at. by rewrite Hn.
Qed.

Lemma encode_unknown_name_witness :
  shaped (set_pattern 0 ["VSL"; "bogus"; "VSH2"] init)
  ∧ ∃ lut,
      voltage_pattern_to_lut (set_pattern 0 ["VSL"; "bogus"; "VSH2"] init)
      = Ok lut
    ∧ length lut = 112%nat
    ∧ ∀ t p i name,
        0 <= t < 4 →
        voltage_patterns (set_pattern 0 ["VSL"; "bogus"; "VSH2"] init) !! t
        = Some p →
        (i < 40)%nat → p !! i = Some name → name ∉ VOLTAGE_OPTIONS →
        default 0 (VS_REVERSE !! name) = 0
        ∧ ∃ b, lut !! (Z.to_nat (10 * t) + i / 4)%nat = Some b
            ∧ Z.land (Z.shiftr b (6 - 2 * Z.of_nat (i mod 4))) 3 = 0.
Proof.
  assert (Hs : shaped (set_pattern 0 ["VSL"; "bogus"; "VSH2"] init)).
  { destruct (valid_shaped init init_valid) as [Hp Hg Hf Hv].
    split; [|exact Hg|exact Hf|exact Hv].
    intros t Ht. simpl.
    destruct (decide (t = 0)) as [->|Hne].
    - rewrite lookup_insert_eq. by eexists.
    - rewrite lookup_insert_ne by done. by apply Hp. }
  exact (conj Hs (encode_unknown_name _ Hs)).
Defined.

(** ** Pattern edits *)

Section Edits.

Lemma add_voltage_state t self :
  fst (add_voltage t self) =
  match voltage_patterns self !! t with
  | Some p =>
      if bool_decide (length p < 40)%nat
      then set_pattern t (p ++ ["VSS"])%list self else self
  | None => self
  end.
Proof.
  unfold add_voltage, getitem. cmd_step.
  destruct (voltage_patterns self !! t) as [p|]; cmd_step; [|done].
  case_bool_decide; [|done]. cmd_step.
  unfold reload_voltage_pattern, update_preview. cmd_step.
  by repeat (case_match; cmd_step).
Qed.

Lemma remove_voltage_state t i self :
  fst (remove_voltage t i self) =
  match voltage_patterns self !! t with
  | Some p =>
      if bool_decide (1 < length p)%nat then
        match pop p i with
        | Ok p' => set_pattern t p' self
        | Raise _ => self
        end
      else self
  | None => self
  end.
Proof.
  unfold remove_voltage, getitem. cmd_step.
  destruct (voltage_patterns self !! t) as [p|]; cmd_step; [|done].
  case_bool_decide; [|done]. cmd_step.
  destruct (pop p i); cmd_step; [|done].
  unfold reload_voltage_pattern, update_preview. cmd_step.
  by repeat (case_match; cmd_step).
Qed.

Lemma on_voltage_change_state widgets t i self :
  fst (on_voltage_change widgets t i self) =
  match widgets !! t with
  | Some ws =>
      if bool_decide (i < Z.of_nat (length ws)) then
        match getitem_z ws i, voltage_patterns self !! t with
        | Ok choice, Some p =>
            match setitem_z p i choice with
            | Ok p' => set_pattern t p' self
            | Raise _ => self
            end
        | _, _ => self
        end
      else self
  | None => self
  end.
Proof.
  unfold on_voltage_change, getitem. cmd_step.
  destruct (widgets !! t) as [ws|]; cmd_step; [|done].
  case_bool_decide; [|done]. cmd_step.
  destruct (getitem_z ws i) as [choice|]; cmd_step; [|done].
  destruct (voltage_patterns self !! t) as [p|]; cmd_step; [|done].
  destruct (setitem_z p i choice); cmd_step; [|done].
  unfold update_preview. cmd_step.
  by repeat (case_match; cmd_step).
Qed.

Lemma position_lt n i k : position n i = Ok k → (k < n)%nat.
Proof.
  unfold position. repeat case_bool_decide; intros [= <-]; lia.
Qed.

Lemma pop_length {A} (p p' : list A) i :
  pop p i = Ok p' → S (length p') = length p.
Proof.
  unfold pop. destruct (position (length p) i) as [k|] eqn:E; [|done].
  intros [= <-]. apply position_lt in E.
  rewrite length_delete by by apply lookup_lt_is_Some_2. lia.
Qed.

Lemma setitem_z_length {A} (p p' : list A) i v :
  setitem_z p i v = Ok p' → length p' = length p.
Proof.
  unfold setitem_z. destruct (position (length p) i) as [k|]; [|done].
  intros [= <-]. apply length_insert.
Qed.

Lemma set_pattern_lengths t p self :
  lengths_ok self → (1 <= length p <= 40)%nat →
  lengths_ok (set_pattern t p self).
Proof.
  intros H Hp t' p'. simpl. rewrite lookup_insert_Some.
  intros [[_ <-] | [_ H']]; [done | by eapply H].
Qed.

Lemma apply_edit_lengths e self :
  lengths_ok self → lengths_ok (fst (apply_edit e self)).
Proof.
  intros H. destruct e as [t | t i | widgets t i]; simpl.
  - rewrite add_voltage_state.
    destruct (voltage_patterns self !! t) as [p|] eqn:E; [|done].
    case_bool_decide; [|done]. apply set_pattern_lengths; [done|].
    rewrite length_app. simpl. specialize (H t p E). lia.
  - rewrite remove_voltage_state.
    destruct (voltage_patterns self !! t) as [p|] eqn:E; [|done].
    case_bool_decide; [|done].
    destruct (pop p i) as [p'|] eqn:Ep; [|done].
    apply set_pattern_lengths; [done|].
    apply pop_length in Ep. specialize (H t p E). lia.
  - rewrite on_voltage_change_state.
    destruct (widgets !! t) as [ws|]; [|done].
    case_bool_decide; [|done].
    destruct (getitem_z ws i) as [choice|]; [|done].
    destruct (voltage_patterns self !! t) as [p|] eqn:E; [|done].
    destruct (setitem_z p i choice) as [p'|] eqn:Ep; [|done].
    apply set_pattern_lengths; [done|].
    apply setitem_z_length in Ep. specialize (H t p E). lia.
Qed.

Lemma run_edits_lengths es self :
  lengths_ok self → lengths_ok (run_edits es self).
Proof.
  unfold run_edits. revert self.
  induction es as [|e es IH]; intros self H; simpl; [done|].
  by apply IH, apply_edit_lengths.
Qed.

Lemma add_voltage_full t p self :
  voltage_patterns self !! t = Some p → length p = 40%nat →
  add_voltage t self = (self, Ok tt).
Proof.
  intros E Hl. unfold add_voltage, getitem. cmd_step. rewrite E.
  by rewrite bool_decide_eq_false_2 by lia.
Qed.

Lemma remove_voltage_single t i p self :
  voltage_patterns self !! t = Some p → length p = 1%nat →
  remove_voltage t i self = (self, Ok tt).
Proof.
  intros E Hl. unfold remove_voltage, getitem. cmd_step. rewrite E.
  by rewrite bool_decide_eq_false_2 by lia.
Qed.

Lemma remove_voltage_beyond t i p self :
  voltage_patterns self !! t = Some p → (1 < length p)%nat →
  Z.of_nat (length p) <= i →
  remove_voltage t i self = (self, Raise IndexError).
Proof.
  intros E Hl Hi. unfold remove_voltage, getitem. cmd_step. rewrite E.
  rewrite bool_decide_eq_true_2 by lia. cmd_step.
  unfold pop, position. by rewrite !bool_decide_eq_false_2 by lia.
Qed.

End Edits.

(** C5, as the code has it.  Under every sequence of append, remove and set
    callbacks the length of every pattern stays within 1..40.  On a pattern
    of 40 steps [add_voltage] is a silent no-op: it returns normally, leaves
    the model unchanged and reports nothing.  On a pattern of one step
    [remove_voltage] is a silent no-op in the same way, for every index. *)
Theorem pattern_length_invariant (self : LUTEditor) (es : list edit) :
  lengths_ok self →
  lengths_ok (run_edits es self)
  ∧ (∀ s t p, voltage_patterns s !! t = Some p → length p = 40%nat →
       add_voltage t s = (s, Ok tt)
       ∧ reported (snd (add_voltage t s)) = None)
  ∧ (∀ s t p i, voltage_patterns s !! t = Some p → length p = 1%nat →
       remove_voltage t i s = (s, Ok tt)
       ∧ reported (snd (remove_voltage t i s)) = None).
Proof.
  intros H. split; [by apply run_edits_lengths|]. split.
  - intros s t p E Hl. by rewrite (add_voltage_full t p s E Hl).
  - intros s t p i E Hl. by rewrite (remove_voltage_single t i p s E Hl).
Qed.

Lemma pattern_length_invariant_witness :
  lengths_ok init
  ∧ lengths_ok (run_edits [Append 0; Remove 1 3; SetStep sample_widgets 2 0;
                           Remove 1 7] init)
  ∧ (add_voltage 0 full_model = (full_model, Ok tt)
     ∧ reported (snd (add_voltage 0 full_model)) = None)
  ∧ (remove_voltage 0 3 single_model = (single_model, Ok tt)
     ∧ reported (snd (remove_voltage 0 3 single_model)) = None).
Proof.
  pose proof (valid_lengths init init_valid) as H.
  destruct (pattern_length_invariant init
              [Append 0; Remove 1 3; SetStep sample_widgets 2 0; Remove 1 7] H)
    as (H1 & H2 & H3).
  assert (E40 : voltage_patterns full_model !! 0 = Some (replicate 40 "VSS"))
    by reflexivity.
  assert (E1 : voltage_patterns single_model !! 0 = Some ["VSS"])
    by reflexivity.
  exact (conj H (conj H1
           (conj (H2 full_model 0 _ E40 eq_refl)
                 (H3 single_model 0 _ 3 E1 eq_refl)))).
Defined.

(** C5 as stated fails.  The operations of the specification report
    CapacityExceeded on a pattern of 40 steps and MinimumLengthViolation on
    a pattern of one step; [add_voltage] and [remove_voltage] return
    normally there and report nothing, exactly as when the edit is
    applied. *)
Lemma boundary_edits_report_nothing :
  (voltage_patterns full_model !! 0 = Some (replicate 40 "VSS")
   ∧ append_step (replicate 40 "VSS") = inr CapacityExceeded
   ∧ add_voltage 0 full_model = (full_model, Ok tt)
   ∧ reported (snd (add_voltage 0 full_model)) = None
   ∧ reported (snd (add_voltage 0 init)) = None)
  ∧ (voltage_patterns single_model !! 0 = Some ["VSS"]
     ∧ remove_step ["VSS"] 0 = inr MinimumLengthViolation
     ∧ remove_voltage 0 0 single_model = (single_model, Ok tt)
     ∧ reported (snd (remove_voltage 0 0 single_model)) = None
     ∧ reported (snd (remove_voltage 0 0 init)) = None).
Proof. vm_compute. repeat split. Qed.

(** C9, as the code has it.  On a pattern of more than one step,
    [remove_voltage] with an index at or beyond the length raises IndexError
    and leaves the model unchanged.  On a pattern of one step it does not
    fail: for every index it returns normally, leaves the model unchanged
    and reports nothing. *)
Theorem remove_out_of_range (self : LUTEditor) (t : Z) (p : list string)
    (i : nat) :
  voltage_patterns self !! t = Some p →
  ((1 < length p)%nat → (length p <= i)%nat →
     remove_voltage t (Z.of_nat i) self = (self, Raise IndexError)
     ∧ reported (snd (remove_voltage t (Z.of_nat i) self)) = Some IndexError)
  ∧ (length p = 1%nat →
     ∀ j : Z, remove_voltage t j self = (self, Ok tt)
              ∧ reported (snd (remove_voltage t j self)) = None).
Proof.
  intros E. split.
  - intros Hl Hi.
    by rewrite (remove_voltage_beyond t (Z.of_nat i) p self E Hl) by lia.
  - intros Hl j. by rewrite (remove_voltage_single t j p self E Hl).
Qed.

Lemma remove_out_of_range_witness :
  (voltage_patterns init !! 0 = Some ["VSS"; "VSH1"; "VSS"; "VSH1"]
   ∧ (1 < length ["VSS"; "VSH1"; "VSS"; "VSH1"])%nat
   ∧ (length ["VSS"; "VSH1"; "VSS"; "VSH1"] <= 4)%nat
   ∧ remove_voltage 0 (Z.of_nat 4) init = (init, Raise IndexError)
   ∧ reported (snd (remove_voltage 0 (Z.of_nat 4) init)) = Some IndexError)
  ∧ (voltage_patterns single_model !! 0 = Some ["VSS"]
     ∧ length ["VSS"] = 1%nat
     ∧ ∀ j : Z, remove_voltage 0 j single_model = (single_model, Ok tt)
                ∧ reported (snd (remove_voltage 0 j single_model)) = None).
Proof.
  assert (E : voltage_patterns init !! 0 = Some ["VSS"; "VSH1"; "VSS"; "VSH1"])
    by reflexivity.
  assert (L1 : (1 < length ["VSS"; "VSH1"; "VSS"; "VSH1"])%nat)
    by (simpl; lia).
  assert (L2 : (length ["VSS"; "VSH1"; "VSS"; "VSH1"] <= 4)%nat)
    by (simpl; lia).
  assert (E1 : voltage_patterns single_model !! 0 = Some ["VSS"])
    by reflexivity.
  assert (L3 : length ["VSS"] = 1%nat) by reflexivity.
  exact (conj
           (conj E (conj L1 (conj L2
              (proj1 (remove_out_of_range init 0 _ 4 E) L1 L2))))
           (conj E1 (conj L3
              (proj2 (remove_out_of_range single_model 0 _ 0 E1) L3)))).
Defined.

(** C9 as stated fails at length 1.  The operation of the specification
    fails there with MinimumLengthViolation; [remove_voltage] does not fail:
    it returns normally, whatever the index, where on a longer pattern an
    index beyond the length raises IndexError. *)
Lemma single_step_remove_does_not_fail :
  voltage_patterns single_model !! 0 = Some ["VSS"]
  ∧ remove_step ["VSS"] 5 = inr MinimumLengthViolation
  ∧ remove_voltage 0 5 single_model = (single_model, Ok tt)
  ∧ reported (snd (remove_voltage 0 5 single_model)) = None
  ∧ reported (snd (remove_voltage 0 5 init)) = Some IndexError.
Proof. vm_compute. repeat split. Qed.

(** ** Numeric field edits *)

Section Fields.

Lemma signed_error neg v e : signed neg v = Raise e → e = ValueError.
Proof. destruct v; simpl; congruence. Qed.

Lemma int_of_str_error s e : int_of_str s = Raise e → e = ValueError.
Proof.
  unfold int_of_str. destruct (sign (unblank s)). apply signed_error.
Qed.

Lemma int_of_str16_error s e : int_of_str16 s = Raise e → e = ValueError.
Proof.
  unfold int_of_str16. destruct (sign (unblank s)). apply signed_error.
Qed.

Lemma int_or_error s d e : int_or s d = Raise e → e = ValueError.
Proof.
  unfold int_or. case_bool_decide; [done | apply int_of_str_error].
Qed.

Lemma parse_voltage_error s e : parse_voltage s = Raise e → e = ValueError.
Proof.
  unfold parse_voltage.
  destruct (_ || _); [apply int_of_str16_error | apply int_of_str_error].
Qed.

(** A property of the object kept by every round of a loop is kept by the
    loop, whether or not it ends by an exception. *)
Lemma cfor_preserves {S A} (P : S → Prop) (xs : list A)
    (body : A → cmd S unit) (s : S) :
  (∀ x s, P s → P (fst (body x s))) → P s → P (fst (cfor xs body s)).
Proof.
  intros Hbody. revert s.
  induction xs as [|x xs IH]; intros s Hs; simpl; [done|].
  unfold cbind. specialize (Hbody x s Hs).
  destruct (body x s) as [s' [[]|e]]; simpl in *; [by apply IH | done].
Qed.

Lemma except_state {S} (c : cmd S unit) s :
  fst (except_ValueError c s) = fst (c s).
Proof.
  unfold except_ValueError. by destruct (c s) as [s' [[]|[]]].
Qed.

Lemma except_caught {S} (c : cmd S unit) s s' :
  c s = (s', Raise ValueError) → except_ValueError c s = (s', Ok tt).
Proof. unfold except_ValueError. by intros ->. Qed.

Lemma except_passed {S} (c : cmd S unit) s s' :
  c s = (s', Ok tt) → except_ValueError c s = (s', Ok tt).
Proof. unfold except_ValueError. by intros ->. Qed.

Lemma then_preview_state (c : cmd LUTEditor unit) self :
  fst ((_ ← c; update_preview) self) = fst (c self).
Proof.
  cmd_step. destruct (c self) as [s' [[]|e]]; [|done].
  unfold update_preview, reads. done.
Qed.

Lemma timing_field_insert self g i j v group :
  timing_groups self !! g = Some group → i ≠ j →
  timing_field
    (set_timing_groups (<[g := <[j := v]> group]> (timing_groups self)) self)
    g i
  = timing_field self g i.
Proof.
  intros Hg Hij. unfold timing_field; simpl.
  rewrite list_lookup_insert_eq by by eapply lookup_lt_Some.
  rewrite Hg. simpl. by rewrite list_lookup_insert_ne.
Qed.

Lemma timing_round_other entries g i j self :
  i ≠ j →
  timing_field (fst (timing_round entries g j self)) g i
  = timing_field self g i.
Proof.
  intros Hij. unfold timing_round. rewrite except_state.
  unfold assign_timing. cmd_step.
  destruct (int_or (entries j) 0) as [val|e]; cmd_step; [|done].
  unfold index, setitem.
  destruct (timing_groups self !! g) as [group|] eqn:Hg; cmd_step; [|done].
  case_bool_decide; cmd_step; [|done].
  by apply timing_field_insert.
Qed.

Lemma timing_round_failed entries g i self e :
  entries i ≠ "" → int_of_str (entries i) = Raise e →
  fst (timing_round entries g i self) = self.
Proof.
  intros Hne He. unfold timing_round. rewrite except_state.
  unfold int_or. cmd_step.
  rewrite bool_decide_eq_false_2 by done. by rewrite He.
Qed.

Lemma timing_round_stored entries g i self group val :
  int_or (entries i) 0 = Ok val →
  timing_groups self !! g = Some group → (i < length group)%nat →
  timing_round entries g i self
  = (set_timing_groups (<[g := <[i := val]> group]> (timing_groups self)) self,
     Ok tt).
Proof.
  intros Hv Hg Hi. unfold timing_round. apply except_passed.
  unfold assign_timing. cmd_step. rewrite Hv. cmd_step.
  unfold index, setitem. rewrite Hg.
  cmd_step. by rewrite bool_decide_eq_true_2.
Qed.

Lemma timing_round_ok entries g j self :
  five_fields g self → (j < 5)%nat →
  ∃ s', timing_round entries g j self = (s', Ok tt)
    ∧ five_fields g s'
    ∧ (∀ i, i ≠ j → timing_field s' g i = timing_field self g i)
    ∧ (∀ val, int_or (entries j) 0 = Ok val → timing_field s' g j = val).
Proof.
  intros (group & Hg & Hl) Hj.
  destruct (int_or (entries j) 0) as [val|e] eqn:Hv.
  - eexists. split; [eapply timing_round_stored; eauto; lia|].
    assert (Hlt : (g < length (timing_groups self))%nat)
      by by eapply lookup_lt_Some.
    split; [|split].
    + exists (<[j := val]> group). simpl.
      by rewrite list_lookup_insert_eq, length_insert.
    + intros i Hi. by apply timing_field_insert.
    + intros ? [= <-]. unfold timing_field; simpl.
      rewrite list_lookup_insert_eq by done. simpl.
      rewrite list_lookup_insert_eq by lia. done.
  - exists self. split.
    + unfold timing_round. apply except_caught. cmd_step. rewrite Hv.
      by rewrite (int_or_error _ _ _ Hv).
    + split; [by exists group|]. split; [done | discriminate].
Qed.

Lemma timing_rounds entries g xs self :
  five_fields g self → Forall (fun j => j < 5)%nat xs →
  ∃ s', cfor xs (timing_round entries g) self = (s', Ok tt)
    ∧ five_fields g s'
    ∧ (∀ i, i ∉ xs → timing_field s' g i = timing_field self g i)
    ∧ (∀ i val, i ∈ xs → int_or (entries i) 0 = Ok val →
         timing_field s' g i = val).
Proof.
  revert self. induction xs as [|j xs IH]; intros self Hs Hxs.
  - exists self. simpl. split; [done|]. split; [done|].
    split; [done|]. intros i val Hi. by apply elem_of_nil in Hi.
  - apply Forall_cons in Hxs as [Hj Hxs].
    destruct (timing_round_ok entries g j self Hs Hj)
      as (s1 & E1 & Hs1 & Hother & Hstored).
    destruct (IH s1 Hs1 Hxs) as (s' & E' & Hs' & Hout & Hin).
    exists s'. simpl. unfold cbind. rewrite E1.
    split; [done|]. split; [done|]. split.
    + intros i Hi. apply not_elem_of_cons in Hi as [Hij Hi].
      rewrite Hout by done. by apply Hother.
    + intros i val Hi Hv.
      destruct (decide (i ∈ xs)) as [Hixs|Hixs]; [by apply Hin|].
      apply elem_of_cons in Hi as [->|Hi]; [|done].
      rewrite Hout by done. by apply Hstored.
Qed.

Lemma on_timing_change_kept entries g i self e :
  entries i ≠ "" → int_of_str (entries i) = Raise e →
  timing_field (fst (on_timing_change entries g self)) g i
  = timing_field self g i.
Proof.
  intros Hne He. unfold on_timing_change. rewrite then_preview_state.
  apply (cfor_preserves
           (fun s => timing_field s g i = timing_field self g i));
    [|done].
  intros j s Hs. destruct (decide (i = j)) as [<-|Hij].
  - by erewrite timing_round_failed.
  - by rewrite timing_round_other.
Qed.

Lemma on_timing_change_stored entries g i self val :
  five_fields g self → (i < 5)%nat → int_or (entries i) 0 = Ok val →
  timing_field (fst (on_timing_change entries g self)) g i = val.
Proof.
  intros Hs Hi Hv. unfold on_timing_change. rewrite then_preview_state.
  destruct (timing_rounds entries g (range 5) self Hs)
    as (s' & E & _ & _ & Hin).
  { unfold range. apply Forall_forall. intros j Hj.
    apply elem_of_seq in Hj. lia. }
  rewrite E. simpl. apply Hin; [|done].
  unfold range. apply elem_of_seq. lia.
Qed.

Lemma on_framerate_change_state text self :
  frame_rate (fst (on_framerate_change text self)) =
  match int_or text 0x44 with
  | Ok val => val
  | Raise _ => frame_rate self
  end.
Proof.
  unfold on_framerate_change. rewrite then_preview_state, except_state.
  cmd_step. by destruct (int_or text 68).
Qed.

Lemma voltage_round_state entries name self :
  fst (voltage_round entries name self) =
  match parse_voltage (entries name) with
  | Ok val => set_voltage name (Z.land val 0xFF) self
  | Raise _ => self
  end.
Proof.
  unfold voltage_round. rewrite except_state. cmd_step.
  by destruct (parse_voltage (entries name)).
Qed.

Lemma voltage_round_ok entries name self :
  voltage_round entries name self
  = (fst (voltage_round entries name self), Ok tt).
Proof.
  rewrite voltage_round_state. unfold voltage_round.
  destruct (parse_voltage (entries name)) as [val|e] eqn:E.
  - apply except_passed. by cmd_step.
  - apply except_caught. cmd_step.
    by rewrite (parse_voltage_error _ _ E).
Qed.

Lemma voltage_rounds entries xs self :
  ∃ s', cfor xs (voltage_round entries) self = (s', Ok tt)
    ∧ (∀ name, name ∉ xs → voltages s' !! name = voltages self !! name)
    ∧ (∀ name val, name ∈ xs → parse_voltage (entries name) = Ok val →
         voltages s' !! name = Some (Z.land val 0xFF))
    ∧ (∀ name e, parse_voltage (entries name) = Raise e →
         voltages s' !! name = voltages self !! name).
Proof.
  revert self. induction xs as [|x xs IH]; intros self.
  - exists self. simpl. split; [done|]. split; [done|].
    split; [|done]. intros name val Hn. by apply elem_of_nil in Hn.
  - destruct (IH (fst (voltage_round entries x self)))
      as (s' & E' & Hout & Hin & Hfail).
    exists s'. simpl. unfold cbind. rewrite voltage_round_ok.
    split; [done|]. rewrite voltage_round_state in Hout, Hfail.
    split; [|split].
    + intros name Hn. apply not_elem_of_cons in Hn as [Hne Hn].
      rewrite Hout by done.
      destruct (parse_voltage (entries x)); [|done].
      simpl. by rewrite lookup_insert_ne.
    + intros name val Hn Hv.
      destruct (decide (name ∈ xs)) as [Hixs|Hixs]; [by eapply Hin|].
      apply elem_of_cons in Hn as [->|Hn]; [|done].
      rewrite Hout by done. rewrite Hv. simpl. by rewrite lookup_insert_eq.
    + intros name e Hv. rewrite (Hfail name e Hv).
      destruct (parse_voltage (entries x)) as [val|] eqn:Ex; [|done].
      simpl. rewrite lookup_insert_ne; [done|]. intros ->. congruence.
Qed.

End Fields.

(** C8, as the code has it.  A numeric field edit whose text is not empty
    and fails to parse leaves the previous value in place: a timing field, the
    frame rate, a voltage level.  A voltage-level text that fails to parse,
    the empty text included, leaves the level in place.  An empty text in a
    timing field stores 0 and an empty frame-rate text stores 0x44, the
    defaults of [int(text or 0)] and [int(text or 0x44)]. *)
Theorem failed_parse_keeps_value (tentries : nat → string)
    (ventries : string → string) (text : string) (g i : nat) (name : string)
    (self : LUTEditor) (e : exn) :
  (tentries i ≠ "" → int_of_str (tentries i) = Raise e →
     timing_field (fst (on_timing_change tentries g self)) g i
     = timing_field self g i)
  ∧ (text ≠ "" → int_of_str text = Raise e →
     frame_rate (fst (on_framerate_change text self)) = frame_rate self)
  ∧ (parse_voltage (ventries name) = Raise e →
     voltages (fst (on_voltage_setting_change ventries self)) !! name
     = voltages self !! name)
  ∧ (tentries i = "" → five_fields g self → (i < 5)%nat →
     timing_field (fst (on_timing_change tentries g self)) g i = 0)
  ∧ frame_rate (fst (on_framerate_change "" self)) = 0x44.
Proof.
  split; [|split; [|split; [|split]]].
  - intros Hne He. by eapply on_timing_change_kept.
  - intros Hne He. rewrite on_framerate_change_state. unfold int_or.
    rewrite bool_decide_eq_false_2 by done. by rewrite He.
  - intros He. unfold on_voltage_setting_change.
    rewrite then_preview_state.
    destruct (voltage_rounds ventries VOLTAGE_NAMES self)
      as (s' & E & _ & _ & Hfail).
    rewrite E. simpl. by eapply Hfail.
  - intros He Hs Hi. apply on_timing_change_stored; [done | done |].
    unfold int_or. by rewrite bool_decide_eq_true_2.
  - by rewrite on_framerate_change_state.
Qed.

Lemma failed_parse_keeps_value_witness :
  (sample_timing_entries 0 ≠ ""
   ∧ int_of_str (sample_timing_entries 0) = Raise ValueError
   ∧ timing_field (fst (on_timing_change sample_timing_entries 0 init)) 0 0
     = timing_field init 0 0)
  ∧ ("fast" ≠ "" ∧ int_of_str "fast" = Raise ValueError
     ∧ frame_rate (fst (on_framerate_change "fast" init)) = frame_rate init)
  ∧ (parse_voltage (empty_entries "VGH") = Raise ValueError
     ∧ voltages (fst (on_voltage_setting_change empty_entries init)) !! "VGH"
       = voltages init !! "VGH")
  ∧ (sample_timing_entries 1 = "" ∧ five_fields 0 init ∧ (1 < 5)%nat
     ∧ timing_field (fst (on_timing_change sample_timing_entries 0 init)) 0 1
       = 0).
Proof.
  destruct (failed_parse_keeps_value sample_timing_entries empty_entries
              "fast" 0 0 "VGH" init ValueError) as (H1 & H2 & H3 & _ & _).
  destruct (failed_parse_keeps_value sample_timing_entries empty_entries
              "fast" 0 1 "VGH" init ValueError) as (_ & _ & _ & H4 & _).
  assert (N1 : sample_timing_entries 0 ≠ "") by discriminate.
  assert (P1 : int_of_str (sample_timing_entries 0) = Raise ValueError)
    by reflexivity.
  assert (N2 : "fast" ≠ "") by discriminate.
  assert (P2 : int_of_str "fast" = Raise ValueError) by reflexivity.
  assert (P3 : parse_voltage (empty_entries "VGH") = Raise ValueError)
    by reflexivity.
  assert (E4 : sample_timing_entries 1 = "") by reflexivity.
  assert (F4 : five_fields 0 init)
    by (exists [4; 4; 0; 0; 0]; split; reflexivity).
  assert (L4 : (1 < 5)%nat) by lia.
  exact (conj (conj N1 (conj P1 (H1 N1 P1)))
         (conj (conj N2 (conj P2 (H2 N2 P2)))
          (conj (conj P3 (H3 P3))
                (conj E4 (conj F4 (conj L4 (H4 E4 F4 L4))))))).
Defined.

(** C8 as stated fails on empty text: in a timing field the empty text does
    not parse, yet the field is overwritten with 0, and the empty
    frame-rate text overwrites the frame rate with 0x44. *)
Lemma empty_text_applies_default :
  int_of_str "" = Raise ValueError
  ∧ timing_field init 0 0 = 4
  ∧ timing_field (fst (on_timing_change empty_entries 0 init)) 0 0 = 0
  ∧ frame_rate init = 0x88
  ∧ frame_rate (fst (on_framerate_change "" init)) = 0x44.
Proof. vm_compute. repeat split. Qed.

(** C10. A voltage-level edit keeps every stored level within [0,255]: a
    text that parses to an integer is stored reduced modulo 256 (masked
    with 0xFF), whatever its value, and is not rejected. *)
Theorem voltage_levels_masked (entries : string → string)
    (self : LUTEditor) :
  (∀ name v, voltages self !! name = Some v → byte v) →
  (∀ name v,
     voltages (fst (on_voltage_setting_change entries self)) !! name = Some v →
     byte v)
  ∧ (∀ name val,
       name ∈ VOLTAGE_NAMES → parse_voltage (entries name) = Ok val →
       voltages (fst (on_voltage_setting_change entries self)) !! name
       = Some (Z.land val 0xFF)
       ∧ Z.land val 0xFF = val mod 256).
Proof.
  intros Hb. unfold on_voltage_setting_change.
  rewrite then_preview_state.
  destruct (voltage_rounds entries VOLTAGE_NAMES self)
    as (s' & E & Hout & Hin & Hfail).
  rewrite E. simpl.
  assert (Hmask : ∀ val, Z.land val 255 = val mod 256).
  { intros val. change 255 with (Z.ones 8). by rewrite Z.land_ones by lia. }
  split.
  - intros name v Hv.
    destruct (decide (name ∈ VOLTAGE_NAMES)) as [Hn|Hn].
    + destruct (parse_voltage (entries name)) as [val|e] eqn:Ep.
      * rewrite (Hin name val Hn Ep) in Hv. injection Hv as <-.
        rewrite Hmask. unfold byte. apply Z.mod_pos_bound. lia.
      * rewrite (Hfail name e Ep) in Hv. by eapply Hb.
    + rewrite (Hout name Hn) in Hv. by eapply Hb.
  - intros name val Hn Ep. split; [by apply Hin | apply Hmask].
Qed.

Lemma voltage_levels_masked_witness :
  (∀ name v, voltages init !! name = Some v → byte v)
  ∧ (∀ name v,
       voltages (fst (on_voltage_setting_change sample_voltage_entries init))
         !! name = Some v → byte v)
  ∧ parse_voltage (sample_voltage_entries "VGH") = Ok 0x1FF
  ∧ parse_voltage (sample_voltage_entries "VSL") = Ok (-1)
  ∧ voltages (fst (on_voltage_setting_change sample_voltage_entries init))
      !! "VGH" = Some 0xFF
  ∧ voltages (fst (on_voltage_setting_change sample_voltage_entries init))
      !! "VSL" = Some 0xFF.
Proof.
  assert (Hb : ∀ name v, voltages init !! name = Some v → byte v).
  { intros name v Hv. by destruct (valid_voltages init init_valid name v Hv). }
  destruct (voltage_levels_masked sample_voltage_entries init Hb) as [H1 H2].
  assert (P1 : parse_voltage (sample_voltage_entries "VGH") = Ok 0x1FF)
    by reflexivity.
  assert (P2 : parse_voltage (sample_voltage_entries "VSL") = Ok (-1))
    by reflexivity.
  assert (N1 : "VGH" ∈ VOLTAGE_NAMES) by member.
  assert (N2 : "VSL" ∈ VOLTAGE_NAMES) by member.
  exact (conj Hb (conj H1 (conj P1 (conj P2
           (conj (proj1 (H2 "VGH" _ N1 P1)) (proj1 (H2 "VSL" _ N2 P2))))))).
Defined.

(** ** Binary64 arithmetic of the timing estimate *)

Section Floats.

Lemma digits2_pos_size p : digits2_pos p = Pos.size p.
Proof. induction p; simpl; congruence. Qed.

Lemma Zdigits2_bound m D : 0 <= m < 2 ^ D → 0 <= D → 0 <= Zdigits2 m <= D.
Proof.
  intros [H0 H] HD. destruct m as [|p|p]; cbn [Zdigits2]; [lia| |lia].
  rewrite digits2_pos_size.
  pose proof (Pos.size_le p) as Hle.
  assert (2 ^ Z.pos (Pos.size p) <= 2 * Z.pos p) as Hz.
  { change (2 * Z.pos p) with (Z.pos p~0). rewrite <- Pos2Z.inj_pow. exact Hle. }
  split; [lia|].
  destruct (Z_lt_le_dec D (Z.pos (Pos.size p))) as [Hlt|]; [|lia].
  exfalso.
  assert (2 ^ (D + 1) <= 2 ^ Z.pos (Pos.size p)) by (apply Z.pow_le_mono_r; lia).
  rewrite Z.pow_add_r in * by lia. lia.
Qed.

Lemma Zdigits2_gt m : 0 <= m → m < 2 ^ Zdigits2 m.
Proof.
  intros H. destruct m as [|p|p]; cbn [Zdigits2]; [lia| |lia].
  rewrite digits2_pos_size. pose proof (Pos.size_gt p) as Hgt.
  rewrite <- Pos2Z.inj_pow. exact Hgt.
Qed.

Lemma shr_1_m mrs : 0 <= shr_m mrs → shr_m (shr_1 mrs) = shr_m mrs / 2.
Proof.
  destruct mrs as [m r s]; cbn [shr_m]. intros Hm.
  destruct m as [|[p|p|]|p]; cbn [shr_1 shr_m]; try lia; try reflexivity.
  - apply Z.div_unique with 1; lia.
  - apply Z.div_unique with 0; lia.
Qed.

Lemma pow2_xO n : 2 ^ Z.pos n~0 = 2 ^ Z.pos n * 2 ^ Z.pos n.
Proof.
  assert (Z.pos n~0 = Z.pos n + Z.pos n) as -> by lia.
  by rewrite Z.pow_add_r by lia.
Qed.

Lemma pow2_xI n : 2 ^ Z.pos n~1 = 2 * (2 ^ Z.pos n * 2 ^ Z.pos n).
Proof.
  assert (Z.pos n~1 = 1 + (Z.pos n + Z.pos n)) as -> by lia.
  by rewrite !Z.pow_add_r by lia.
Qed.

Lemma iter_pos_shr_m n mrs :
  0 <= shr_m mrs → shr_m (SpecFloat.iter_pos shr_1 n mrs) = shr_m mrs / 2 ^ Z.pos n.
Proof.
  revert mrs. induction n as [n IH|n IH|]; intros mrs Hm; cbn [SpecFloat.iter_pos].
  - assert (H1 : 0 <= shr_m (shr_1 mrs)).
    { rewrite shr_1_m by done. apply Z.div_pos; lia. }
    assert (H2 : 0 <= shr_m (SpecFloat.iter_pos shr_1 n (shr_1 mrs))).
    { rewrite IH by done. apply Z.div_pos; lia. }
    rewrite IH, IH, shr_1_m by done.
    rewrite !Z.div_div by lia. by rewrite pow2_xI.
  - assert (H2 : 0 <= shr_m (SpecFloat.iter_pos shr_1 n mrs)).
    { rewrite IH by done. apply Z.div_pos; lia. }
    rewrite IH, IH by done.
    rewrite !Z.div_div by lia. by rewrite pow2_xO.
  - rewrite shr_1_m by done. reflexivity.
Qed.

Lemma shr_spec mrs e n :
  0 <= shr_m mrs →
  shr_m (fst (shr mrs e n)) = shr_m mrs / 2 ^ Z.max 0 n
  ∧ snd (shr mrs e n) = e + Z.max 0 n.
Proof.
  intros Hm. destruct n as [|p|p]; simpl.
  - rewrite Z.div_1_r. lia.
  - rewrite iter_pos_shr_m by done. split; [done | lia].
  - rewrite Z.div_1_r. lia.
Qed.

Lemma shr_fexp_spec m e l :
  0 <= m →
  let r := shr_fexp prec emax m e l in
  0 <= shr_m (fst r) < 2 ^ 53
  ∧ shr_m (fst r) <= m
  ∧ snd r = Z.max e (fexp prec emax (Zdigits2 m + e)).
Proof.
  intros Hm r. subst r. unfold shr_fexp.
  set (n := fexp prec emax (Zdigits2 m + e) - e).
  assert (Hrec : shr_m (shr_record_of_loc m l) = m)
    by (destruct l as [|[]]; reflexivity).
  destruct (shr_spec (shr_record_of_loc m l) e n) as [Hs He];
    [by rewrite Hrec|].
  rewrite Hs, He, Hrec.
  assert (Hn : Zdigits2 m - 53 <= Z.max 0 n).
  { subst n. unfold fexp, prec. lia. }
  pose proof (Zdigits2_gt m Hm) as Hd.
  assert (H2 : 0 < 2 ^ Z.max 0 n) by (apply Z.pow_pos_nonneg; lia).
  split; [split|split].
  - apply Z.div_pos; lia.
  - apply Z.div_lt_upper_bound; [lia|].
    rewrite <- Z.pow_add_r by lia.
    eapply Z.lt_le_trans; [exact Hd|]. apply Z.pow_le_mono_r; lia.
  - apply Z.div_le_upper_bound; [lia|]. nia.
  - subst n. lia.
Qed.

Lemma round_nearest_even_bound m l :
  0 <= m → 0 <= round_nearest_even m l <= m + 1.
Proof.
  intros Hm. destruct l as [|[]]; simpl; try lia.
  destruct (Z.even m); lia.
Qed.

(** Rounding a non-negative mantissa below 2^D: the result is zero or a
    positive finite number whose exponent is bounded. *)
Lemma binary_round_aux_good m e l D k :
  0 <= m < 2 ^ D → 0 <= D →
  Z.max (Z.max e (D + e - 53)) (-1074) + 1 <= k → k <= 971 →
  good k (binary_round_aux prec emax false m e l).
Proof.
  intros Hm HD Hk Hk'. unfold binary_round_aux.
  pose proof (shr_fexp_spec m e l (proj1 Hm)) as (Hm1 & _ & He1).
  destruct (shr_fexp prec emax m e l) as [mrs1 e1] eqn:E1.
  cbn [fst snd] in *.
  pose proof (round_nearest_even_bound (shr_m mrs1) (loc_of_shr_record mrs1)
                (proj1 Hm1)) as Hr.
  set (m1 := round_nearest_even (shr_m mrs1) (loc_of_shr_record mrs1)) in *.
  pose proof (shr_fexp_spec m1 e1 loc_Exact (proj1 Hr)) as (Hm2 & Hle2 & He2).
  destruct (shr_fexp prec emax m1 e1 loc_Exact) as [mrs2 e2] eqn:E2.
  cbn [fst snd] in *.
  pose proof (Zdigits2_bound m D Hm HD) as Hd.
  assert (Hd1 : 0 <= Zdigits2 m1 <= 54).
  { apply Zdigits2_bound; [|lia]. change (2 ^ 54) with (2 * 2 ^ 53). lia. }
  assert (He2k : e2 <= k).
  { subst e2 e1. unfold fexp, emin, prec, emax in *. lia. }
  destruct (shr_m mrs2) as [|p|p] eqn:Ep; [by left | | lia].
  rewrite (proj2 (Z.leb_le e2 (emax - prec))) by (unfold emax, prec; lia).
  right. exists p, e2. split; [done|]. split; [lia | done].
Qed.

Lemma SFmul_good kx ky x y k :
  good kx x → good ky y →
  Z.max (kx + ky + 54) (-1074) + 1 <= k → k <= 971 →
  good k (SFmul prec emax x y).
Proof.
  intros [->|(mx & ex & -> & Hmx & Hex)] [->|(my & ey & -> & Hmy & Hey)]
    Hk Hk'; try (by left).
  cbn [SFmul xorb].
  apply (binary_round_aux_good _ _ _ 107); [|lia|lia|done].
  split; [lia|]. rewrite Pos2Z.inj_mul.
  change (2 ^ 107) with (2 * (2 ^ 53 * 2 ^ 53)). nia.
Qed.

Lemma iter_xO p d : Z.pos (Pos.iter xO p d) = Z.pos p * 2 ^ Z.pos d.
Proof.
  induction d as [|d IH] using Pos.peano_ind.
  - simpl. lia.
  - rewrite Pos.iter_succ, Pos2Z.inj_xO, IH, Pos2Z.inj_succ.
    rewrite Z.pow_succ_r by lia. ring.
Qed.

(** [float(n)] for an integer below 2^53. *)
Lemma float_of_int_good z :
  0 <= z < 2 ^ 53 → ∃ f, float_of_int z = Ok f ∧ good 1 f.
Proof.
  intros Hz. unfold float_of_int.
  assert (Hg : good 1 (binary_normalize prec emax z 0 false)).
  { destruct z as [|p|p]; [by left | | lia].
    cbn [binary_normalize]. unfold binary_round, shl_align.
    set (e' := fexp prec emax (Z.pos (digits2_pos p) + 0)).
    destruct (e' - 0) as [|d|d] eqn:Ed.
    - apply (binary_round_aux_good _ _ _ 53); lia.
    - apply (binary_round_aux_good _ _ _ 53); lia.
    - assert (e' = Z.neg d) as -> by lia.
      apply (binary_round_aux_good _ _ _ (53 + Z.pos d)); [|lia|lia|lia].
      rewrite iter_xO, Z.pow_add_r by lia. nia. }
  destruct Hg as [->|(m & e & -> & Hg)]; eexists; (split; [done|]).
  - by left.
  - right. eauto.
Qed.

Lemma quotients_checked_true : quotients_checked = true.
Proof. vm_compute. reflexivity. Qed.

(** [2500 / fr] for a frame rate in 1..255. *)
Lemma truediv_frame_rate fr :
  0 < fr < 256 → ∃ q, truediv 2500 fr = Ok q ∧ good (-41) q.
Proof.
  intros Hfr. pose proof quotients_checked_true as H.
  unfold quotients_checked in H. rewrite forallb_forall in H.
  assert (Hin : In (Z.to_nat fr) (seq 1 255)) by (apply in_seq; lia).
  apply H in Hin. rewrite Z2Nat.id in Hin by lia.
  destruct (truediv 2500 fr) as [[| | |[|] m e]|]; try discriminate Hin.
  apply andb_true_iff in Hin as [Hm He].
  exists (S754_finite false m e). split; [done|]. right.
  exists m, e. split; [done|]. split; lia.
Qed.

Lemma floor_of_good k f :
  good k f → ∃ n, int_of_float f = Ok n ∧ floor_of_float f = Ok n.
Proof. intros [->|(m & e & -> & _)]; eexists; split; reflexivity. Qed.

Lemma float_1_1_good : good (-52) float_1_1.
Proof.
  right. exists 4953959590107546%positive, (-52).
  split; [done|]. split; [by vm_compute | lia].
Qed.

(** The last two steps of the estimate, on a product that is a small
    integer or a bounded float. *)
Lemma estimate_tail (x : num) :
  (∃ z, x = Int z ∧ 0 <= z < 2 ^ 53) ∨ (∃ f, x = Float f ∧ good 20 f) →
  ∃ y n, mul x (Float float_1_1) = Ok y
     ∧ int_of_num y = Ok n ∧ floor_of_num y = Ok n
     ∧ (x = Int 0 ∨ x = Float (S754_zero false) → n = 0).
Proof.
  intros [(z & -> & Hz) | (f & -> & Hf)]; cbn [mul to_float].
  - destruct (float_of_int_good z Hz) as (f & Ef & Hf). rewrite Ef.
    cbn [mbind res_bind bind].
    destruct (floor_of_good 4 (SFmul prec emax f float_1_1))
      as (n & Hi & Hfl).
    { eapply SFmul_good; [exact Hf | exact float_1_1_good | lia | lia]. }
    eexists _, n. split; [done|]. split; [done|]. split; [done|].
    intros [[= ->]|[=]]. vm_compute in Ef. injection Ef as <-.
    vm_compute in Hi. congruence.
  - cbn [mbind res_bind bind].
    destruct (floor_of_good 23 (SFmul prec emax f float_1_1))
      as (n & Hi & Hfl).
    { eapply SFmul_good; [exact Hf | exact float_1_1_good | lia | lia]. }
    eexists _, n. split; [done|]. split; [done|]. split; [done|].
    intros [[=]|[= ->]]. vm_compute in Hi. congruence.
Qed.

Lemma group_frames_bound a b c d e :
  byte a → byte b → byte c → byte d → byte e →
  0 <= (a + b + c + d) * (e + 1) <= 261120.
Proof. unfold byte. intros. nia. Qed.

(** The loop over the groups computes the sum of section 4.3. *)
Lemma total_frames_loop self :
  shaped self →
  for_each (timing_groups self) (fun group total_frames =>
      rp ← index group 4;
      Ok (total_frames + foldl Z.add 0 (take 4 group) * (rp + 1))) 0
  = Ok (total_frames_of self).
Proof.
  intros [_ Hg Hf _].
  destruct (groups_explicit _ Hg Hf)
    as (g0 & g1 & g2 & g3 & g4 & g5 & g6 & g7 & g8 & g9 & E & Hall).
  unfold total_frames_of, group_frames, timing_field. rewrite E in *.
  repeat match goal with
  | H : Forall _ (_ :: _) |- _ =>
      apply Forall_cons in H; destruct H as [(? & ? & ? & ? & ? & ->) H]
  end.
  cbn. f_equal. ring.
Qed.

Lemma total_frames_bound self :
  valid self → 0 <= total_frames_of self <= 2611200.
Proof.
  intros [[_ Hg Hf _] _ _ Hb _ _].
  destruct (groups_explicit _ Hg Hf)
    as (g0 & g1 & g2 & g3 & g4 & g5 & g6 & g7 & g8 & g9 & E & Hall).
  unfold total_frames_of, group_frames, timing_field. rewrite E in *.
  repeat match goal with
  | H : Forall _ (_ :: _) |- _ =>
      apply Forall_cons in H; destruct H as [(? & ? & ? & ? & ? & ->) H]
  end.
  repeat match goal with
  | H : Forall (Forall byte) (_ :: _) |- _ =>
      apply Forall_cons in H; destruct H as [? H]
  end.
  repeat match goal with
  | H : Forall byte (_ :: _) |- _ =>
      apply Forall_cons in H; destruct H as [? H]
  end.
  cbn.
  repeat match goal with
  | |- context [((?a + ?b + ?c + ?d) * (?e + 1))] =>
      let H := fresh "B" in
      pose proof (group_frames_bound a b c d e
                    ltac:(assumption) ltac:(assumption) ltac:(assumption)
                    ltac:(assumption) ltac:(assumption)) as H;
      generalize dependent ((a + b + c + d) * (e + 1)); intros
  end.
  lia.
Qed.

Lemma total_frames_zero self :
  shaped self → all_zero self → total_frames_of self = 0.
Proof.
  intros [_ Hg Hf _] Hz. unfold all_zero in Hz.
  destruct (groups_explicit _ Hg Hf)
    as (g0 & g1 & g2 & g3 & g4 & g5 & g6 & g7 & g8 & g9 & E & Hall).
  unfold total_frames_of, group_frames, timing_field. rewrite E in *.
  repeat match goal with
  | H : Forall _ (_ :: _) |- _ =>
      apply Forall_cons in H; destruct H as [(? & ? & ? & ? & ? & ->) H]
  end.
  repeat match goal with
  | H : Forall (Forall _) (_ :: _) |- _ =>
      apply Forall_cons in H; destruct H as [? H]
  end.
  repeat match goal with
  | H : Forall (fun v => v = 0) (_ :: _) |- _ =>
      apply Forall_cons in H; destruct H as [-> H]
  end.
  reflexivity.
Qed.

(** The estimator on a valid model: it returns, the frame count is the sum
    over the groups, and the time is the floor of the product. *)
Lemma calculate_timing_valid self :
  valid self →
  ∃ est, calculate_timing self = Ok (total_frames_of self, est)
    ∧ estimated_ms_of self = Ok est
    ∧ (total_frames_of self = 0 → est = 0).
Proof.
  intros Hv. pose proof (total_frames_bound self Hv) as HT.
  pose proof (valid_frame_rate self Hv) as Hfr. unfold byte in Hfr.
  unfold calculate_timing, estimated_ms_of, ms_per_frame_of.
  rewrite (total_frames_loop self (valid_shaped self Hv)).
  cbn [mbind res_bind bind].
  set (T := total_frames_of self) in *.
  assert (Hfinish : ∀ x,
    (∃ z, x = Int z ∧ 0 <= z < 2 ^ 53) ∨ (∃ f, x = Float f ∧ good 20 f) →
    (T = 0 → x = Int 0 ∨ x = Float (S754_zero false)) →
    ∃ est,
      (y ← mul x (Float float_1_1); r ← int_of_num y; Ok (T, r))
      = Ok (T, est)
      ∧ (y ← mul x (Float float_1_1); floor_of_num y) = Ok est
      ∧ (T = 0 → est = 0)).
  { intros x Hx H0.
    destruct (estimate_tail x Hx) as (y & n & -> & Hi & Hfl & Hz).
    exists n. cbn [mbind res_bind bind]. rewrite Hi, Hfl. auto. }
  assert (H53 : 2611200 * 50 < 2 ^ 53) by (by vm_compute).
  case_bool_decide as Hpos.
  - destruct (truediv_frame_rate (frame_rate self)) as (q & -> & Hq); [lia|].
    cbn [mbind res_bind bind]. unfold max_int.
    destruct (lt_int (Float q) 10).
    + change (mul (Int T) (Int 10)) with (Ok (Int (T * 10))).
      cbn [mbind res_bind bind]. apply Hfinish.
      * left. eexists. split; [done|]. lia.
      * intros ->. by left.
    + change (mul (Int T) (Float q))
        with (x ← float_of_int T; Ok (Float (SFmul prec emax x q))).
      destruct (float_of_int_good T) as (f & Ef & Hf); [lia|].
      rewrite Ef. cbn [mbind res_bind bind]. apply Hfinish.
      * right. eexists. split; [done|].
        eapply SFmul_good; [exact Hf | exact Hq | lia | lia].
      * intros H0. right. rewrite H0 in Ef. vm_compute in Ef.
        injection Ef as <-.
        destruct Hq as [->|(m & e & -> & _)]; reflexivity.
  - assert (frame_rate self = 0) as Hz by lia.
    cbn [mbind res_bind bind lt_int]. change (50 <? 10) with false.
    cbv iota. change (mul (Int T) (Int 50)) with (Ok (Int (T * 50))).
    cbn [mbind res_bind bind]. apply Hfinish.
    + left. eexists. split; [done|]. lia.
    + intros ->. by left.
Qed.

End Floats.

(** C4. On every valid model the estimator returns total_frames equal to the
    sum over the ten groups of (A + B + C + D) * (RP + 1) and estimated_ms
    equal to floor(total_frames * ms_per_frame * 1.1), where ms_per_frame
    is max(2500 / frame_rate, 10) for a positive frame rate and 50 for frame
    rate 0, in binary64 arithmetic; when every group is zero both results
    are 0. *)
Theorem timing_estimate (self : LUTEditor) :
  valid self →
  ∃ est, calculate_timing self = Ok (total_frames_of self, est)
    ∧ estimated_ms_of self = Ok est
    ∧ (all_zero self → total_frames_of self = 0 ∧ est = 0).
Proof.
  intros Hv. destruct (calculate_timing_valid self Hv) as (est & Hc & Hs & Hz).
  exists est. split; [done|]. split; [done|]. intros H0.
  pose proof (total_frames_zero self (valid_shaped self Hv) H0) as HT.
  split; [done | by apply Hz].
Qed.

Lemma timing_estimate_witness :
  valid init
  ∧ ∃ est, calculate_timing init = Ok (total_frames_of init, est)
    ∧ estimated_ms_of init = Ok est
    ∧ (all_zero init → total_frames_of init = 0 ∧ est = 0).
Proof. exact (conj init_valid (timing_estimate init init_valid)). Defined.

(** Scenario 4 of the specification: group [4,4,0,0,0] alone at frame rate
    0x88 gives 8 frames and 161 ms; the initial model gives 12 frames. *)
Example timing_scenario_4 :
  calculate_timing
    (set_timing_groups
       ([4; 4; 0; 0; 0] :: replicate 9 [0; 0; 0; 0; 0]) init)
  = Ok (8, 161)
  ∧ calculate_timing init = Ok (12, 242).
Proof. split; vm_compute; reflexivity. Qed.

(** ** Persistence *)

Section Persist.

(** *** [int(str(n)) = n] *)

Lemma digit_char_plain c :
  digit_char c →
  is_blank c = false ∧ is_underscore c = false
  ∧ bool_decide (c = "-"%char) = false ∧ bool_decide (c = "+"%char) = false.
Proof.
  unfold digit_char; simpl.
  intros [<-|[<-|[<-|[<-|[<-|[<-|[<-|[<-|[<-|[<-|[]]]]]]]]]]];
    repeat split; reflexivity.
Qed.

Lemma string_of_uint_digits d : all_chars digit_char (NilEmpty.string_of_uint d).
Proof.
  induction d; simpl; (split; [|done]) || done;
    unfold digit_char; simpl; tauto.
Qed.

Lemma lstrip_digits s : all_chars digit_char s → lstrip is_blank s = s.
Proof.
  destruct s as [|c s]; [done|]. intros [Hc _]. simpl.
  by destruct (digit_char_plain c Hc) as (-> & _).
Qed.

Lemma rstrip_digits s : all_chars digit_char s → rstrip is_blank s = s.
Proof.
  induction s as [|c s IH]; [done|]. intros [Hc Hs]. simpl.
  rewrite (IH Hs). destruct (digit_char_plain c Hc) as (-> & _).
  by destruct s.
Qed.

Lemma digits_of_uint_acc d acc :
  digits 10 (NilEmpty.string_of_uint d) (Z.pos acc) false
  = Some (Z.pos (Pos.of_uint_acc d acc)).
Proof.
  revert acc. induction d; intros acc; simpl; [done|..];
    rewrite <- IHd; f_equal;
    match goal with
    | |- context [Z.of_nat (nat_of_ascii ?c)] =>
        let v := eval vm_compute in (Z.of_nat (nat_of_ascii c)) in
        change (Z.of_nat (nat_of_ascii c)) with v
    end; lia.
Qed.

Lemma digits_of_uint d :
  digits 10 (NilEmpty.string_of_uint d) 0 false = Some (Z.of_uint d).
Proof.
  unfold Z.of_uint. induction d; simpl; [done|..];
    match goal with
    | |- context [digits _ _ ?a _] =>
        let v := eval vm_compute in a in change a with v
    end;
    [exact IHd | by rewrite digits_of_uint_acc ..].
Qed.

Lemma number_of_uint d :
  d ≠ Nil → number 10 (NilEmpty.string_of_uint d) = Some (Z.of_uint d).
Proof.
  intros Hd. rewrite <- digits_of_uint.
  pose proof (string_of_uint_digits d) as Hall.
  destruct d; [done|..]; reflexivity.
Qed.

Lemma int_of_str_digits neg d :
  d ≠ Nil →
  int_of_str ((if neg : bool then "-" else "") +:+ NilEmpty.string_of_uint d)
  = Ok (if neg then - Z.of_uint d else Z.of_uint d).
Proof.
  intros Hd. pose proof (string_of_uint_digits d) as Hall.
  unfold int_of_str, unblank.
  assert (Hne : ∃ c s, NilEmpty.string_of_uint d = String c s)
    by (destruct d; [done|..]; simpl; eauto).
  destruct Hne as (c & s & Es).
  destruct neg.
  - change ("-" +:+ NilEmpty.string_of_uint d)
      with (String "-" (NilEmpty.string_of_uint d)).
    assert (Hstrip : rstrip is_blank
                       (lstrip is_blank
                          (String "-" (NilEmpty.string_of_uint d)))
                     = String "-" (NilEmpty.string_of_uint d)).
    { change (lstrip is_blank (String "-" ?x)) with (String "-" x).
      cbn [rstrip]. rewrite rstrip_digits by done. by rewrite Es. }
    rewrite Hstrip. cbn [sign]. simpl bool_decide. cbv iota.
    by rewrite number_of_uint.
  - change ("" +:+ NilEmpty.string_of_uint d)
      with (NilEmpty.string_of_uint d).
    rewrite lstrip_digits, rstrip_digits by done.
    rewrite Es in *. destruct Hall as [Hc _].
    destruct (digit_char_plain c Hc) as (_ & _ & Hm & Hp).
    cbn [sign]. rewrite Hm, Hp. cbv iota. rewrite <- Es.
    by rewrite number_of_uint.
Qed.

Lemma int_of_str_of_int z : int_of_str (str_of_int z) = Ok z.
Proof.
  unfold str_of_int. destruct z as [|p|p]; [reflexivity|..];
    cbn [Z.to_int NilZero.string_of_int].
  - assert (Hn := DecimalPos.Unsigned.to_uint_nonnil p).
    replace (NilZero.string_of_uint (Pos.to_uint p))
      with ("" +:+ NilEmpty.string_of_uint (Pos.to_uint p))
      by (destruct (Pos.to_uint p); done).
    rewrite (int_of_str_digits false) by done.
    unfold Z.of_uint. by rewrite DecimalPos.Unsigned.of_to.
  - assert (Hn := DecimalPos.Unsigned.to_uint_nonnil p).
    replace (String "-" (NilZero.string_of_uint (Pos.to_uint p)))
      with ("-" +:+ NilEmpty.string_of_uint (Pos.to_uint p))
      by (destruct (Pos.to_uint p); done).
    rewrite (int_of_str_digits true) by done.
    unfold Z.of_uint. by rewrite DecimalPos.Unsigned.of_to.
Qed.

(** *** The saved document loads back to the same attributes *)

Lemma for_each_insert {V} (kvs : list (Z * V)) (acc : gmap Z V) :
  for_each ((fun kv => (str_of_int kv.1, kv.2)) <$> kvs)
    (fun kv acc => k ← int_of_str kv.1; Ok (<[k := kv.2]> acc)) acc
  = Ok (foldl (fun acc kv => <[kv.1 := kv.2]> acc) acc kvs).
Proof.
  revert acc. induction kvs as [|[k v] kvs IH]; intros acc; [done|].
  cbn [fmap list_fmap for_each foldl fst snd].
  rewrite int_of_str_of_int. cbn [mbind res_bind bind]. apply IH.
Qed.

Lemma foldl_insert_lookup {V} (kvs : list (Z * V)) (acc : gmap Z V) k :
  NoDup kvs.*1 →
  foldl (fun acc kv => <[kv.1 := kv.2]> acc) acc kvs !! k
  = match (list_to_map kvs : gmap Z V) !! k with
    | Some v => Some v
    | None => acc !! k
    end.
Proof.
  revert acc. induction kvs as [|[k' v] kvs IH]; intros acc Hnd; [done|].
  cbn [fmap list_fmap fst] in Hnd. apply NoDup_cons in Hnd as [Hk' Hnd].
  cbn [foldl list_to_map foldr fst snd]. rewrite IH by done.
  destruct (decide (k' = k)) as [->|Hne].
  - rewrite lookup_insert_eq.
    rewrite (not_elem_of_list_to_map_1 _ k) by done.
    by rewrite lookup_insert_eq.
  - rewrite !lookup_insert_ne by done. done.
Qed.

Lemma int_keys_saved (vp : gmap Z (list string)) :
  int_keys (JDict ((fun kv => (str_of_int kv.1, json_of_pattern kv.2))
                     <$> map_to_list vp))
  = Ok (json_of_pattern <$> vp).
Proof.
  unfold int_keys, items. cbn [mbind res_bind bind].
  replace ((fun kv : Z * list string =>
              (str_of_int kv.1, json_of_pattern kv.2)) <$> map_to_list vp)
    with ((fun kv : Z * json => (str_of_int kv.1, kv.2))
            <$> (prod_map id json_of_pattern <$> map_to_list vp)).
  2:{ rewrite <- list_fmap_compose. apply list_fmap_ext.
      by intros i [k p] _. }
  rewrite for_each_insert. f_equal. apply map_eq. intros k.
  rewrite foldl_insert_lookup.
  2:{ rewrite <- list_fmap_compose.
      replace (fst ∘ prod_map id json_of_pattern)
        with (fst : Z * list string → Z) by done.
      apply NoDup_fst_map_to_list. }
  rewrite list_to_map_fmap, list_to_map_to_list, lookup_empty.
  by destruct ((json_of_pattern <$> vp) !! k).
Qed.

Lemma pattern_of_json_of p : pattern_of_json (json_of_pattern p) = Some p.
Proof. unfold pattern_of_json, json_of_pattern. by apply mapM_fmap_Some. Qed.

Lemma group_of_json_of g : group_of_json (json_of_group g) = Some g.
Proof. unfold group_of_json, json_of_group. by apply mapM_fmap_Some. Qed.

Lemma groups_of_json_of tg : groups_of_json (json_of_groups tg) = Some tg.
Proof.
  unfold groups_of_json, json_of_groups.
  apply mapM_fmap_Some. exact group_of_json_of.
Qed.

Lemma voltages_of_json_of (v : gmap string Z) :
  voltages_of_json (json_of_voltages v) = Some v.
Proof.
  unfold voltages_of_json, json_of_voltages.
  rewrite (mapM_fmap_Some _ _ (map_to_list v)); [|by intros [k x]].
  simpl. by rewrite list_to_map_to_list.
Qed.

Lemma patterns_of_json_of (vp : gmap Z (list string)) :
  patterns_of_json (json_of_pattern <$> vp) = Some vp.
Proof.
  unfold patterns_of_json. rewrite bool_decide_eq_true_2.
  - f_equal. apply map_eq. intros k.
    rewrite lookup_omap, lookup_fmap.
    destruct (vp !! k); simpl; [apply pattern_of_json_of | done].
  - intros k j. rewrite lookup_fmap.
    destruct (vp !! k); simpl; [|done]. intros [= <-].
    rewrite pattern_of_json_of. by eexists.
Qed.

Lemma typed_attrs_of self : typed (attrs_of self) = Some self.
Proof.
  unfold typed, attrs_of.
  cbn [attr_voltage_patterns attr_timing_groups attr_frame_rate
       attr_voltages].
  rewrite patterns_of_json_of, groups_of_json_of, voltages_of_json_of.
  simpl. by destruct self.
Qed.

Lemma load_fields_saved self a :
  load_fields (save_to_file self) a = (attrs_of self, Ok tt).
Proof.
  unfold load_fields, save_to_file, member. cmd_step. simpl assoc.
  cbn beta iota. cbn [res_bind bind].
  rewrite int_keys_saved. by destruct self.
Qed.

Lemma for_each_checks {A} (xs : list A) (check : A → res unit) :
  Forall (fun x => check x = Ok tt) xs →
  for_each xs (fun x _ => check x) tt = Ok tt.
Proof.
  induction 1 as [|x xs Hx _ IH]; [done|].
  cbn [for_each]. rewrite Hx. exact IH.
Qed.

(** The widget reload and the preview do not raise on a valid model. *)
Lemma reload_widgets_valid self : valid self → reload_widgets self = Ok tt.
Proof.
  intros Hv. pose proof (valid_shaped self Hv) as Hs.
  unfold reload_widgets.
  rewrite (for_each_checks (range 4)
             (fun i => snd (reload_voltage_pattern (Z.of_nat i) self))).
  2:{ apply Forall_forall. intros i Hi. apply elem_of_seq in Hi.
      unfold reload_voltage_pattern, reads, getitem. cbn [snd].
      destruct (shaped_patterns self Hs (Z.of_nat i)) as [p ->]; [lia|done]. }
  cbn [mbind res_bind bind].
  rewrite (for_each_checks (range 10)
             (fun g => for_each (range 5) (fun t _ =>
                group ← index (timing_groups self) g;
                _ ← index group t; Ok tt) tt)).
  2:{ apply Forall_forall. intros g Hg. apply elem_of_seq in Hg.
      apply (for_each_checks (range 5)
               (fun t => group ← index (timing_groups self) g;
                         _ ← index group t; Ok tt)).
      apply Forall_forall. intros t Ht. apply elem_of_seq in Ht.
      unfold index.
      destruct (lookup_lt_is_Some_2 (timing_groups self) g) as [group Eg].
      { rewrite (shaped_groups self Hs). lia. }
      rewrite Eg. cbn [mbind res_bind bind].
      pose proof (shaped_fields self Hs) as Hf.
      rewrite Forall_lookup in Hf. specialize (Hf g group Eg).
      destruct (lookup_lt_is_Some_2 group t) as [v Ev]; [lia|].
      by rewrite Ev. }
  cbn [mbind res_bind bind].
  rewrite (for_each_checks (map_to_list (voltages self))
             (fun kv => if bool_decide (kv.1 ∈ VOLTAGE_NAMES)
                        then Ok tt else Raise KeyError)).
  2:{ apply Forall_forall. intros [name v] Hin.
      apply elem_of_map_to_list in Hin.
      destruct (valid_voltages self Hv name v Hin) as [Hn _].
      cbn [fst]. by rewrite bool_decide_eq_true_2. }
  cbn [mbind res_bind bind].
  unfold update_preview, reads. cbn [snd].
  rewrite (encode_layout self Hs).
  destruct (calculate_timing_valid self Hv) as (est & -> & _).
  reflexivity.
Qed.

End Persist.

(** C3. For every valid model, loading the saved document succeeds and
    leaves attributes that are a model of the editor's types, equal to the
    saved one, hence with the same 112 bytes. *)
Theorem save_load_round_trip (untyped_reload : Attrs → res unit)
    (self : LUTEditor) (a : Attrs) :
  valid self →
  ∃ a' self',
    load_from_file untyped_reload (save_to_file self) a = (a', Ok tt)
    ∧ typed a' = Some self'
    ∧ self' = self
    ∧ voltage_pattern_to_lut self' = voltage_pattern_to_lut self.
Proof.
  intros Hv. exists (attrs_of self), self.
  split; [|by rewrite typed_attrs_of].
  unfold load_from_file, mbind, cmd_bind, cbind.
  rewrite load_fields_saved. unfold reads, reload.
  by rewrite typed_attrs_of, reload_widgets_valid.
Qed.

Lemma save_load_round_trip_witness :
  valid init
  ∧ ∃ a' self',
      load_from_file (fun _ => Raise TypeError) (save_to_file init)
        (attrs_of (set_frame_rate 1 init)) = (a', Ok tt)
      ∧ typed a' = Some self'
      ∧ self' = init
      ∧ voltage_pattern_to_lut self' = voltage_pattern_to_lut init.
Proof.
  exact (conj init_valid
           (save_load_round_trip (fun _ => Raise TypeError) init
              (attrs_of (set_frame_rate 1 init)) init_valid)).
Defined.

(** C7, as the code has it.  The four fields of the document are read and
    assigned in the order voltage_patterns, timing_groups, frame_rate,
    voltages.  When voltage_patterns is missing, or is not an object with
    integer keys, the load fails and the attributes are unchanged.  When a
    later field is missing the load fails after the fields before it have
    been replaced.  When the four fields are present they replace the four
    attributes, whatever voltage names, pattern lengths and value types
    they hold. *)
Theorem load_assigns_in_order (untyped_reload : Attrs → res unit)
    (data : json) (a : Attrs) :
  (∀ e, member data "voltage_patterns" = Raise e →
     load_from_file untyped_reload data a = (a, Raise e))
  ∧ (∀ obj e, member data "voltage_patterns" = Ok obj →
       int_keys obj = Raise e →
       load_from_file untyped_reload data a = (a, Raise e))
  ∧ (∀ obj vp, member data "voltage_patterns" = Ok obj →
       int_keys obj = Ok vp →
       (∀ e, member data "timing_groups" = Raise e →
          load_from_file untyped_reload data a
          = (set_attr_voltage_patterns vp a, Raise e))
       ∧ (∀ tg, member data "timing_groups" = Ok tg →
          (∀ e, member data "frame_rate" = Raise e →
             load_from_file untyped_reload data a
             = (set_attr_timing_groups tg (set_attr_voltage_patterns vp a),
                Raise e))
          ∧ (∀ fr, member data "frame_rate" = Ok fr →
             (∀ e, member data "voltages" = Raise e →
                load_from_file untyped_reload data a
                = (set_attr_frame_rate fr
                     (set_attr_timing_groups tg
                        (set_attr_voltage_patterns vp a)),
                   Raise e))
             ∧ (∀ vs, member data "voltages" = Ok vs →
                fst (load_from_file untyped_reload data a)
                = {| attr_voltage_patterns := vp; attr_timing_groups := tg;
                     attr_frame_rate := fr; attr_voltages := vs |})))).
Proof.
  unfold load_from_file, load_fields, mbind, cmd_bind, cbind, reads, writes.
  cbn beta iota.
  split; [|split].
  - intros e ->. reflexivity.
  - intros obj e -> He. cbn [res_bind bind]. by rewrite He.
  - intros obj vp -> Hk. cbn [res_bind bind]. rewrite Hk. split.
    + intros e ->. reflexivity.
    + intros tg ->. split.
      * intros e ->. reflexivity.
      * intros fr ->. split.
        -- intros e ->. reflexivity.
        -- intros vs ->. reflexivity.
Qed.

Lemma load_assigns_in_order_witness :
  member no_voltages_document "voltage_patterns"
  = Ok (JDict [("0", JList [JStr "bogus"])])
  ∧ int_keys (JDict [("0", JList [JStr "bogus"])])
    = Ok {[ 0 := JList [JStr "bogus"] ]}
  ∧ member no_voltages_document "timing_groups" = Ok (JList [])
  ∧ member no_voltages_document "frame_rate" = Ok (JStr "fast")
  ∧ member no_voltages_document "voltages" = Raise KeyError
  ∧ load_from_file (fun _ => Ok tt) no_voltages_document (attrs_of init)
    = (set_attr_frame_rate (JStr "fast")
         (set_attr_timing_groups (JList [])
            (set_attr_voltage_patterns {[ 0 := JList [JStr "bogus"] ]}
               (attrs_of init))),
       Raise KeyError).
Proof.
  assert (H1 : member no_voltages_document "voltage_patterns"
               = Ok (JDict [("0", JList [JStr "bogus"])])) by reflexivity.
  assert (H2 : int_keys (JDict [("0", JList [JStr "bogus"])])
               = Ok {[ 0 := JList [JStr "bogus"] ]}) by reflexivity.
  assert (H3 : member no_voltages_document "timing_groups" = Ok (JList []))
    by reflexivity.
  assert (H4 : member no_voltages_document "frame_rate" = Ok (JStr "fast"))
    by reflexivity.
  assert (H5 : member no_voltages_document "voltages" = Raise KeyError)
    by reflexivity.
  destruct (load_assigns_in_order (fun _ => Ok tt) no_voltages_document
              (attrs_of init)) as (_ & _ & H).
  destruct (H _ _ H1 H2) as [_ Htg].
  destruct (Htg _ H3) as [_ Hfr].
  destruct (Hfr _ H4) as [Hvs _].
  exact (conj H1 (conj H2 (conj H3 (conj H4 (conj H5 (Hvs _ H5)))))).
Defined.

(** C7 as stated fails.  A document without timing_groups is rejected, but
    only after its voltage patterns have replaced the model's; a document
    with an unknown voltage name and an empty pattern is loaded without any
    error. *)
Lemma load_not_atomic :
  (member patterns_only_document "timing_groups" = Raise KeyError
   ∧ snd (load_from_file (fun _ => Ok tt) patterns_only_document
            (attrs_of init))
     = Raise KeyError
   ∧ attr_voltage_patterns (attrs_of init) !! 1
     = Some (JList [JStr "VSL"; JStr "VSL"; JStr "VSL"; JStr "VSS"])
   ∧ attr_voltage_patterns
       (fst (load_from_file (fun _ => Ok tt) patterns_only_document
               (attrs_of init))) !! 1
     = None)
  ∧ (snd (load_from_file (fun _ => Raise TypeError) (save_to_file odd_model)
            (attrs_of init))
     = Ok tt
     ∧ attr_voltage_patterns
         (fst (load_from_file (fun _ => Raise TypeError)
                 (save_to_file odd_model) (attrs_of init))) !! 0
       = Some (JList [JStr "bogus"])
     ∧ attr_voltage_patterns
         (fst (load_from_file (fun _ => Raise TypeError)
                 (save_to_file odd_model) (attrs_of init))) !! 1
       = Some (JList [])).
Proof. vm_compute. repeat split. Qed.

(** ** The definitions evaluated on given inputs *)

(** The table of the initial model: 0x11, 0xA8, 0x44 and 0x22 head the four
    pattern blocks. *)
Example initial_lut :
  voltage_pattern_to_lut init
  = Ok ([0x11; 0; 0; 0; 0; 0; 0; 0; 0; 0] ++ [0xA8; 0; 0; 0; 0; 0; 0; 0; 0; 0]
        ++ [0x44; 0; 0; 0; 0; 0; 0; 0; 0; 0]
        ++ [0x22; 0; 0; 0; 0; 0; 0; 0; 0; 0]
        ++ replicate 10 0
        ++ [4; 4; 0; 0; 0] ++ [2; 2; 0; 0; 0] ++ replicate 40 0
        ++ replicate 5 0x88
        ++ [0x17; 0x41; 0xA8; 0x32; 0x30] ++ [0; 0])%list.
Proof. vm_compute. reflexivity. Qed.

(** Scenario 3 of the specification: five VSS steps give two zero bytes and
    eight zero padding bytes; six steps VSL, VSH2, VSH1, VSS, VSL, bogus
    give 0xB4 and 0x80. *)
Example packed_blocks :
  packed_block ["VSS"; "VSS"; "VSS"; "VSS"; "VSS"] = replicate 10 0
  ∧ (lut ← voltage_pattern_to_lut
             (set_pattern 2 ["VSL"; "VSH2"; "VSH1"; "VSS"; "VSL"; "bogus"]
                init);
     Ok (take 10 (drop 20 lut)))
    = Ok [0xB4; 0x80; 0; 0; 0; 0; 0; 0; 0; 0].
Proof. split; vm_compute; reflexivity. Qed.

(** [int] on texts, as the handlers call it.  The separator characters 28
    to 31 are removed by [strip] but not skipped by [int]. *)
Example parsed_texts :
  int_of_str " -1_0 " = Ok (-10)
  ∧ int_of_str (String (ascii_of_nat 28) "5") = Raise ValueError
  ∧ parse_voltage (String (ascii_of_nat 28) "5") = Ok 5
  ∧ int_of_str "+7" = Ok 7
  ∧ int_of_str "1__0" = Raise ValueError
  ∧ int_of_str "0x10" = Raise ValueError
  ∧ int_of_str "" = Raise ValueError
  ∧ parse_voltage "0x_1F" = Ok 31
  ∧ parse_voltage " 0Xff " = Ok 255
  ∧ parse_voltage "0x" = Raise ValueError
  ∧ parse_voltage "1F" = Raise ValueError
  ∧ str_of_int (-120) = "-120"
  ∧ int_or "" 0x44 = Ok 68.
Proof. vm_compute. repeat split. Qed.

(** [on_voltage_change] tests the number of step widgets, not the length of
    the pattern: with the four widgets built for the initial pattern and a
    pattern since replaced by one step, position 3 passes the test and the
    assignment raises IndexError; with widgets that match, a position at or
    beyond their number does nothing. *)
Example stale_step_widgets :
  on_voltage_change {[ 0 := ["VSS"; "VSH1"; "VSS"; "VSH1"] ]} 0 3 single_model
  = (single_model, Raise IndexError)
  ∧ on_voltage_change {[ 0 := ["VSH2"] ]} 0 3 single_model
    = (single_model, Ok tt)
  ∧ fst (on_voltage_change {[ 0 := ["VSH2"] ]} 0 0 single_model)
    = set_pattern 0 ["VSH2"] init.
Proof. vm_compute. repeat split. Qed.

(** At frame rate 255 the frame time is clamped to 10 ms; at frame rate 0 it
    is 50 ms. *)
Example clamped_frame_time :
  calculate_timing (set_frame_rate 255 init) = Ok (12, 132)
  ∧ calculate_timing (set_frame_rate 0 init) = Ok (12, 660).
Proof. split; vm_compute; reflexivity. Qed.

(** ** Further properties of the editor *)

Section Loops.

Lemma for_each_app {A S} (xs ys : list A) (body : A → S → res S) (s : S) :
  for_each (xs ++ ys) body s = (s' ← for_each xs body s; for_each ys body s').
Proof.
  revert s. induction xs as [|x xs IH]; intros s; [done|].
  cbn [app for_each]. destruct (body x s) as [s1|e]; res_step; [apply IH|done].
Qed.

Lemma for_each_ext {A S} (xs : list A) (f g : A → S → res S) (s : S) :
  (∀ x s, f x s = g x s) → for_each xs f s = for_each xs g s.
Proof.
  intros H. revert s. induction xs as [|x xs IH]; intros s; [done|].
  cbn [for_each]. rewrite H. destruct (g x s); res_step; [apply IH|done].
Qed.

(** Five consecutive assignments [lut[base + i] = group[i]]. *)
Lemma fields_loop (group : list Z) (base : nat) (lut : list Z) :
  (base + 5 <= length lut)%nat →
  for_each (range 5) (fun i lut => v ← index group i; setitem lut (base + i) v)
    lut
  = if bool_decide (5 <= length group)%nat
    then Ok (take base lut ++ take 5 group ++ drop (base + 5) lut)%list
    else Raise IndexError.
Proof.
  intros Hlen.
  assert (Hsplit : ∃ x0 x1 x2 x3 x4 rest,
            lut = (take base lut ++ x0 :: x1 :: x2 :: x3 :: x4 :: rest)%list
            ∧ drop (base + 5) lut = rest) .
  { assert (5 <= length (drop base lut))%nat as H5
      by (rewrite length_drop; lia).
    destruct (drop base lut) as [|x0 [|x1 [|x2 [|x3 [|x4 rest]]]]] eqn:Hd;
      simpl in H5; try lia.
    exists x0, x1, x2, x3, x4, rest. split.
    - rewrite <- Hd. symmetry. apply take_drop.
    - rewrite <- drop_drop, Hd. done. }
  destruct Hsplit as (x0 & x1 & x2 & x3 & x4 & rest & Hl & Hr).
  rewrite Hr. set (pre := take base lut) in *.
  assert (Hpre : length pre = base) by (subst pre; rewrite length_take; lia).
  clearbody pre. subst lut. clear Hr Hlen.
  assert (Hset : ∀ i v (l : list Z), (i < length l)%nat →
            setitem (pre ++ l) (base + i) v = Ok (pre ++ <[i := v]> l)%list).
  { intros i v l Hi. unfold setitem.
    rewrite bool_decide_eq_true_2 by (rewrite length_app; lia).
    rewrite insert_app_r_alt by lia. do 3 f_equal. lia. }
  unfold range. cbn [seq for_each]. unfold index.
  destruct group as [|a [|b [|c [|d [|e group]]]]]; cbn [lookup list_lookup];
    res_step; try done;
    repeat (rewrite Hset by (simpl; lia); res_step; try done).
Qed.

Lemma groups_ok_S n tg :
  groups_ok (S n) tg ↔
  groups_ok n tg ∧ ∃ group, tg !! n = Some group ∧ (5 <= length group)%nat.
Proof.
  unfold groups_ok. split.
  - intros [Hn Hf].
    destruct (lookup_lt_is_Some_2 tg n) as [group Hg]; [lia|].
    rewrite (take_S_r _ _ _ Hg) in Hf. apply Forall_app in Hf as [Hf Hl].
    rewrite Forall_singleton in Hl. split; [split; [lia|done]|]. eauto.
  - intros [[Hn Hf] (group & Hg & Hl)]. split.
    + apply lookup_lt_Some in Hg. lia.
    + rewrite (take_S_r _ _ _ Hg). apply Forall_app. split; [done|].
      by apply Forall_singleton.
Qed.

Lemma groups_ok_length n tg :
  groups_ok n tg → length (concat (take 5 <$> take n tg)) = (5 * n)%nat.
Proof.
  revert tg. induction n as [|n IH]; intros tg [Hn Hf]; [done|].
  destruct tg as [|g tg]; [simpl in Hn; lia|].
  cbn [take fmap list_fmap concat] in *. apply Forall_cons in Hf as [Hg Hf].
  rewrite length_app, length_take, IH; [lia|]. split; [simpl in Hn; lia|done].
Qed.

Lemma inner_group (tg : list (list Z)) g lut :
  (50 + g * 5 + 5 <= length lut)%nat →
  for_each (range 5) (fun i lut =>
      group ← index tg g; v ← index group i; setitem lut (50 + g * 5 + i) v)
    lut
  = match tg !! g with
    | Some group =>
        if bool_decide (5 <= length group)%nat
        then Ok (take (50 + g * 5) lut ++ take 5 group
                 ++ drop (50 + g * 5 + 5) lut)%list
        else Raise IndexError
    | None => Raise IndexError
    end.
Proof.
  intros Hlen. destruct (tg !! g) as [group|] eqn:Hg.
  - rewrite <- (fields_loop group (50 + g * 5) lut Hlen).
    apply for_each_ext. intros i l. unfold index. by rewrite Hg.
  - unfold range. cbn [seq for_each]. unfold index. by rewrite Hg.
Qed.

(** The loop over the timing groups. *)
Lemma groups_loop (tg : list (list Z)) n lut :
  (50 + 5 * n <= length lut)%nat →
  for_each (seq 0 n) (fun group_idx lut =>
      let base := (50 + group_idx * 5)%nat in
      for_each (range 5) (fun i lut =>
        group ← index tg group_idx;
        v ← index group i;
        setitem lut (base + i) v) lut) lut
  = if bool_decide (groups_ok n tg)
    then Ok (take 50 lut ++ concat (take 5 <$> take n tg)
             ++ drop (50 + 5 * n) lut)%list
    else Raise IndexError.
Proof.
  induction n as [|n IH]; intros Hlen.
  - rewrite bool_decide_eq_true_2 by (split; [lia|by rewrite take_0]).
    cbn [seq for_each]. rewrite Nat.mul_0_r, Nat.add_0_r, take_0.
    cbn [fmap list_fmap concat app]. by rewrite take_drop.
  - rewrite seq_S, for_each_app, IH by lia. change (0 + n)%nat with n.
    case_bool_decide as Hok.
    2:{ rewrite bool_decide_eq_false_2; [done|].
        rewrite groups_ok_S. tauto. }
    res_step. cbn [for_each]. cbv zeta.
    pose proof (groups_ok_length n tg Hok) as Hc.
    set (pre := concat (take 5 <$> take n tg)) in *.
    assert (Hl50 : length (take 50 lut) = 50%nat)
      by (rewrite length_take; lia).
    rewrite inner_group.
    2:{ rewrite !length_app, Hl50, Hc, length_drop. lia. }
    destruct (tg !! n) as [group|] eqn:Hg.
    2:{ res_step. rewrite bool_decide_eq_false_2; [done|].
        rewrite groups_ok_S. intros [_ (? & ? & _)]. congruence. }
    case_bool_decide as H5.
    2:{ res_step. rewrite bool_decide_eq_false_2; [done|].
        rewrite groups_ok_S. intros [_ (? & ? & ?)]. simplify_eq. lia. }
    rewrite bool_decide_eq_true_2 by (rewrite groups_ok_S; eauto).
    res_step. f_equal.
    rewrite (take_S_r _ _ _ Hg), fmap_app, concat_app. cbn [fmap list_fmap concat].
    rewrite app_nil_r. fold pre.
    replace (50 + n * 5)%nat with (length (take 50 lut ++ pre)%list)
      by (rewrite length_app, Hl50, Hc; lia).
    rewrite !(app_assoc (take 50 lut) pre).
    rewrite take_app_length, drop_app_add, drop_drop.
    rewrite <- !app_assoc. do 3 f_equal. f_equal. lia.
Qed.

End Loops.

Section EncoderCases.

Lemma groups_ok_lookup n tg :
  groups_ok n tg ↔
  ∀ g, (g < n)%nat →
    ∃ group, tg !! g = Some group ∧ (5 <= length group)%nat.
Proof.
  induction n as [|n IH].
  - split; [intros _ g Hg; lia|]. intros _. split; [lia|]. by rewrite take_0.
  - rewrite groups_ok_S, IH. split.
    + intros [Hlt Hn] g Hg.
      destruct (decide (g = n)) as [->|]; [done|]. apply Hlt. lia.
    + intros H. split; [|apply H; lia]. intros g Hg. apply H. lia.
Qed.

(** Ten groups of at least five fields, written out. *)
Lemma groups_ok_explicit (tg : list (list Z)) :
  groups_ok 10 tg →
  ∃ g0 g1 g2 g3 g4 g5 g6 g7 g8 g9 rest,
    tg = ([g0; g1; g2; g3; g4; g5; g6; g7; g8; g9] ++ rest)%list
    ∧ Forall (fun g => ∃ a b c d e r, g = a :: b :: c :: d :: e :: r)
        [g0; g1; g2; g3; g4; g5; g6; g7; g8; g9].
Proof.
  intros [Hl Hf].
  do 10 (destruct tg as [|? tg]; [simpl in Hl; lia|]).
  do 11 eexists. split; [reflexivity|].
  cbn [take] in Hf. rewrite take_0 in Hf.
  eapply Forall_impl; [exact Hf|]. intros g Hg. cbv beta in Hg.
  do 5 (destruct g as [|? g]; [simpl in Hg; lia|]). eauto 10.
Qed.

(** The loop over the four patterns when one of them is missing. *)
Lemma vs_loop_missing (vp : gmap Z (list string)) t :
  0 <= t < 4 → vp !! t = None →
  for_each (range 4) (fun trans_idx lut =>
      pattern ← getitem vp (Z.of_nat trans_idx);
      encode_steps 10 pattern (trans_idx * 10) 0 0 lut) (replicate 112 0)
  = Raise KeyError.
Proof.
  intros Ht Hnone.
  assert (Hlen : ∀ f s ks lut, length (write_bytes f s ks lut) = length lut).
  { intros f s ks. unfold write_bytes.
    induction ks as [|k ks IH]; intros lut; simpl; [done|].
    by rewrite IH, length_insert. }
  unfold range. cbn [seq for_each]. unfold getitem.
  change (Z.of_nat 0) with 0. change (Z.of_nat 1) with 1.
  change (Z.of_nat 2) with 2. change (Z.of_nat 3) with 3.
  destruct (vp !! 0) as [p0|] eqn:E0; [|done]. res_step.
  rewrite encode_steps_block;
    [| rewrite ?Hlen, length_replicate; lia | reflexivity].
  res_step.
  destruct (vp !! 1) as [p1|] eqn:E1; [|done]. res_step.
  rewrite encode_steps_block;
    [| rewrite ?Hlen, length_replicate; lia
     | unfold write_bytes;
       generalize (packed_byte p0); intros; reflexivity].
  res_step.
  destruct (vp !! 2) as [p2|] eqn:E2; [|done]. res_step.
  rewrite encode_steps_block;
    [| rewrite ?Hlen, length_replicate; lia
     | unfold write_bytes;
       generalize (packed_byte p0) (packed_byte p1); intros; reflexivity].
  res_step.
  destruct (vp !! 3) as [p3|] eqn:E3; [|done].
  assert (t = 0 ∨ t = 1 ∨ t = 2 ∨ t = 3) as [-> | [-> | [-> | ->]]] by lia;
    congruence.
Qed.

Lemma table_length self : groups_ok 10 (timing_groups self) →
  length (table self) = 112%nat.
Proof.
  intros H. unfold table.
  rewrite !length_app, (groups_ok_length _ _ H).
  unfold packed_block. rewrite !length_fmap, !length_replicate. reflexivity.
Qed.

(** The encoder in every case: the table, or the exception of the first
    part of the model that is missing. *)
Lemma encode_cases self :
  (encodable self ∧ voltage_pattern_to_lut self = Ok (table self))
  ∨ ((∃ t, 0 <= t < 4 ∧ voltage_patterns self !! t = None)
     ∧ voltage_pattern_to_lut self = Raise KeyError)
  ∨ ((∀ t, 0 <= t < 4 → is_Some (voltage_patterns self !! t))
     ∧ ¬ groups_ok 10 (timing_groups self)
     ∧ voltage_pattern_to_lut self = Raise IndexError)
  ∨ ((∀ t, 0 <= t < 4 → is_Some (voltage_patterns self !! t))
     ∧ groups_ok 10 (timing_groups self)
     ∧ (∃ name, name ∈ VOLTAGE_NAMES ∧ voltages self !! name = None)
     ∧ voltage_pattern_to_lut self = Raise KeyError).
Proof.
  destruct self as [vp tg fr vs].
  unfold voltage_pattern_to_lut, table, pattern_of, voltage_of.
  cbn [voltage_patterns timing_groups frame_rate voltages].
  destruct (decide (Exists (fun t => vp !! t = None) [0; 1; 2; 3]))
    as [Hex|Hall].
  { apply Exists_exists in Hex as (t & Ht & Hnone). right; left. assert (0 <= t < 4) as Ht'.
    { repeat (apply elem_of_cons in Ht as [->|Ht]; [lia|]).
      by apply elem_of_nil in Ht. }
    split; [eauto|]. by rewrite (vs_loop_missing vp t). }
  assert (Hp : ∀ t, 0 <= t < 4 → is_Some (vp !! t)).
  { intros t Ht. destruct (vp !! t) eqn:E; [by eexists|].
    exfalso. apply Hall, Exists_exists. exists t. split; [|done].
    assert (t = 0 ∨ t = 1 ∨ t = 2 ∨ t = 3) as [-> | [-> | [-> | ->]]] by lia;
      member. }
  destruct (Hp 0) as [p0 E0]; [lia|]. destruct (Hp 1) as [p1 E1]; [lia|].
  destruct (Hp 2) as [p2 E2]; [lia|]. destruct (Hp 3) as [p3 E3]; [lia|].
  rewrite (vs_blocks vp p0 p1 p2 p3) by done. res_step.
  unfold range at 1. rewrite groups_loop.
  2:{ rewrite !length_app, length_replicate. unfold packed_block.
      rewrite !length_fmap. simpl. lia. }
  case_bool_decide as Hg.
  2:{ right; right; left. done. }
  res_step.
  destruct (groups_ok_explicit tg Hg)
    as (g0 & g1 & g2 & g3 & g4 & g5 & g6 & g7 & g8 & g9 & rest & -> & Hall').
  repeat match goal with
  | H : Forall _ (_ :: _) |- _ =>
      apply Forall_cons in H;
      destruct H as [(? & ? & ? & ? & ? & ? & ->) H]
  end.
  rewrite E0, E1, E2, E3. cbn [from_option]. unfold id, packed_block.
  generalize (packed_byte p0) (packed_byte p1) (packed_byte p2)
    (packed_byte p3). intros f0 f1 f2 f3.
  unfold getitem, VOLTAGE_NAMES. cbn [fmap list_fmap].
  destruct (vs !! "VGH") as [vgh|] eqn:Evgh;
    [|right; right; right; split; [exact Hp|]; split; [exact Hg|];
      split; [exists "VGH"; split; [member | done] | reflexivity]].
  destruct (vs !! "VSH1") as [vsh1|] eqn:Evsh1;
    [|right; right; right; split; [exact Hp|]; split; [exact Hg|];
      split; [exists "VSH1"; split; [member | done] | reflexivity]].
  destruct (vs !! "VSH2") as [vsh2|] eqn:Evsh2;
    [|right; right; right; split; [exact Hp|]; split; [exact Hg|];
      split; [exists "VSH2"; split; [member | done] | reflexivity]].
  destruct (vs !! "VSL") as [vsl|] eqn:Evsl;
    [|right; right; right; split; [exact Hp|]; split; [exact Hg|];
      split; [exists "VSL"; split; [member | done] | reflexivity]].
  destruct (vs !! "VCOM") as [vcom|] eqn:Evcom;
    [|right; right; right; split; [exact Hp|]; split; [exact Hg|];
      split; [exists "VCOM"; split; [member | done] | reflexivity]].
  left. split; [|reflexivity]. split.
  - exact Hp.
  - by apply groups_ok_lookup.
  - cbn [voltages]. intros name Hn. unfold VOLTAGE_NAMES in Hn.
    repeat (apply elem_of_cons in Hn as [-> | Hn]; [by eexists|]).
    by apply elem_of_nil in Hn.
Qed.

End EncoderCases.

Section EncoderFacts.

Lemma vs_loop_eq (vp : gmap Z (list string)) :
  for_each (range 4) (fun trans_idx lut =>
      pattern ← getitem vp (Z.of_nat trans_idx);
      encode_steps 10 pattern (trans_idx * 10) 0 0 lut) (replicate 112 0)
  = pattern_blocks vp.
Proof.
  unfold pattern_blocks.
  destruct (vp !! 0) as [p0|] eqn:E0;
    [|by apply (vs_loop_missing vp 0)].
  destruct (vp !! 1) as [p1|] eqn:E1;
    [|by apply (vs_loop_missing vp 1)].
  destruct (vp !! 2) as [p2|] eqn:E2;
    [|by apply (vs_loop_missing vp 2)].
  destruct (vp !! 3) as [p3|] eqn:E3;
    [|by apply (vs_loop_missing vp 3)].
  by apply vs_blocks.
Qed.

(** The encoder reads the patterns only through their packed blocks. *)
Lemma encode_same_blocks self self' :
  pattern_blocks (voltage_patterns self)
  = pattern_blocks (voltage_patterns self') →
  timing_groups self = timing_groups self' →
  frame_rate self = frame_rate self' →
  voltages self = voltages self' →
  voltage_pattern_to_lut self = voltage_pattern_to_lut self'.
Proof.
  intros Hb Hg Hf Hv. unfold voltage_pattern_to_lut.
  by rewrite !vs_loop_eq, Hb, Hg, Hf, Hv.
Qed.

Lemma pattern_blocks_insert (vp : gmap Z (list string)) t p p' :
  packed_block p = packed_block p' →
  pattern_blocks (<[t := p]> vp) = pattern_blocks (<[t := p']> vp).
Proof.
  intros Hp. unfold pattern_blocks.
  destruct (decide (t = 0)) as [->|H0];
    [rewrite !lookup_insert_eq, !lookup_insert_ne, Hp by done; done|].
  destruct (decide (t = 1)) as [->|H1];
    [rewrite !lookup_insert_eq, !lookup_insert_ne, Hp by done; done|].
  destruct (decide (t = 2)) as [->|H2];
    [rewrite !lookup_insert_eq, !lookup_insert_ne, Hp by done; done|].
  destruct (decide (t = 3)) as [->|H3];
    [rewrite !lookup_insert_eq, !lookup_insert_ne, Hp by done; done|].
  by rewrite !lookup_insert_ne by done.
Qed.

Lemma packed_block_ext p p' :
  (∀ i, (i < 40)%nat → code_at p i = code_at p' i) →
  packed_block p = packed_block p'.
Proof.
  intros H. unfold packed_block. apply list_fmap_ext.
  intros i k Hk. apply lookup_seq in Hk as [-> Hk]. unfold packed_byte.
  rewrite !H by lia. reflexivity.
Qed.

Lemma packed_block_app_VSS p : packed_block (p ++ ["VSS"]) = packed_block p.
Proof.
  apply packed_block_ext. intros i _. unfold code_at.
  destruct (decide (i < length p)%nat) as [Hlt|Hge].
  - by rewrite lookup_app_l.
  - rewrite lookup_app_r, (lookup_ge_None_2 p) by lia.
    by destruct (i - length p)%nat as [|[|]].
Qed.

Lemma packed_block_take_40 p : packed_block (take 40 p) = packed_block p.
Proof.
  apply packed_block_ext. intros i Hi. unfold code_at.
  by rewrite lookup_take_lt.
Qed.

End EncoderFacts.

(** X1. The encoder returns exactly on the models that have the patterns
    0..3, five fields in each of the groups 0..9 and the five voltage
    levels: it then returns the 112 entries of [table], whatever else the
    model holds.  On any other model it raises KeyError or IndexError. *)
Theorem encoder_outcome (self : LUTEditor) :
  (encodable self →
     voltage_pattern_to_lut self = Ok (table self)
     ∧ length (table self) = 112%nat)
  ∧ (¬ encodable self →
     voltage_pattern_to_lut self = Raise KeyError
     ∨ voltage_pattern_to_lut self = Raise IndexError).
Proof.
  destruct (encode_cases self)
    as [[He Hr] | [[(t & Ht & Hn) Hr] | [(Hp & Hg & Hr) | (Hp & Hg & Hv & Hr)]]].
  - split; [|done]. intros _. split; [done|]. apply table_length.
    apply groups_ok_lookup, He.
  - split; [|auto]. intros [Hp _ _]. destruct (Hp t Ht) as [p Ep]. congruence.
  - split; [|auto]. intros [_ Hg' _]. exfalso. by apply Hg, groups_ok_lookup.
  - split; [|auto]. intros [_ _ Hv']. destruct Hv as (name & Hin & Hnone).
    destruct (Hv' name Hin) as [v Ev]. congruence.
Qed.

Lemma encoder_outcome_witness :
  (encodable init
   ∧ voltage_pattern_to_lut init = Ok (table init)
   ∧ length (table init) = 112%nat)
  ∧ (¬ encodable no_groups_model
     ∧ (voltage_pattern_to_lut no_groups_model = Raise KeyError
        ∨ voltage_pattern_to_lut no_groups_model = Raise IndexError)).
Proof.
  assert (H1 : encodable init).
  { destruct (valid_shaped init init_valid) as [Hp Hg Hf Hv].
    split; [exact Hp| |exact Hv]. intros g Hlt.
    destruct (lookup_lt_is_Some_2 (timing_groups init) g) as [group E];
      [by rewrite Hg|].
    exists group. split; [done|]. rewrite Forall_lookup in Hf.
    by rewrite (Hf g group E). }
  assert (H2 : ¬ encodable no_groups_model).
  { intros [_ Hg _]. destruct (Hg 0%nat) as (group & E & _); [lia|].
    discriminate E. }
  exact (conj (conj H1 (proj1 (encoder_outcome init) H1))
              (conj H2 (proj2 (encoder_outcome no_groups_model) H2))).
Defined.

(** X2. Appending a step with the add button never changes what the
    encoder returns: the new step is VSS, whose code 0 is what an unfilled
    slot holds. *)
Theorem add_voltage_keeps_lut (self : LUTEditor) (t : Z) :
  voltage_pattern_to_lut (fst (add_voltage t self))
  = voltage_pattern_to_lut self.
Proof.
  rewrite add_voltage_state.
  destruct (voltage_patterns self !! t) as [p|] eqn:E; [|done].
  case_bool_decide; [|done].
  apply encode_same_blocks; try done. cbn [set_pattern voltage_patterns].
  rewrite <- (insert_id (voltage_patterns self) t p E) at 2.
  apply pattern_blocks_insert, packed_block_app_VSS.
Qed.

(** X3. The encoder reads at most the first 40 steps of a pattern: a
    longer pattern gives the same result as its first 40 steps. *)
Theorem encoder_reads_40_steps (self : LUTEditor) (t : Z) (p : list string) :
  voltage_pattern_to_lut (set_pattern t p self)
  = voltage_pattern_to_lut (set_pattern t (take 40 p) self).
Proof.
  apply encode_same_blocks; try done. cbn [set_pattern voltage_patterns].
  symmetry. apply pattern_blocks_insert, packed_block_take_40.
Qed.

Section EditFacts.

Lemma set_pattern_same t p self :
  voltage_patterns self !! t = Some p → set_pattern t p self = self.
Proof.
  intros E. destruct self as [vp tg fr vs]. unfold set_pattern; simpl in *.
  by rewrite insert_id.
Qed.

Lemma set_pattern_twice t p p' self :
  set_pattern t p' (set_pattern t p self) = set_pattern t p' self.
Proof. unfold set_pattern; simpl. by rewrite insert_insert_eq. Qed.

Lemma position_nonneg n i :
  0 <= i < Z.of_nat n → position n i = Ok (Z.to_nat i).
Proof. intros H. unfold position. by rewrite bool_decide_eq_true_2. Qed.

Lemma position_negative n i :
  - Z.of_nat n <= i < 0 → position n i = Ok (Z.to_nat (Z.of_nat n + i)).
Proof.
  intros H. unfold position.
  rewrite bool_decide_eq_false_2 by lia. by rewrite bool_decide_eq_true_2.
Qed.

Lemma position_below n i : i < - Z.of_nat n → position n i = Raise IndexError.
Proof.
  intros H. unfold position. by rewrite !bool_decide_eq_false_2 by lia.
Qed.

Lemma delete_last {A} (p : list A) x : delete (length p) (p ++ [x])%list = p.
Proof. induction p as [|y p IH]; [done|]. simpl. by rewrite IH. Qed.

End EditFacts.

(** X4. Removing the step that the add button has just appended gives the
    model back: after [add_voltage] on a pattern of 1 to 39 steps,
    [remove_voltage] at the last position, or at Python's index -1,
    restores the model. *)
Theorem add_then_remove_last (self : LUTEditor) (t : Z) (p : list string) :
  voltage_patterns self !! t = Some p → (1 <= length p < 40)%nat →
  fst (remove_voltage t (Z.of_nat (length p)) (fst (add_voltage t self)))
  = self
  ∧ fst (remove_voltage t (-1) (fst (add_voltage t self))) = self.
Proof.
  intros E Hl. rewrite add_voltage_state, E.
  rewrite bool_decide_eq_true_2 by lia.
  rewrite !remove_voltage_state. cbn [set_pattern voltage_patterns].
  rewrite lookup_insert_eq.
  rewrite bool_decide_eq_true_2 by (rewrite length_app; simpl; lia).
  unfold pop.
  rewrite position_nonneg by (rewrite length_app; simpl; lia).
  rewrite position_negative by (rewrite length_app; simpl; lia).
  res_step. rewrite Nat2Z.id.
  replace (Z.to_nat (Z.of_nat (length (p ++ ["VSS"])%list) + -1)) with (length p)
    by (rewrite length_app; simpl; lia).
  rewrite delete_last.
  change (mkLUTEditor (<[t := p ++ ["VSS"]]> (voltage_patterns self))
            (timing_groups self) (frame_rate self) (voltages self))%list
    with (set_pattern t (p ++ ["VSS"])%list self).
  by rewrite set_pattern_twice, set_pattern_same.
Qed.

Lemma add_then_remove_last_witness :
  voltage_patterns init !! 1 = Some ["VSL"; "VSL"; "VSL"; "VSS"]
  ∧ (1 <= length ["VSL"; "VSL"; "VSL"; "VSS"] < 40)%nat
  ∧ fst (remove_voltage 1 (Z.of_nat (length ["VSL"; "VSL"; "VSL"; "VSS"]))
           (fst (add_voltage 1 init))) = init
  ∧ fst (remove_voltage 1 (-1) (fst (add_voltage 1 init))) = init.
Proof.
  assert (E : voltage_patterns init !! 1 = Some ["VSL"; "VSL"; "VSL"; "VSS"])
    by reflexivity.
  assert (Hl : (1 <= length ["VSL"; "VSL"; "VSL"; "VSS"] < 40)%nat)
    by (simpl; lia).
  exact (conj E (conj Hl (add_then_remove_last init 1 _ E Hl))).
Defined.

(** X5. [remove_voltage] on a pattern of more than one step, for every
    integer index: an index within the pattern removes that step, a
    negative index down to minus the length removes the step counted from
    the end, and an index below that raises IndexError and leaves the model
    unchanged. *)
Theorem remove_voltage_by_index (self : LUTEditor) (t i : Z)
    (p : list string) :
  voltage_patterns self !! t = Some p → (1 < length p)%nat →
  (0 <= i < Z.of_nat (length p) →
     fst (remove_voltage t i self) = set_pattern t (delete (Z.to_nat i) p) self
     ∧ remove_step p (Z.to_nat i) = inl (delete (Z.to_nat i) p))
  ∧ (- Z.of_nat (length p) <= i < 0 →
     fst (remove_voltage t i self)
     = set_pattern t (delete (Z.to_nat (Z.of_nat (length p) + i)) p) self)
  ∧ (i < - Z.of_nat (length p) →
     remove_voltage t i self = (self, Raise IndexError)).
Proof.
  intros E Hl. rewrite remove_voltage_state, E.
  rewrite bool_decide_eq_true_2 by done. unfold pop.
  split; [|split].
  - intros Hi. rewrite position_nonneg by done. res_step. split; [done|].
    unfold remove_step. by rewrite !bool_decide_eq_false_2 by lia.
  - intros Hi. by rewrite position_negative by done.
  - intros Hi. unfold remove_voltage, getitem. cmd_step. rewrite E.
    rewrite bool_decide_eq_true_2 by done. cmd_step.
    unfold pop. by rewrite position_below by done.
Qed.

Lemma remove_voltage_by_index_witness :
  voltage_patterns init !! 0 = Some ["VSS"; "VSH1"; "VSS"; "VSH1"]
  ∧ (1 < length ["VSS"; "VSH1"; "VSS"; "VSH1"])%nat
  ∧ fst (remove_voltage 0 1 init) = set_pattern 0 ["VSS"; "VSS"; "VSH1"] init
  ∧ fst (remove_voltage 0 (-4) init)
    = set_pattern 0 ["VSH1"; "VSS"; "VSH1"] init
  ∧ remove_voltage 0 (-5) init = (init, Raise IndexError).
Proof.
  assert (E : voltage_patterns init !! 0 = Some ["VSS"; "VSH1"; "VSS"; "VSH1"])
    by reflexivity.
  assert (Hl : (1 < length ["VSS"; "VSH1"; "VSS"; "VSH1"])%nat)
    by (simpl; lia).
  destruct (remove_voltage_by_index init 0 1 _ E Hl) as (H1 & _ & _).
  destruct (remove_voltage_by_index init 0 (-4) _ E Hl) as (_ & H2 & _).
  destruct (remove_voltage_by_index init 0 (-5) _ E Hl) as (_ & _ & H3).
  exact (conj E (conj Hl
           (conj (proj1 (H1 ltac:(simpl; lia)))
              (conj (H2 ltac:(simpl; lia)) (H3 ltac:(simpl; lia)))))).
Defined.

(** X6. [on_voltage_change] when the step widgets match the pattern (one
    combobox per step): a position within the pattern replaces that step by
    the text of its combobox, whatever the text; a position at or beyond
    the number of widgets does nothing and raises nothing.  When the
    pattern is shorter than the widgets, a position the widgets have and
    the pattern has not raises IndexError and leaves the model unchanged. *)
Theorem on_voltage_change_by_index (self : LUTEditor)
    (widgets : gmap Z (list string)) (ws : list string) (t : Z) (i : nat)
    (p : list string) :
  widgets !! t = Some ws → voltage_patterns self !! t = Some p →
  ((i < length ws)%nat → (i < length p)%nat →
     fst (on_voltage_change widgets t (Z.of_nat i) self)
     = set_pattern t (<[i := default "" (ws !! i)]> p) self)
  ∧ ((length ws <= i)%nat →
     on_voltage_change widgets t (Z.of_nat i) self = (self, Ok tt))
  ∧ ((i < length ws)%nat → (length p <= i)%nat →
     on_voltage_change widgets t (Z.of_nat i) self = (self, Raise IndexError)).
Proof.
  intros Ew Ep. split; [|split].
  - intros Hw Hp. rewrite on_voltage_change_state, Ew, Ep.
    rewrite bool_decide_eq_true_2 by lia.
    unfold getitem_z, setitem_z, index.
    rewrite !position_nonneg by lia. res_step. rewrite Nat2Z.id.
    destruct (lookup_lt_is_Some_2 ws i Hw) as [c Ec]. by rewrite Ec.
  - intros Hw. unfold on_voltage_change, getitem. cmd_step. rewrite Ew.
    cmd_step. by rewrite bool_decide_eq_false_2 by lia.
  - intros Hw Hp. unfold on_voltage_change, getitem. cmd_step. rewrite Ew.
    cmd_step. rewrite bool_decide_eq_true_2 by lia. cmd_step.
    unfold getitem_z, index. rewrite position_nonneg by lia. res_step.
    rewrite Nat2Z.id. destruct (lookup_lt_is_Some_2 ws i Hw) as [c Ec].
    rewrite Ec. cmd_step. rewrite Ep. cmd_step.
    unfold setitem_z, position. by rewrite !bool_decide_eq_false_2 by lia.
Qed.

Lemma on_voltage_change_by_index_witness :
  (sample_widgets !! 2 = Some ["VSL"; "VSS"; "VSH1"; "VSS"]
   ∧ voltage_patterns init !! 2 = Some ["VSH1"; "VSS"; "VSH1"; "VSS"]
   ∧ (0 < length ["VSL"; "VSS"; "VSH1"; "VSS"])%nat
   ∧ (0 < length ["VSH1"; "VSS"; "VSH1"; "VSS"])%nat
   ∧ fst (on_voltage_change sample_widgets 2 (Z.of_nat 0) init)
     = set_pattern 2 ["VSL"; "VSS"; "VSH1"; "VSS"] init
   ∧ (length ["VSL"; "VSS"; "VSH1"; "VSS"] <= 4)%nat
   ∧ on_voltage_change sample_widgets 2 (Z.of_nat 4) init = (init, Ok tt))
  ∧ (sample_widgets !! 2 = Some ["VSL"; "VSS"; "VSH1"; "VSS"]
     ∧ voltage_patterns (set_pattern 2 ["VSS"] init) !! 2 = Some ["VSS"]
     ∧ (3 < length ["VSL"; "VSS"; "VSH1"; "VSS"])%nat
     ∧ (length ["VSS"] <= 3)%nat
     ∧ on_voltage_change sample_widgets 2 (Z.of_nat 3)
         (set_pattern 2 ["VSS"] init)
       = (set_pattern 2 ["VSS"] init, Raise IndexError)).
Proof.
  assert (Ew : sample_widgets !! 2 = Some ["VSL"; "VSS"; "VSH1"; "VSS"])
    by reflexivity.
  assert (Ep : voltage_patterns init !! 2
               = Some ["VSH1"; "VSS"; "VSH1"; "VSS"]) by reflexivity.
  assert (Ep' : voltage_patterns (set_pattern 2 ["VSS"] init) !! 2
                = Some ["VSS"]) by reflexivity.
  assert (L0 : (0 < length ["VSL"; "VSS"; "VSH1"; "VSS"])%nat)
    by (simpl; lia).
  assert (L0' : (0 < length ["VSH1"; "VSS"; "VSH1"; "VSS"])%nat)
    by (simpl; lia).
  assert (L4 : (length ["VSL"; "VSS"; "VSH1"; "VSS"] <= 4)%nat)
    by (simpl; lia).
  assert (L3 : (3 < length ["VSL"; "VSS"; "VSH1"; "VSS"])%nat)
    by (simpl; lia).
  assert (L3' : (length ["VSS"] <= 3)%nat) by (simpl; lia).
  destruct (on_voltage_change_by_index init sample_widgets _ 2 0 _ Ew Ep)
    as (H1 & _ & _).
  destruct (on_voltage_change_by_index init sample_widgets _ 2 4 _ Ew Ep)
    as (_ & H2 & _).
  destruct (on_voltage_change_by_index (set_pattern 2 ["VSS"] init)
              sample_widgets _ 2 3 _ Ew Ep') as (_ & _ & H3).
  exact (conj
           (conj Ew (conj Ep (conj L0 (conj L0'
              (conj (H1 L0 L0') (conj L4 (H2 L4)))))))
           (conj Ew (conj Ep' (conj L3 (conj L3' (H3 L3 L3')))))).
Defined.

Section MoreFloats.

(** [2500 / fr] for every positive frame rate. *)
Lemma truediv_2500_good fr :
  0 < fr → ∃ q, truediv 2500 fr = Ok q ∧ good 1 q.
Proof.
  intros Hfr. unfold truediv. rewrite bool_decide_eq_false_2 by lia.
  destruct fr as [|p|p]; try lia. cbn [exact SFdiv xorb].
  unfold SFdiv_core_binary.
  change (Zdigits2 2500) with 12.
  set (e' := Z.min (fexp prec emax (12 + 0 - (Zdigits2 (Z.pos p) + 0)))
               (0 - 0)).
  set (s := 0 - 0 - e').
  assert (He' : e' <= 0) by (subst e'; lia).
  assert (Hs : s = - e') by (subst s; lia).
  set (m' := match s with
             | 0 => 2500
             | Z.pos _ => Z.shiftl 2500 s
             | Z.neg _ => 0
             end).
  assert (Hm' : 0 <= m' < 2 ^ (12 + s)).
  { subst m'. destruct s as [|sp|sp] eqn:Es; [by vm_compute | | lia].
    rewrite Z.shiftl_mul_pow2, Z.pow_add_r by lia.
    change (2 ^ 12) with 4096.
    assert (0 < 2 ^ Z.pos sp) by (apply Z.pow_pos_nonneg; lia). nia. }
  pose proof (Z_div_mod m' (Z.pos p) ltac:(lia)) as Hdiv.
  destruct (Z.div_eucl m' (Z.pos p)) as [q r].
  destruct Hdiv as [Hq Hr].
  assert (Hgood : good 1 (binary_round_aux prec emax false q e'
                            (new_location (Z.pos p) r))).
  { apply (binary_round_aux_good _ _ _ (12 + s)); [|lia|lia|lia].
    split; [nia|]. assert (q <= m') by nia. lia. }
  destruct Hgood as [->|(m & e & -> & Hg)]; eexists; (split; [done|]).
  - by left.
  - right. eauto.
Qed.

Lemma round_nearest_even_ge m l : m <= round_nearest_even m l.
Proof. destruct l as [|[]]; simpl; try lia. destruct (Z.even m); lia. Qed.

Lemma fexp_ge_emin x : emin prec emax <= fexp prec emax x.
Proof. unfold fexp. lia. Qed.

(** The result of rounding a non-negative mantissa, when the exponent
    stays in range: the mantissa is shifted to the exponent of the format,
    rounded up by at most one, and shifted once more if that carried. *)
Lemma binary_round_aux_value m e l :
  0 <= m →
  Z.max e (fexp prec emax (Zdigits2 m + e)) + 1 <= emax - prec →
  ∃ m1 n2,
    m / 2 ^ (Z.max e (fexp prec emax (Zdigits2 m + e)) - e) <= m1
    ∧ m1 <= m / 2 ^ (Z.max e (fexp prec emax (Zdigits2 m + e)) - e) + 1
    ∧ 0 <= n2 <= 1
    ∧ binary_round_aux prec emax false m e l
      = match m1 / 2 ^ n2 with
        | Z0 => S754_zero false
        | Zpos p =>
            S754_finite false p
              (Z.max e (fexp prec emax (Zdigits2 m + e)) + n2)
        | Zneg _ => S754_nan
        end.
Proof.
  intros Hm Hov. unfold binary_round_aux.
  pose proof (shr_fexp_spec m e l Hm) as (Hm1 & _ & He1).
  assert (Hrec : shr_m (shr_record_of_loc m l) = m)
    by (destruct l as [|[]]; reflexivity).
  pose proof (shr_spec (shr_record_of_loc m l) e
                (fexp prec emax (Zdigits2 m + e) - e)) as [Hs _];
    [by rewrite Hrec|].
  rewrite Hrec in Hs. fold (shr_fexp prec emax m e l) in Hs.
  destruct (shr_fexp prec emax m e l) as [mrs1 e1] eqn:E1.
  cbn [fst snd] in *.
  set (m1 := round_nearest_even (shr_m mrs1) (loc_of_shr_record mrs1)).
  pose proof (round_nearest_even_ge (shr_m mrs1) (loc_of_shr_record mrs1))
    as Hge.
  pose proof (round_nearest_even_bound (shr_m mrs1) (loc_of_shr_record mrs1)
                (proj1 Hm1)) as Hle.
  fold m1 in Hge, Hle.
  assert (Hrec1 : shr_m (shr_record_of_loc m1 loc_Exact) = m1) by reflexivity.
  pose proof (shr_spec (shr_record_of_loc m1 loc_Exact) e1
                (fexp prec emax (Zdigits2 m1 + e1) - e1)) as [Hs2 He2];
    [rewrite Hrec1; lia|].
  rewrite Hrec1 in Hs2. fold (shr_fexp prec emax m1 e1 loc_Exact) in Hs2, He2.
  destruct (shr_fexp prec emax m1 e1 loc_Exact) as [mrs2 e2] eqn:E2.
  cbn [fst snd] in *.
  assert (Hd1 : 0 <= Zdigits2 m1 <= 54).
  { apply Zdigits2_bound; [|lia]. change (2 ^ 54) with (2 * 2 ^ 53). lia. }
  pose proof (fexp_ge_emin (Zdigits2 m + e)) as Hemin.
  set (n2 := Z.max 0 (fexp prec emax (Zdigits2 m1 + e1) - e1)) in *.
  assert (Hn2 : 0 <= n2 <= 1).
  { subst n2. rewrite He1. unfold fexp, emin, prec, emax in *. lia. }
  exists m1, n2.
  replace (Z.max e (fexp prec emax (Zdigits2 m + e)) - e)
    with (Z.max 0 (fexp prec emax (Zdigits2 m + e) - e)) by lia.
  rewrite <- Hs. split; [lia|]. split; [lia|]. split; [done|].
  rewrite Hs2, He2, <- He1.
  destruct (m1 / 2 ^ n2) as [|p|p]; [done| |done].
  by rewrite (proj2 (Z.leb_le _ _)) by lia.
Qed.

(** The integer part of a rounded product that lies between [K] and
    [K + 1], far enough from [K + 1]. *)
Lemma rounded_floor m e l K :
  0 <= m → 0 <= K →
  Z.max e (fexp prec emax (Zdigits2 m + e)) <= -2 →
  e <= 0 →
  K * 2 ^ (- e) <= m →
  m / 2 ^ (Z.max e (fexp prec emax (Zdigits2 m + e)) - e) + 1
    < (K + 1) * 2 ^ (- Z.max e (fexp prec emax (Zdigits2 m + e))) →
  int_of_float (binary_round_aux prec emax false m e l) = Ok K.
Proof.
  intros Hm HK He1 He Hlo Hhi.
  destruct (binary_round_aux_value m e l Hm) as (m1 & n2 & H1 & H2 & Hn & ->);
    [change (emax - prec) with 971; lia|].
  set (e1 := Z.max e (fexp prec emax (Zdigits2 m + e))) in *.
  set (ms := m / 2 ^ (e1 - e)) in *.
  assert (Hpow : 2 ^ (- e) = 2 ^ (- e1) * 2 ^ (e1 - e)).
  { rewrite <- Z.pow_add_r by lia. f_equal. lia. }
  assert (HR : 0 < 2 ^ (e1 - e)) by (apply Z.pow_pos_nonneg; lia).
  assert (HQ : 0 < 2 ^ (- e1)) by (apply Z.pow_pos_nonneg; lia).
  assert (Hms : K * 2 ^ (- e1) <= ms).
  { subst ms. apply Z.div_le_lower_bound; [lia|]. rewrite Hpow in Hlo. lia. }
  assert (Hpow2 : 2 ^ (- e1) = 2 ^ n2 * 2 ^ (- (e1 + n2))).
  { rewrite <- Z.pow_add_r by lia. f_equal. lia. }
  assert (HN : 0 < 2 ^ n2) by (apply Z.pow_pos_nonneg; lia).
  assert (HS : 0 < 2 ^ (- (e1 + n2))) by (apply Z.pow_pos_nonneg; lia).
  assert (Hlow : K * 2 ^ (- (e1 + n2)) <= m1 / 2 ^ n2).
  { apply Z.div_le_lower_bound; [lia|]. rewrite Hpow2 in Hms. lia. }
  assert (Hup : m1 / 2 ^ n2 < (K + 1) * 2 ^ (- (e1 + n2))).
  { apply Z.div_lt_upper_bound; [lia|]. rewrite Hpow2 in Hhi. lia. }
  destruct (m1 / 2 ^ n2) as [|p|p] eqn:Ep.
  - cbn [int_of_float]. f_equal. nia.
  - cbn [int_of_float].
    rewrite (proj2 (Z.leb_gt _ _)) by lia. f_equal.
    symmetry. apply Z.div_unique with (Z.pos p - K * 2 ^ (- (e1 + n2))); lia.
  - nia.
Qed.

Lemma Zdigits2_ge m : 0 < m → 2 ^ (Zdigits2 m - 1) <= m.
Proof.
  intros H. destruct m as [|p|p]; try lia. cbn [Zdigits2].
  rewrite digits2_pos_size. pose proof (Pos.size_le p) as Hle.
  assert (2 ^ Z.pos (Pos.size p) <= 2 * Z.pos p) as Hz.
  { change (2 * Z.pos p) with (Z.pos p~0). rewrite <- Pos2Z.inj_pow. exact Hle. }
  replace (Z.pos (Pos.size p)) with (Z.pos (Pos.size p) - 1 + 1) in Hz by lia.
  rewrite Z.pow_add_r in Hz by lia. lia.
Qed.

Lemma Zdigits2_eq m D : 2 ^ (D - 1) <= m < 2 ^ D → 0 < D → Zdigits2 m = D.
Proof.
  intros [Hlo Hhi] HD.
  assert (0 < m) by (pose proof (Z.pow_pos_nonneg 2 (D - 1)); lia).
  pose proof (Zdigits2_bound m D ltac:(lia) ltac:(lia)) as [_ Hle].
  pose proof (Zdigits2_gt m ltac:(lia)) as Hgt.
  destruct (Z_lt_le_dec (Zdigits2 m) D) as [Hlt|]; [|lia].
  exfalso.
  assert (2 ^ Zdigits2 m <= 2 ^ (D - 1)) by (apply Z.pow_le_mono_r; lia).
  lia.
Qed.

(** Rounding a mantissa of exactly 53 bits changes nothing. *)
Lemma binary_round_aux_id mz ez :
  Zdigits2 (Z.pos mz) = 53 → -1074 <= ez <= 971 →
  binary_round_aux prec emax false (Z.pos mz) ez loc_Exact
  = S754_finite false mz ez.
Proof.
  intros Hd He. unfold binary_round_aux, shr_fexp. rewrite Hd.
  assert (fexp prec emax (53 + ez) - ez = 0) as ->
    by (unfold fexp, emin, prec, emax; lia).
  cbn [shr shr_record_of_loc shr_m loc_of_shr_record round_nearest_even].
  rewrite Hd.
  assert (fexp prec emax (53 + ez) - ez = 0) as ->
    by (unfold fexp, emin, prec, emax; lia).
  cbn [shr shr_record_of_loc shr_m].
  by rewrite (proj2 (Z.leb_le _ _)) by (unfold emax, prec; lia).
Qed.

(** [float(N)] for a positive integer below 2^53 is exact, with a mantissa
    of 53 bits. *)
Lemma float_of_int_exact N :
  0 < N < 2 ^ 53 →
  ∃ mf ef, float_of_int N = Ok (S754_finite false mf ef)
    ∧ 2 ^ 52 <= Z.pos mf < 2 ^ 53 ∧ -52 <= ef <= 0
    ∧ Z.pos mf = N * 2 ^ (- ef).
Proof.
  intros HN. destruct N as [|p|p]; try lia.
  unfold float_of_int. cbn [binary_normalize]. unfold binary_round, shl_align.
  pose proof (Zdigits2_bound (Z.pos p) 53 ltac:(lia) ltac:(lia)) as HD.
  pose proof (Zdigits2_ge (Z.pos p) ltac:(lia)) as Hlo.
  pose proof (Zdigits2_gt (Z.pos p) ltac:(lia)) as Hhi.
  cbn [Zdigits2] in HD, Hlo, Hhi.
  set (D := Z.pos (digits2_pos p)) in *.
  assert (Hf : fexp prec emax (D + 0) = D - 53)
    by (unfold fexp, emin, prec, emax; lia).
  rewrite Hf.
  destruct (D - 53 - 0) as [|d|d] eqn:Ed; [| lia |].
  - assert (D = 53) as HD53 by lia. rewrite HD53 in *.
    exists p, 0. rewrite binary_round_aux_id; [|by apply Zdigits2_eq|lia].
    split; [done|]. split; [lia|]. split; [lia|]. simpl. lia.
  - assert (Hd : D - 53 = Z.neg d) by lia.
    assert (Hmz : Z.pos (Pos.iter xO p d) = Z.pos p * 2 ^ (53 - D)).
    { rewrite iter_xO. do 2 f_equal. lia. }
    assert (Hpow : 2 ^ 53 = 2 ^ D * 2 ^ (53 - D)).
    { rewrite <- Z.pow_add_r by lia. f_equal. lia. }
    assert (Hpow' : 2 ^ 52 = 2 ^ (D - 1) * 2 ^ (53 - D)).
    { rewrite <- Z.pow_add_r by lia. f_equal. lia. }
    assert (0 < 2 ^ (53 - D)) by (apply Z.pow_pos_nonneg; lia).
    assert (Hrange : 2 ^ 52 <= Z.pos (Pos.iter xO p d) < 2 ^ 53).
    { rewrite Hmz, Hpow, Hpow'. nia. }
    exists (Pos.iter xO p d), (D - 53).
    rewrite binary_round_aux_id; [|by apply Zdigits2_eq|lia].
    split; [done|]. split; [done|]. split; [lia|].
    rewrite Hmz. do 2 f_equal. lia.
Qed.

(** Ten times [k], times the float 1.1, has integer part [11 * k]. *)
Lemma times_1_1 k :
  0 <= k < 2 ^ 40 →
  ∃ y, mul (Int (10 * k)) (Float float_1_1) = Ok y
    ∧ int_of_num y = Ok (11 * k) ∧ floor_of_num y = Ok (11 * k).
Proof.
  intros Hk. destruct (decide (k = 0)) as [->|Hk0].
  { eexists. split; [reflexivity|]. split; reflexivity. }
  destruct (float_of_int_exact (10 * k)) as (mf & ef & Ef & Hmf & Hef & Hval).
  { change (2 ^ 53) with (8192 * 2 ^ 40). lia. }
  cbn [mul to_float]. rewrite Ef. res_step.
  eexists. split; [reflexivity|].
  assert (Hfl : ∀ f n, int_of_float f = Ok n → 0 <= n →
            (∀ m e, f ≠ S754_finite true m e) → floor_of_float f = Ok n).
  { intros f n. destruct f as [[]|[]| |[] m e]; try done.
    intros _ _ H. by destruct (H m e). }
  set (m := Z.pos mf * 4953959590107546).
  set (e := ef + -52).
  assert (Hprod : SFmul prec emax (S754_finite false mf ef) float_1_1
                  = binary_round_aux prec emax false m e loc_Exact)
    by reflexivity.
  cbn [int_of_num floor_of_num]. rewrite Hprod.
  set (P := 2 ^ (- ef)) in *.
  assert (HP : 0 < P) by (apply Z.pow_pos_nonneg; lia).
  assert (Hef9 : ef <= -9).
  { destruct (Z_lt_le_dec (- ef) 9) as [Hlt|Hge]; [|lia]. exfalso.
    assert (P <= 2 ^ 8) by (apply Z.pow_le_mono_r; lia).
    change (2 ^ 52) with (2 ^ 44 * 2 ^ 8) in Hmf.
    assert (10 * k < 2 ^ 44) by (change (2 ^ 44) with (16 * 2 ^ 40); lia).
    nia. }
  assert (HP8 : 2 ^ 9 <= P) by (apply Z.pow_le_mono_r; lia).
  assert (Hm : 2 ^ 104 <= m < 2 ^ 106).
  { subst m. change (2 ^ 104) with (2 ^ 52 * 2 ^ 52).
    change (2 ^ 106) with (2 ^ 53 * 2 ^ 53).
    assert (2 ^ 52 <= 4953959590107546 < 2 ^ 53) by (by vm_compute). nia. }
  assert (Hdig : 105 <= Zdigits2 m <= 106).
  { split.
    - pose proof (Zdigits2_gt m ltac:(lia)) as Hgt.
      destruct (Z_lt_le_dec (Zdigits2 m) 105) as [Hlt|]; [|done].
      assert (2 ^ Zdigits2 m <= 2 ^ 104).
      { apply Z.pow_le_mono_r; lia. }
      lia.
    - apply Zdigits2_bound; lia. }
  set (e1 := Z.max e (fexp prec emax (Zdigits2 m + e))).
  assert (He1 : e1 = Zdigits2 m + e - 53)
    by (subst e1 e; unfold fexp, emin, prec, emax; lia).
  assert (Hint : int_of_float (binary_round_aux prec emax false m e loc_Exact)
                 = Ok (11 * k)).
  { apply rounded_floor; fold e1.
    - lia.
    - lia.
    - subst e. lia.
    - subst e. lia.
    - subst m e. replace (- (ef + -52)) with (52 + - ef) by lia.
      rewrite Z.pow_add_r by lia. fold P. rewrite Hval.
      change (2 ^ 52) with 4503599627370496. nia.
    - set (R := 2 ^ (e1 - e)). set (Q := 2 ^ (- e1)).
      assert (HR : 0 < R) by (apply Z.pow_pos_nonneg; lia).
      assert (HQ : 2 ^ 8 <= Q) by (apply Z.pow_le_mono_r; subst e; lia).
      assert (HQR : Q * R = 2 ^ 52 * P).
      { subst Q R P. rewrite <- !Z.pow_add_r by (subst e; lia).
        f_equal. subst e. lia. }
      assert (Hmk : m = 11 * k * (Q * R) + 4 * k * P).
      { rewrite HQR. subst m. rewrite Hval.
        change (2 ^ 52) with 4503599627370496. ring. }
      assert (HR52 : 2 ^ 52 <= R).
      { apply Z.pow_le_mono_r; subst e; lia. }
      change (2 ^ 52) with 4503599627370496 in *.
      change (2 ^ 8) with 256 in *. change (2 ^ 40) with 1099511627776 in *.
      apply Z.lt_le_trans with (11 * k * Q + Q); [|lia].
      assert (m / R < 11 * k * Q + Q - 1); [|lia].
      apply Z.div_lt_upper_bound; [lia|]. rewrite Hmk. nia. }
  split; [done|]. apply Hfl; [done|lia|].
  intros m' e' Hneg.
  destruct (binary_round_aux_value m e loc_Exact ltac:(lia))
    as (m1 & n2 & _ & _ & _ & Hres).
  { fold e1. change (emax - prec) with 971. subst e. lia. }
  rewrite Hres in Hneg. by destruct (m1 / 2 ^ n2).
Qed.

(** [2500 / fr] is below 10 for every frame rate above 250. *)
Lemma truediv_above_250 fr :
  250 < fr → ∃ q, truediv 2500 fr = Ok q ∧ float_lt_int q 10 = true.
Proof.
  intros Hfr. unfold truediv. rewrite bool_decide_eq_false_2 by lia.
  destruct fr as [|p|p]; try lia. cbn [exact SFdiv xorb].
  unfold SFdiv_core_binary.
  change (Zdigits2 2500) with 12.
  assert (Hd2 : 8 <= Zdigits2 (Z.pos p)).
  { pose proof (Zdigits2_gt (Z.pos p) ltac:(lia)) as Hgt.
    destruct (Z_lt_le_dec (Zdigits2 (Z.pos p)) 8) as [Hlt|]; [|done].
    assert (2 ^ Zdigits2 (Z.pos p) <= 2 ^ 7) by (apply Z.pow_le_mono_r; lia).
    change (2 ^ 7) with 128 in *. lia. }
  set (e' := Z.min (fexp prec emax (12 + 0 - (Zdigits2 (Z.pos p) + 0)))
               (0 - 0)).
  set (s := 0 - 0 - e').
  assert (He' : -1074 <= e' <= -49)
    by (subst e'; unfold fexp, emin, prec, emax; lia).
  assert (Hs : s = - e') by (subst s; lia).
  set (m' := match s with
             | 0 => 2500
             | Z.pos _ => Z.shiftl 2500 s
             | Z.neg _ => 0
             end).
  assert (Hm' : m' = 2500 * 2 ^ s).
  { subst m'. destruct s as [|sp|sp] eqn:Es; [lia| |lia].
    by rewrite Z.shiftl_mul_pow2 by lia. }
  assert (H2s : 0 < 2 ^ s) by (apply Z.pow_pos_nonneg; lia).
  pose proof (Z_div_mod m' (Z.pos p) ltac:(lia)) as Hdiv.
  destruct (Z.div_eucl m' (Z.pos p)) as [q r].
  destruct Hdiv as [Hq Hr].
  assert (Hq0 : 0 <= q) by nia.
  assert (Hqm : q < 2 ^ (12 + s)).
  { rewrite Z.pow_add_r by lia. change (2 ^ 12) with 4096. nia. }
  pose proof (Zdigits2_bound q (12 + s) ltac:(lia) ltac:(lia)) as Hdq.
  set (e1 := Z.max e' (fexp prec emax (Zdigits2 q + e'))).
  assert (He1 : e' <= e1 <= -41)
    by (subst e1; unfold fexp, emin, prec, emax; lia).
  destruct (binary_round_aux_value q e' (new_location (Z.pos p) r) Hq0)
    as (m1 & n2 & H1 & H2 & Hn & ->).
  { fold e1. change (emax - prec) with 971. lia. }
  fold e1 in H1, H2 |- *.
  set (R := 2 ^ (e1 - e')) in *. set (Q := 2 ^ (- e1)).
  assert (HR : 0 < R) by (apply Z.pow_pos_nonneg; lia).
  assert (HQ : 2 ^ 41 <= Q) by (apply Z.pow_le_mono_r; lia).
  assert (HQR : Q * R = 2 ^ s).
  { subst Q R. rewrite <- Z.pow_add_r by lia. f_equal. lia. }
  assert (HN : 0 < 2 ^ n2) by (apply Z.pow_pos_nonneg; lia).
  assert (Hx : 251 * (q / R) <= 2500 * Q).
  { pose proof (Z.mul_div_le q R HR) as Hle.
    assert (251 * (R * (q / R)) <= 2500 * Q * R) by nia. nia. }
  assert (Hpp : m1 / 2 ^ n2 * 2 ^ n2 < 10 * Q).
  { pose proof (Z.mul_div_le m1 (2 ^ n2) HN) as Hle.
    change (2 ^ 41) with 2199023255552 in HQ. lia. }
  assert (HQ2 : Q = 2 ^ n2 * 2 ^ (- (e1 + n2))).
  { subst Q. rewrite <- Z.pow_add_r by lia. f_equal. lia. }
  assert (Hnn : 0 <= m1 / 2 ^ n2).
  { pose proof (Z.div_pos q R Hq0 HR). apply Z.div_pos; lia. }
  destruct (m1 / 2 ^ n2) as [|pp|pp] eqn:Epp.
  - eexists. split; reflexivity.
  - eexists. split; [reflexivity|]. cbn [float_lt_int].
    rewrite (proj2 (Z.leb_gt _ _)) by lia. apply Z.ltb_lt.
    rewrite HQ2 in Hpp. nia.
  - lia.
Qed.

Lemma timing_ok_valid self :
  timing_ok self → valid (set_timing_groups (timing_groups self) init).
Proof.
  intros (Hl & Hf & Hb). destruct init_valid as [[Hp _ _ Hv] H2 H3 _ H5 H6].
  split; [split|..]; done.
Qed.

Lemma timing_ok_loop self :
  timing_ok self →
  for_each (timing_groups self) (fun group total_frames =>
      rp ← index group 4;
      Ok (total_frames + foldl Z.add 0 (take 4 group) * (rp + 1))) 0
  = Ok (total_frames_of self)
  ∧ 0 <= total_frames_of self <= 2611200.
Proof.
  intros H. pose proof (timing_ok_valid self H) as Hv. split.
  - exact (total_frames_loop _ (valid_shaped _ Hv)).
  - exact (total_frames_bound _ Hv).
Qed.

(** The estimator on ten groups of five byte fields, at any frame rate. *)
Lemma calculate_timing_any_rate self :
  timing_ok self →
  (∃ est, calculate_timing self = Ok (total_frames_of self, est))
  ∧ (frame_rate self <= 0 →
     calculate_timing self
     = Ok (total_frames_of self, 55 * total_frames_of self))
  ∧ (250 < frame_rate self →
     calculate_timing self
     = Ok (total_frames_of self, 11 * total_frames_of self)).
Proof.
  intros Hok. destruct (timing_ok_loop self Hok) as [Hloop HT].
  unfold calculate_timing. rewrite Hloop. res_step.
  set (T := total_frames_of self) in *.
  assert (H40 : 2611200 * 5 < 2 ^ 40) by (by vm_compute).
  assert (Hint : ∀ c est, 0 <= c <= 5 →
            est = 11 * (T * c) →
            (x ← mul (Int T) (Int (10 * c)); y ← mul x (Float float_1_1);
             refresh_time ← int_of_num y; Ok (T, refresh_time))
            = Ok (T, est)).
  { intros c est Hc ->.
    change (mul (Int T) (Int (10 * c))) with (Ok (Int (T * (10 * c)))).
    res_step.
    destruct (times_1_1 (T * c)) as (y & Hy & Hi & _); [nia|].
    replace (T * (10 * c)) with (10 * (T * c)) by ring.
    rewrite Hy. res_step. by rewrite Hi. }
  case_bool_decide as Hpos.
  - destruct (truediv_2500_good (frame_rate self) Hpos) as (q & Eq & Hq).
    split; [|split; [lia|]].
    + rewrite Eq. res_step. destruct (lt_int (Float q) 10).
      * eexists. by apply (Hint 1).
      * change (mul (Int T) (Float q))
          with (x ← float_of_int T; Ok (Float (SFmul prec emax x q))).
        destruct (float_of_int_good T) as (f & Ef & Hf);
          [change (2 ^ 53) with 9007199254740992; lia|].
        rewrite Ef. res_step. cbn [mul to_float]. res_step.
        destruct (floor_of_good 60
                    (SFmul prec emax (SFmul prec emax f q) float_1_1))
          as (n & Hi & _).
        { apply (SFmul_good 57 (-52) _ _ 60);
            [|exact float_1_1_good|lia|lia].
          apply (SFmul_good 1 1 _ _ 57); [exact Hf|exact Hq|lia|lia]. }
        cbn [int_of_num]. rewrite Hi. eauto.
    + intros H250.
      destruct (truediv_above_250 (frame_rate self) H250) as (q' & Eq' & Hlt).
      rewrite Eq'. res_step. cbn [lt_int]. rewrite Hlt.
      apply (Hint 1); lia.
  - res_step. cbn [lt_int]. change (50 <? 10) with false. cbv iota.
    split; [|split; [|lia]].
    + eexists. by apply (Hint 5).
    + intros _. apply (Hint 5); lia.
Qed.

End MoreFloats.

Section Callbacks.

Lemma shaped_encodable self : shaped self → encodable self.
Proof.
  intros [Hp Hg Hf Hv]. split; [exact Hp| |exact Hv]. intros g Hlt.
  destruct (lookup_lt_is_Some_2 (timing_groups self) g) as [group E];
    [by rewrite Hg|].
  exists group. split; [done|]. rewrite Forall_lookup in Hf.
  by rewrite (Hf g group E).
Qed.

Lemma set_pattern_shaped t p self :
  shaped self → shaped (set_pattern t p self).
Proof.
  intros [Hp Hg Hf Hv]. split; [|exact Hg|exact Hf|exact Hv].
  intros t' Ht'. simpl. destruct (decide (t = t')) as [->|Hne].
  - rewrite lookup_insert_eq. by eexists.
  - rewrite lookup_insert_ne by done. by apply Hp.
Qed.

Lemma set_voltage_shaped name v self :
  shaped self → shaped (set_voltage name v self).
Proof.
  intros [Hp Hg Hf Hv]. split; [exact Hp|exact Hg|exact Hf|].
  intros name' Hn. simpl. destruct (decide (name = name')) as [->|Hne].
  - rewrite lookup_insert_eq. by eexists.
  - rewrite lookup_insert_ne by done. by apply Hv.
Qed.

Lemma set_field_shaped self g group i val :
  timing_groups self !! g = Some group →
  shaped self →
  shaped (set_timing_groups
            (<[g := <[i := val]> group]> (timing_groups self)) self).
Proof.
  intros E [Hp Hg Hf Hv]. split; [exact Hp| | |exact Hv]; simpl.
  - by rewrite length_insert.
  - apply Forall_insert; [done|]. rewrite length_insert.
    rewrite Forall_lookup in Hf. by apply (Hf g).
Qed.

Lemma set_field_bytes self g group i val :
  timing_groups self !! g = Some group → byte val →
  Forall (Forall byte) (timing_groups self) →
  Forall (Forall byte)
    (<[g := <[i := val]> group]> (timing_groups self)).
Proof.
  intros E Hb Hf. apply Forall_insert; [done|].
  apply Forall_insert; [|done]. rewrite Forall_lookup in Hf. by apply (Hf g).
Qed.

Lemma timing_round_state entries g i self :
  fst (timing_round entries g i self) =
  match int_or (entries i) 0 with
  | Ok val =>
      match timing_groups self !! g with
      | Some group =>
          if bool_decide (i < length group)%nat
          then set_timing_groups
                 (<[g := <[i := val]> group]> (timing_groups self)) self
          else self
      | None => self
      end
  | Raise _ => self
  end.
Proof.
  unfold timing_round. rewrite except_state.
  unfold assign_timing. cmd_step.
  destruct (int_or (entries i) 0) as [val|e]; cmd_step; [|done].
  unfold index, setitem.
  destruct (timing_groups self !! g) as [group|] eqn:Hg; cmd_step; [|done].
  by case_bool_decide; cmd_step.
Qed.

Lemma cfor_preserves_in {S A} (P : S → Prop) (xs : list A)
    (body : A → cmd S unit) (s : S) :
  (∀ x s, x ∈ xs → P s → P (fst (body x s))) → P s →
  P (fst (cfor xs body s)).
Proof.
  revert s. induction xs as [|x xs IH]; intros s Hbody Hs; simpl; [done|].
  unfold cbind. pose proof (Hbody x s ltac:(left) Hs) as Hx.
  destruct (body x s) as [s' [[]|e]]; simpl in *; [|done].
  apply IH; [|done]. intros y s0 Hy. apply Hbody. by right.
Qed.

(** The preview of a shaped model with byte timing fields does not raise,
    whatever the frame rate. *)
Lemma update_preview_ok self :
  shaped self → Forall (Forall byte) (timing_groups self) →
  update_preview self = (self, Ok tt).
Proof.
  intros Hs Hb. unfold update_preview, reads. f_equal.
  rewrite (encode_layout self Hs). res_step.
  destruct (calculate_timing_any_rate self) as [(est & ->) _]; [|done].
  destruct Hs as [_ Hg Hf _]. by split.
Qed.

Lemma keeps_reads {S A} (f : S → res A) : keeps_state (reads f).
Proof. by intros s. Qed.

Lemma keeps_cbind {S A B} (c : cmd S A) (k : A → cmd S B) :
  keeps_state c → (∀ a, keeps_state (k a)) → keeps_state (cbind c k).
Proof.
  intros Hc Hk s. unfold cbind. specialize (Hc s).
  destruct (c s) as [s' [a|e]]; simpl in *; subst; [apply Hk | done].
Qed.

Lemma keeps_cfor {S A} (xs : list A) (body : A → cmd S unit) :
  (∀ x, keeps_state (body x)) → keeps_state (cfor xs body).
Proof.
  intros H. induction xs as [|x xs IH]; [done|].
  cbn [cfor]. apply keeps_cbind; [apply H | by intros _].
Qed.

Lemma keeps_update_preview : keeps_state update_preview.
Proof. apply keeps_reads. Qed.

Lemma keeps_reload t : keeps_state (reload_voltage_pattern t).
Proof. apply keeps_reads. Qed.

Lemma reset_state self :
  fst (reset_to_default true self)
  = set_timing_groups
      [ [10; 10; 0; 0; 0]; [8; 8; 0; 0; 0]; [0; 0; 0; 0; 0];
        [0; 0; 0; 0; 0]; [0; 0; 0; 0; 0]; [0; 0; 0; 0; 0];
        [0; 0; 0; 0; 0]; [0; 0; 0; 0; 0]; [0; 0; 0; 0; 0];
        [0; 0; 0; 0; 0] ]
      (set_voltage_patterns
         (<[3 := ["VSH1"; "VSS"]]>
         (<[2 := ["VSL"; "VSL"]]>
         (<[1 := ["VSH2"; "VSH1"]]>
         (<[0 := ["VSL"; "VSH1"]]> ∅)))) self).
Proof.
  unfold reset_to_default, mbind, cmd_bind.
  unfold cbind at 1. unfold writes at 1. cbn beta iota.
  unfold cbind at 1. unfold writes at 1. cbn beta iota.
  match goal with |- fst (?c ?s) = _ => generalize s; change (keeps_state c) end.
  apply keeps_cbind; [apply keeps_cfor; intros i; apply keeps_reload|].
  intros _. apply keeps_cbind; [|intros _; apply keeps_update_preview].
  apply keeps_cfor. intros g. apply keeps_cfor. intros t. apply keeps_reads.
Qed.

Lemma set_pattern_kept t p self :
  kept self → (1 <= length p <= 40)%nat → kept (set_pattern t p self).
Proof.
  intros (Hs & Hl & Hv) Hp. split; [by apply set_pattern_shaped|].
  split; [by apply set_pattern_lengths | exact Hv].
Qed.

Lemma on_framerate_change_model text self :
  fst (on_framerate_change text self) =
  match int_or text 0x44 with
  | Ok val => set_frame_rate val self
  | Raise _ => self
  end.
Proof.
  unfold on_framerate_change. rewrite then_preview_state, except_state.
  cmd_step. by destruct (int_or text 68).
Qed.

(** What one callback keeps, whatever its arguments and its outcome. *)
Lemma callback_kept ev self : kept self → kept (fst (callback ev self)).
Proof.
  intros Hk. pose proof Hk as (Hs & Hl & Hv).
  destruct ev as [t | t i | widgets t i | g entries | text | entries | b];
    cbn [callback].
  - rewrite add_voltage_state.
    destruct (voltage_patterns self !! t) as [p|] eqn:E; [|done].
    case_bool_decide; [|done]. apply set_pattern_kept; [done|].
    rewrite length_app. simpl. specialize (Hl t p E). lia.
  - rewrite remove_voltage_state.
    destruct (voltage_patterns self !! t) as [p|] eqn:E; [|done].
    case_bool_decide; [|done].
    destruct (pop p i) as [p'|] eqn:Ep; [|done].
    apply set_pattern_kept; [done|].
    apply pop_length in Ep. specialize (Hl t p E). lia.
  - rewrite on_voltage_change_state.
    destruct (widgets !! t) as [ws|]; [|done].
    case_bool_decide; [|done].
    destruct (getitem_z ws i) as [choice|]; [|done].
    destruct (voltage_patterns self !! t) as [p|] eqn:E; [|done].
    destruct (setitem_z p i choice) as [p'|] eqn:Ep; [|done].
    apply set_pattern_kept; [done|].
    apply setitem_z_length in Ep. specialize (Hl t p E). lia.
  - unfold on_timing_change. rewrite then_preview_state.
    apply cfor_preserves; [|done]. clear. intros i s (Hs & Hl & Hv).
    rewrite timing_round_state.
    destruct (int_or (entries i) 0) as [val|]; [|done].
    destruct (timing_groups s !! g) as [group|] eqn:E; [|done].
    case_bool_decide; [|done].
    split; [by apply set_field_shaped | by split].
  - rewrite on_framerate_change_model.
    destruct (int_or text 68); [|done].
    destruct Hs as [Hp Hg Hf Hn].
    split; [split; [exact Hp|exact Hg|exact Hf|exact Hn]|]. by split.
  - unfold on_voltage_setting_change. rewrite then_preview_state.
    apply cfor_preserves_in; [|done]. clear. intros name s Hin (Hs & Hl & Hv).
    rewrite voltage_round_state.
    destruct (parse_voltage (entries name)) as [val|]; [|done].
    split; [by apply set_voltage_shaped|]. split; [done|].
    intros name' v. cbn [set_voltage voltages].
    rewrite lookup_insert_Some. intros [[<- <-]|[_ H]]; [|by apply Hv].
    split; [done|]. unfold byte.
    change 255 with (Z.ones 8). rewrite Z.land_ones by lia.
    apply Z.mod_pos_bound. lia.
  - destruct b; [|done]. rewrite reset_state.
    destruct Hs as [Hp Hg Hf Hn]. split; [split|split].
    + intros t Ht. cbn.
      assert (t = 0 ∨ t = 1 ∨ t = 2 ∨ t = 3) as [-> | [-> | [-> | ->]]]
        by lia; by eexists.
    + reflexivity.
    + cbn. by repeat constructor.
    + exact Hn.
    + intros t p. cbn. rewrite !lookup_insert_Some, lookup_empty.
      intros H. repeat (destruct H as [[_ <-]|[_ H]]; [simpl; lia|]). done.
    + exact Hv.
Qed.

End Callbacks.

(** X7. Every sequence of callbacks, whatever their arguments and the
    texts typed in the entries, and whether or not one of them raised,
    keeps the shape the encoder needs, patterns of 1 to 40 steps, and
    voltage levels that are unsigned bytes under the five names; the
    encoder then returns its 112 entries on the model they leave. *)
Theorem callbacks_keep_model (self : LUTEditor) (evs : list event) :
  kept self →
  kept (run evs self)
  ∧ voltage_pattern_to_lut (run evs self) = Ok (layout (run evs self)).
Proof.
  intros Hk. assert (Hr : kept (run evs self)).
  { unfold run. revert self Hk.
    induction evs as [|ev evs IH]; intros self Hk; [done|].
    cbn [foldl]. by apply IH, callback_kept. }
  split; [done|]. apply encode_layout. by destruct Hr.
Qed.

Lemma callbacks_keep_model_witness :
  kept init
  ∧ kept (run [AddVoltage 0; TimingChange 0 sample_timing_entries;
               VoltageSettingChange sample_voltage_entries;
               RemoveVoltage 1 9; FramerateChange "300";
               ResetToDefault true; VoltageChange sample_widgets 2 0] init)
  ∧ voltage_pattern_to_lut
      (run [AddVoltage 0; TimingChange 0 sample_timing_entries;
            VoltageSettingChange sample_voltage_entries;
            RemoveVoltage 1 9; FramerateChange "300";
            ResetToDefault true; VoltageChange sample_widgets 2 0] init)
    = Ok (layout
            (run [AddVoltage 0; TimingChange 0 sample_timing_entries;
                  VoltageSettingChange sample_voltage_entries;
                  RemoveVoltage 1 9; FramerateChange "300";
                  ResetToDefault true; VoltageChange sample_widgets 2 0]
               init)).
Proof.
  assert (Hk : kept init).
  { split; [exact (valid_shaped init init_valid)|].
    split; [exact (valid_lengths init init_valid)|].
    exact (valid_voltages init init_valid). }
  exact (conj Hk (callbacks_keep_model init _ Hk)).
Defined.

Section Returns.

Lemma cfor_ok {S A} (xs : list A) (body : A → cmd S unit) (s : S) :
  (∀ x, x ∈ xs → body x s = (s, Ok tt)) → cfor xs body s = (s, Ok tt).
Proof.
  induction xs as [|x xs IH]; intros H; [done|].
  cbn [cfor]. unfold cbind. rewrite H by left.
  apply IH. intros y Hy. apply H. by right.
Qed.

Lemma pattern_of_lookup self t p :
  voltage_patterns self !! t = Some p → pattern_of self t = p.
Proof. intros E. unfold pattern_of. by rewrite E. Qed.

Lemma shaped_five_fields self g :
  shaped self → (g < 10)%nat → five_fields g self.
Proof.
  intros [_ Hg Hf _] Hlt.
  destruct (lookup_lt_is_Some_2 (timing_groups self) g) as [group E];
    [by rewrite Hg|].
  exists group. split; [done|]. rewrite Forall_lookup in Hf. by apply (Hf g).
Qed.

Lemma reset_returns self :
  shaped self →
  reset_to_default true self
  = (fst (reset_to_default true self), Ok tt).
Proof.
  intros Hs. rewrite reset_state.
  set (s0 := set_timing_groups _ _).
  assert (Hs0 : shaped s0).
  { destruct Hs as [Hp Hg Hf Hn]. split.
    - intros t Ht. cbn.
      assert (t = 0 ∨ t = 1 ∨ t = 2 ∨ t = 3) as [-> | [-> | [-> | ->]]]
        by lia; by eexists.
    - reflexivity.
    - cbn. by repeat constructor.
    - exact Hn. }
  assert (Hb0 : Forall (Forall byte) (timing_groups s0)).
  { cbn. unfold byte. repeat constructor; lia. }
  unfold reset_to_default, mbind, cmd_bind.
  unfold cbind at 1. unfold writes at 1. cbn beta iota.
  unfold cbind at 1. unfold writes at 1. cbn beta iota. fold s0.
  unfold cbind at 1. rewrite cfor_ok.
  2:{ intros i Hi. apply elem_of_seq in Hi.
      unfold reload_voltage_pattern, reads, getitem.
      destruct (shaped_patterns s0 Hs0 (Z.of_nat i)) as [p ->]; [lia|done]. }
  unfold cbind at 1. rewrite cfor_ok.
  2:{ intros g Hg. apply elem_of_seq in Hg. apply cfor_ok.
      intros t Ht. apply elem_of_seq in Ht. unfold reads, spin_text, index.
      destruct (shaped_five_fields s0 g Hs0) as (group & -> & Hl); [lia|].
      res_step.
      destruct (lookup_lt_is_Some_2 group t) as [v ->]; [lia|]. done. }
  by apply update_preview_ok.
Qed.

(** A callback the widgets can issue returns normally and leaves a model
    on which the next one does. *)
Lemma callback_returns ev self :
  shaped self → Forall (Forall byte) (timing_groups self) →
  in_range ev self →
  callback ev self = (fst (callback ev self), Ok tt)
  ∧ shaped (fst (callback ev self))
  ∧ Forall (Forall byte) (timing_groups (fst (callback ev self))).
Proof.
  intros Hs Hb Hin.
  destruct ev as [t | t i | widgets t i | g entries | text | entries | b];
    cbn [callback in_range] in *.
  - destruct (shaped_patterns self Hs t Hin) as [p E].
    rewrite add_voltage_state, E.
    unfold add_voltage, getitem. cmd_step. rewrite E. cmd_step.
    case_bool_decide; [|done]. cmd_step.
    unfold reload_voltage_pattern, getitem. cmd_step.
    cbn [set_pattern voltage_patterns]. rewrite lookup_insert_eq. cmd_step.
    change (mkLUTEditor (<[t := p ++ ["VSS"]]> (voltage_patterns self))
              (timing_groups self) (frame_rate self) (voltages self))%list
      with (set_pattern t (p ++ ["VSS"])%list self).
    rewrite update_preview_ok by (by apply set_pattern_shaped || done).
    split; [done|]. split; [by apply set_pattern_shaped | done].
  - destruct Hin as [Ht Hi].
    destruct (shaped_patterns self Hs t Ht) as [p E].
    rewrite (pattern_of_lookup self t p E) in Hi.
    rewrite remove_voltage_state, E.
    unfold remove_voltage, getitem. cmd_step. rewrite E. cmd_step.
    case_bool_decide; [|done]. cmd_step.
    unfold pop. rewrite position_nonneg by done. res_step. cmd_step.
    unfold reload_voltage_pattern, getitem. cmd_step.
    cbn [set_pattern voltage_patterns]. rewrite lookup_insert_eq. cmd_step.
    change (mkLUTEditor (<[t := delete (Z.to_nat i) p]> (voltage_patterns self))
              (timing_groups self) (frame_rate self) (voltages self))
      with (set_pattern t (delete (Z.to_nat i) p) self).
    rewrite update_preview_ok by (by apply set_pattern_shaped || done).
    split; [done|]. split; [by apply set_pattern_shaped | done].
  - destruct Hin as (Ht & Hi & ws & Ew & Hl).
    destruct (shaped_patterns self Hs t Ht) as [p E].
    rewrite (pattern_of_lookup self t p E) in Hl.
    rewrite on_voltage_change_state, Ew, E.
    unfold on_voltage_change, getitem. cmd_step. rewrite Ew. cmd_step.
    case_bool_decide as Hlt; [|done]. cmd_step.
    unfold getitem_z, setitem_z, index.
    rewrite !position_nonneg by lia. res_step.
    destruct (lookup_lt_is_Some_2 ws (Z.to_nat i)) as [c Ec]; [lia|].
    rewrite Ec. cmd_step. rewrite E. cmd_step.
    rewrite position_nonneg by lia. res_step. cmd_step.
    change (mkLUTEditor (<[t := <[Z.to_nat i := c]> p]> (voltage_patterns self))
              (timing_groups self) (frame_rate self) (voltages self))
      with (set_pattern t (<[Z.to_nat i := c]> p) self).
    rewrite update_preview_ok by (by apply set_pattern_shaped || done).
    split; [done|]. split; [by apply set_pattern_shaped | done].
  - destruct Hin as [Hg Hv].
    assert (HP : shaped (fst (on_timing_change entries g self))
                 ∧ Forall (Forall byte)
                     (timing_groups (fst (on_timing_change entries g self)))).
    { unfold on_timing_change. rewrite then_preview_state.
      apply (cfor_preserves_in
               (fun s => shaped s ∧ Forall (Forall byte) (timing_groups s)));
        [|done].
      intros i s Hi [Hs' Hb']. apply elem_of_seq in Hi.
      rewrite timing_round_state.
      destruct (int_or (entries i) 0) as [val|] eqn:Ev; [|done].
      destruct (timing_groups s !! g) as [group|] eqn:E; [|done].
      case_bool_decide; [|done].
      split; [by apply set_field_shaped|].
      apply set_field_bytes; [done| |done]. apply (Hv i); [lia|done]. }
    split; [|done]. revert HP. unfold on_timing_change.
    rewrite then_preview_state.
    destruct (timing_rounds entries g (range 5) self) as (s' & E' & _).
    { by apply shaped_five_fields. }
    { unfold range. apply Forall_forall. intros j Hj.
      apply elem_of_seq in Hj. lia. }
    unfold mbind, cmd_bind, cbind. rewrite E'. cbn [fst].
    intros [Hs' Hb']. by rewrite update_preview_ok.
  - assert (HP : shaped (fst (on_framerate_change text self))
                 ∧ Forall (Forall byte)
                     (timing_groups (fst (on_framerate_change text self)))).
    { rewrite on_framerate_change_model.
      destruct (int_or text 68); [|done].
      destruct Hs as [Hp Hg Hf Hn]. by split. }
    split; [|done]. revert HP. rewrite on_framerate_change_model.
    unfold on_framerate_change, mbind, cmd_bind. unfold cbind at 1.
    destruct (int_or text 68) as [val|e] eqn:Ev.
    + erewrite except_passed; [|by cmd_step].
      intros [Hs' Hb']. by rewrite update_preview_ok.
    + pose proof (int_or_error _ _ _ Ev) as ->.
      erewrite except_caught; [|by cmd_step].
      intros [Hs' Hb']. by rewrite update_preview_ok.
  - assert (HP : shaped (fst (on_voltage_setting_change entries self))
                 ∧ Forall (Forall byte)
                     (timing_groups
                        (fst (on_voltage_setting_change entries self)))).
    { unfold on_voltage_setting_change. rewrite then_preview_state.
      apply (cfor_preserves
               (fun s => shaped s ∧ Forall (Forall byte) (timing_groups s)));
        [|done].
      intros name s [Hs' Hb']. rewrite voltage_round_state.
      destruct (parse_voltage (entries name)); [|done].
      split; [by apply set_voltage_shaped | done]. }
    split; [|done]. revert HP. unfold on_voltage_setting_change.
    rewrite then_preview_state.
    destruct (voltage_rounds entries VOLTAGE_NAMES self) as (s' & E' & _).
    unfold mbind, cmd_bind, cbind. rewrite E'. cbn [fst].
    intros [Hs' Hb']. by rewrite update_preview_ok.
  - destruct b; [|done]. split; [by apply reset_returns|].
    rewrite reset_state. split.
    + destruct Hs as [Hp Hg Hf Hn]. split.
      * intros t Ht. cbn.
        assert (t = 0 ∨ t = 1 ∨ t = 2 ∨ t = 3) as [-> | [-> | [-> | ->]]]
          by lia; by eexists.
      * reflexivity.
      * cbn. by repeat constructor.
      * exact Hn.
    + cbn. unfold byte. repeat constructor; lia.
Qed.

End Returns.

(** X8. A callback that the widgets can issue (a transition among 0..3, a
    step position the widgets have, with step widgets that match the
    pattern, a timing group among 0..9 whose texts give unsigned bytes when
    they parse, any text in the frame-rate and voltage entries, a reset)
    returns normally on a shaped model with byte timing fields, whatever
    the frame rate, and leaves such a model. *)
Theorem callbacks_return (self : LUTEditor) (ev : event) :
  shaped self → Forall (Forall byte) (timing_groups self) →
  in_range ev self →
  ∃ s', callback ev self = (s', Ok tt)
    ∧ shaped s' ∧ Forall (Forall byte) (timing_groups s').
Proof.
  intros Hs Hb Hin. exists (fst (callback ev self)).
  by apply callback_returns.
Qed.

Lemma callbacks_return_witness :
  shaped init
  ∧ Forall (Forall byte) (timing_groups init)
  ∧ in_range (TimingChange 0 sample_timing_entries) init
  ∧ ∃ s', callback (TimingChange 0 sample_timing_entries) init = (s', Ok tt)
      ∧ shaped s' ∧ Forall (Forall byte) (timing_groups s').
Proof.
  pose proof (valid_shaped init init_valid) as Hs.
  pose proof (valid_timing init init_valid) as Hb.
  assert (Hin : in_range (TimingChange 0 sample_timing_entries) init).
  { split; [lia|]. intros i v _. unfold sample_timing_entries.
    case_bool_decide; [|discriminate]. intros [= <-]. unfold byte. lia. }
  exact (conj Hs (conj Hb (conj Hin
           (callbacks_return init _ Hs Hb Hin)))).
Defined.

(** X9. On ten timing groups of five byte fields the estimator returns for
    every integer frame rate, with the frame total of the ten groups.  At a
    frame rate of 0 or below the estimate is exactly 55 ms per frame; at
    every frame rate above 250 it is exactly 11 ms per frame. *)
Theorem estimate_by_frame_rate (self : LUTEditor) :
  timing_ok self →
  (∃ est, calculate_timing self = Ok (total_frames_of self, est))
  ∧ (frame_rate self <= 0 →
     calculate_timing self
     = Ok (total_frames_of self, 55 * total_frames_of self))
  ∧ (250 < frame_rate self →
     calculate_timing self
     = Ok (total_frames_of self, 11 * total_frames_of self)).
Proof. apply calculate_timing_any_rate. Qed.

Lemma estimate_by_frame_rate_witness :
  (timing_ok (set_frame_rate (-3) init)
   ∧ frame_rate (set_frame_rate (-3) init) <= 0
   ∧ calculate_timing (set_frame_rate (-3) init) = Ok (12, 55 * 12))
  ∧ (timing_ok (set_frame_rate 1000 init)
     ∧ 250 < frame_rate (set_frame_rate 1000 init)
     ∧ calculate_timing (set_frame_rate 1000 init) = Ok (12, 11 * 12)).
Proof.
  assert (Hok : ∀ fr, timing_ok (set_frame_rate fr init)).
  { intros fr. destruct init_valid as [[_ Hg Hf _] _ _ Hb _ _]. by split. }
  assert (H1 : frame_rate (set_frame_rate (-3) init) <= 0) by (simpl; lia).
  assert (H2 : 250 < frame_rate (set_frame_rate 1000 init)) by (simpl; lia).
  exact (conj
    (conj (Hok (-3)) (conj H1
       (proj1 (proj2 (estimate_by_frame_rate _ (Hok (-3)))) H1)))
    (conj (Hok 1000) (conj H2
       (proj2 (proj2 (estimate_by_frame_rate _ (Hok 1000))) H2)))).
Defined.

Section Stored.

(** The entry of the table that holds field [i] of group [g]. *)
Lemma layout_timing self g i :
  shaped self → (g < 10)%nat → (i < 5)%nat →
  layout self !! (50 + 5 * g + i)%nat = Some (timing_field self g i).
Proof.
  intros [_ Hg Hf _] Hlt Hi. unfold layout, timing_field.
  destruct (groups_explicit _ Hg Hf)
    as (g0 & g1 & g2 & g3 & g4 & g5 & g6 & g7 & g8 & g9 & E & Hall).
  rewrite E in *.
  repeat match goal with
  | H : Forall _ (_ :: _) |- _ =>
      apply Forall_cons in H; destruct H as [(? & ? & ? & ? & ? & ->) H]
  end.
  unfold packed_block.
  generalize (packed_byte (pattern_of self 0))
             (packed_byte (pattern_of self 1))
             (packed_byte (pattern_of self 2))
             (packed_byte (pattern_of self 3)); intros f0 f1 f2 f3.
  do 10 (destruct g as [|g]; [do 5 (destruct i as [|i]; [reflexivity|]); lia|]).
  lia.
Qed.

Lemma layout_frame_rate self k :
  shaped self → (k < 5)%nat →
  layout self !! (100 + k)%nat = Some (frame_rate self).
Proof.
  intros [_ Hg Hf _] Hk. unfold layout.
  destruct (groups_explicit _ Hg Hf)
    as (g0 & g1 & g2 & g3 & g4 & g5 & g6 & g7 & g8 & g9 & E & Hall).
  rewrite E in *.
  repeat match goal with
  | H : Forall _ (_ :: _) |- _ =>
      apply Forall_cons in H; destruct H as [(? & ? & ? & ? & ? & ->) H]
  end.
  unfold packed_block.
  generalize (packed_byte (pattern_of self 0))
             (packed_byte (pattern_of self 1))
             (packed_byte (pattern_of self 2))
             (packed_byte (pattern_of self 3)); intros f0 f1 f2 f3.
  do 5 (destruct k as [|k]; [reflexivity|]). lia.
Qed.

Lemma on_timing_change_shaped entries g self :
  shaped self → shaped (fst (on_timing_change entries g self)).
Proof.
  intros Hs. unfold on_timing_change. rewrite then_preview_state.
  apply cfor_preserves; [|done]. intros i s Hs'.
  rewrite timing_round_state.
  destruct (int_or (entries i) 0) as [val|]; [|done].
  destruct (timing_groups s !! g) as [group|] eqn:E; [|done].
  case_bool_decide; [|done]. by apply set_field_shaped.
Qed.

End Stored.

(** X10. A number typed in a timing field or in the frame-rate box is
    stored as it parses, with no mask and no range check (unlike a voltage
    level), and the encoder copies it into the table as it is: field [i] of
    group [g] at entry 50 + 5 g + i, the frame rate at entries 100..104. *)
Theorem timing_values_not_masked (self : LUTEditor) (entries : nat → string)
    (text : string) (g i : nat) (v : Z) :
  shaped self →
  ((g < 10)%nat → (i < 5)%nat → int_or (entries i) 0 = Ok v →
     timing_field (fst (on_timing_change entries g self)) g i = v
     ∧ ∃ lut,
         voltage_pattern_to_lut (fst (on_timing_change entries g self))
         = Ok lut
         ∧ lut !! (50 + 5 * g + i)%nat = Some v)
  ∧ (int_or text 0x44 = Ok v →
     frame_rate (fst (on_framerate_change text self)) = v
     ∧ ∃ lut,
         voltage_pattern_to_lut (fst (on_framerate_change text self)) = Ok lut
         ∧ ∀ k, (k < 5)%nat → lut !! (100 + k)%nat = Some v).
Proof.
  intros Hs. split.
  - intros Hg Hi Hv.
    pose proof (on_timing_change_shaped entries g self Hs) as Hs'.
    assert (Hf : timing_field (fst (on_timing_change entries g self)) g i = v).
    { apply on_timing_change_stored; [|done|done].
      destruct Hs as [_ Hl Hf _].
      destruct (lookup_lt_is_Some_2 (timing_groups self) g) as [group E];
        [by rewrite Hl|].
      exists group. split; [done|]. rewrite Forall_lookup in Hf.
      by apply (Hf g). }
    split; [done|]. exists (layout (fst (on_timing_change entries g self))).
    split; [by apply encode_layout|]. by rewrite layout_timing, Hf.
  - intros Hv. rewrite on_framerate_change_model, Hv. split; [done|].
    assert (Hs' : shaped (set_frame_rate v self)).
    { destruct Hs as [Hp Hg Hf Hn]. by split. }
    exists (layout (set_frame_rate v self)). split; [by apply encode_layout|].
    intros k Hk. by rewrite layout_frame_rate.
Qed.

Lemma timing_values_not_masked_witness :
  shaped init
  ∧ ((0 < 10)%nat ∧ (2 < 5)%nat ∧ int_or "300" 0 = Ok 300
     ∧ timing_field (fst (on_timing_change (fun _ => "300") 0 init)) 0 2 = 300
     ∧ ∃ lut,
         voltage_pattern_to_lut (fst (on_timing_change (fun _ => "300") 0 init))
         = Ok lut
         ∧ lut !! (50 + 5 * 0 + 2)%nat = Some 300)
  ∧ (int_or "-7" 0x44 = Ok (-7)
     ∧ frame_rate (fst (on_framerate_change "-7" init)) = -7
     ∧ ∃ lut,
         voltage_pattern_to_lut (fst (on_framerate_change "-7" init)) = Ok lut
         ∧ ∀ k, (k < 5)%nat → lut !! (100 + k)%nat = Some (-7)).
Proof.
  pose proof (valid_shaped init init_valid) as Hs.
  assert (P1 : int_or "300" 0 = Ok 300) by reflexivity.
  assert (P2 : int_or "-7" 0x44 = Ok (-7)) by reflexivity.
  assert (L1 : (0 < 10)%nat) by lia. assert (L2 : (2 < 5)%nat) by lia.
  destruct (timing_values_not_masked init (fun _ => "300") "-7" 0 2 300 Hs)
    as [H1 _].
  destruct (timing_values_not_masked init (fun _ => "300") "-7" 0 2 (-7) Hs)
    as [_ H2].
  exact (conj Hs (conj (conj L1 (conj L2 (conj P1 (H1 L1 L2 P1))))
                       (conj P2 (H2 P2)))).
Defined.

Section Texts.

Lemma str_of_int_nonempty z : str_of_int z ≠ "".
Proof.
  unfold str_of_int. destruct z as [|p|p]; [done|..];
    cbn [Z.to_int NilZero.string_of_int]; [|done].
  pose proof (DecimalPos.Unsigned.to_uint_nonnil p).
  by destruct (Pos.to_uint p).
Qed.

Lemma int_or_str_of_int z d : int_or (str_of_int z) d = Ok z.
Proof.
  unfold int_or.
  rewrite bool_decide_eq_false_2 by apply str_of_int_nonempty.
  apply int_of_str_of_int.
Qed.

Lemma strip_plain (sp : ascii → bool) s :
  all_chars (fun c => sp c = false) s → lstrip sp s = s ∧ rstrip sp s = s.
Proof.
  intros H. split.
  - destruct s as [|c s]; [done|]. destruct H as [Hc _]. simpl. by rewrite Hc.
  - induction s as [|c s IH]; [done|]. destruct H as [Hc Hs]. simpl.
    rewrite (IH Hs), Hc. by destruct s.
Qed.

Lemma all_chars_impl (P Q : ascii → Prop) s :
  (∀ c, P c → Q c) → all_chars P s → all_chars Q s.
Proof.
  intros H. induction s as [|c s IH]; [done|]. intros [Hc Hs].
  split; [by apply H | by apply IH].
Qed.

Lemma hex_char_plain c :
  hex_char c →
  is_space c = false ∧ is_blank c = false ∧ is_underscore c = false.
Proof.
  unfold hex_char; simpl.
  intros [<-|[<-|[<-|[<-|[<-|[<-|[<-|[<-|[<-|[<-|[<-|[<-|[<-|[<-|[<-|[<-|[]
    ]]]]]]]]]]]]]]]]; repeat split; reflexivity.
Qed.

Lemma upper_hex_chars d : all_chars hex_char (upper_hex d).
Proof.
  induction d; simpl; (split; [|done]) || done;
    unfold hex_char; simpl; tauto.
Qed.

Lemma digits16_acc d acc :
  digits 16 (upper_hex d) (Z.pos acc) false
  = Some (Z.pos (Pos.of_hex_uint_acc d acc)).
Proof.
  revert acc. induction d; intros acc; simpl; [done|..];
    rewrite <- IHd; f_equal;
    match goal with
    | |- context [Z.of_nat (nat_of_ascii ?c)] =>
        let v := eval vm_compute in (Z.of_nat (nat_of_ascii c)) in
        change (Z.of_nat (nat_of_ascii c)) with v
    end; cbn; lia.
Qed.

Lemma digits16 d :
  digits 16 (upper_hex d) 0 false = Some (Z.of_N (Pos.of_hex_uint d)).
Proof.
  induction d; simpl; [done|..];
    match goal with
    | |- context [digits _ _ ?a _] =>
        let v := eval vm_compute in a in change a with v
    end;
    [exact IHd | by rewrite digits16_acc ..].
Qed.

Lemma startswith_0x F : startswith (String "0" (String "x" F)) "0x" = true.
Proof. unfold startswith. simpl. by destruct F. Qed.

Lemma hex_prefix_0x F :
  (∀ rest, F ≠ String "_" rest) →
  hex_prefix (String "0" (String "x" F)) = F.
Proof.
  intros H. unfold hex_prefix.
  change (bool_decide ("x"%char = "x"%char) || bool_decide ("x"%char = "X"%char))
    with true. cbv iota.
  destruct F as [|c F']; [done|].
  destruct (decide (c = "_"%char)) as [->|Hne]; [by destruct (H F')|].
  destruct c as [[] [] [] [] [] [] [] []]; try reflexivity. by destruct Hne.
Qed.

(** A text [0x] followed by digits, or by a minus sign and digits, has no
    character that [strip] or [int] removes. *)
Lemma strip_hex_text F :
  all_chars (fun c => hex_char c ∨ c = "-"%char) F →
  strip (String "0" (String "x" F)) = String "0" (String "x" F)
  ∧ unblank (String "0" (String "x" F)) = String "0" (String "x" F).
Proof.
  intros H.
  assert (Hp : ∀ c, hex_char c ∨ c = "-"%char →
            is_space c = false ∧ is_blank c = false).
  { intros c [Hc| ->]; [|done]. by destruct (hex_char_plain c Hc) as (? & ? & _). }
  unfold strip, unblank. split.
  - destruct (strip_plain is_space (String "0" (String "x" F))) as [-> ->];
      [|done..].
    split; [done|]. split; [done|].
    eapply all_chars_impl; [|exact H]. intros c Hc. by destruct (Hp c Hc).
  - destruct (strip_plain is_blank (String "0" (String "x" F))) as [-> ->];
      [|done..].
    split; [done|]. split; [done|].
    eapply all_chars_impl; [|exact H]. intros c Hc. by destruct (Hp c Hc).
Qed.

Lemma parse_hex_text F n :
  F ≠ "" → all_chars hex_char F → digits 16 F 0 false = Some n →
  parse_voltage (String "0" (String "x" F)) = Ok n.
Proof.
  intros Hne Hall Hd. unfold parse_voltage.
  destruct (strip_hex_text F) as [Hs Hu].
  { eapply all_chars_impl; [|exact Hall]. tauto. }
  rewrite Hs, startswith_0x. cbn [orb]. unfold int_of_str16. rewrite Hu.
  change (sign (String "0" (String "x" F)))
    with (false, String "0" (String "x" F)).
  cbv beta iota.
  destruct F as [|c F']; [done|]. destruct Hall as [Hc Hall].
  destruct (hex_char_plain c Hc) as (_ & _ & Hus).
  rewrite hex_prefix_0x.
  2:{ intros rest [= -> _]. discriminate Hus. }
  unfold number. rewrite Hus, Hd. reflexivity.
Qed.

Lemma parse_hex_negative ds :
  all_chars hex_char ds →
  parse_voltage (String "0" (String "x" (String "-" ds))) = Raise ValueError.
Proof.
  intros Hall. unfold parse_voltage.
  destruct (strip_hex_text (String "-" ds)) as [Hs Hu].
  { split; [by right|]. eapply all_chars_impl; [|exact Hall]. tauto. }
  rewrite Hs, startswith_0x. cbn [orb]. unfold int_of_str16. rewrite Hu.
  change (sign (String "0" (String "x" (String "-" ds))))
    with (false, String "0" (String "x" (String "-" ds))).
  cbv beta iota.
  rewrite hex_prefix_0x by (intros rest; discriminate).
  reflexivity.
Qed.

(** The text of a voltage entry parses back to the level it was written
    from when the level is not negative, and does not parse otherwise. *)
Lemma parse_entry_text v :
  parse_voltage ("0x" +:+ format_02X v)
  = if v <? 0 then Raise ValueError else Ok v.
Proof.
  unfold format_02X.
  change ("0x" +:+ ?F) with (String "0" (String "x" F)).
  destruct v as [|p|p].
  - reflexivity.
  - change (Z.pos p <? 0) with false. cbv iota.
    change (N.to_hex_uint (Z.abs_N (Z.pos p))) with (Pos.to_hex_uint p).
    assert (Hd : digits 16 (upper_hex (Pos.to_hex_uint p)) 0 false
                 = Some (Z.pos p)).
    { rewrite digits16. by rewrite HexadecimalPos.Unsigned.of_to. }
    pose proof (upper_hex_chars (Pos.to_hex_uint p)) as Hall.
    assert (Hne : upper_hex (Pos.to_hex_uint p) ≠ "").
    { pose proof (HexadecimalPos.Unsigned.to_uint_nonnil p).
      by destruct (Pos.to_hex_uint p). }
    destruct (String.length (upper_hex (Pos.to_hex_uint p)) <? 2)%nat.
    + apply parse_hex_text; [done| |].
      * split; [|done]. unfold hex_char; simpl; tauto.
      * exact Hd.
    + by apply parse_hex_text.
  - change (Z.neg p <? 0) with true. cbv iota.
    apply parse_hex_negative, upper_hex_chars.
Qed.

End Texts.

(** X11. The texts the editor writes into the timing spinboxes and into the
    frame-rate spinbox parse back to the stored values: a change event that
    finds those texts leaves the model as it is. *)
Theorem spinbox_texts_parse_back (self : LUTEditor) (g : nat)
    (entries : nat → string) :
  (∀ i, (i < 5)%nat → spin_text self g i = Ok (entries i)) →
  fst (on_timing_change entries g self) = self
  ∧ fst (on_framerate_change (frame_rate_text self) self) = self.
Proof.
  intros H. split.
  - unfold on_timing_change. rewrite then_preview_state.
    apply (cfor_preserves_in (fun s => s = self)); [|done].
    intros i s Hi ->. apply elem_of_seq in Hi.
    specialize (H i ltac:(lia)). unfold spin_text, index in H.
    rewrite timing_round_state.
    destruct (timing_groups self !! g) as [group|] eqn:Eg; [|done].
    revert H. res_step.
    destruct (group !! i) as [v|] eqn:Ev; [|done]. res_step. intros [= <-].
    rewrite int_or_str_of_int.
    rewrite bool_decide_eq_true_2 by by eapply lookup_lt_Some.
    rewrite (list_insert_id group i v Ev), (list_insert_id _ g group Eg).
    by destruct self.
  - rewrite on_framerate_change_model. unfold frame_rate_text.
    rewrite int_or_str_of_int. by destruct self.
Qed.

Lemma spinbox_texts_parse_back_witness :
  (∀ i, (i < 5)%nat → spin_text init 0 i = Ok (written_timing_entries i))
  ∧ fst (on_timing_change written_timing_entries 0 init) = init
  ∧ fst (on_framerate_change (frame_rate_text init) init) = init.
Proof.
  assert (H : ∀ i, (i < 5)%nat
            → spin_text init 0 i = Ok (written_timing_entries i)).
  { intros i Hi. do 5 (destruct i as [|i]; [reflexivity|]). lia. }
  exact (conj H (spinbox_texts_parse_back init 0 _ H)).
Defined.

(** X12. The text the editor writes into a voltage entry, 0x and two or
    more upper-case hexadecimal digits, parses back to the level when the
    level is not negative.  A change event that finds those texts stores
    each level reduced modulo 256 and keeps a negative level, whose text
    does not parse; it leaves a model whose five levels are unsigned bytes
    as it is. *)
Theorem voltage_entries_parse_back (self : LUTEditor)
    (entries : string → string) :
  (∀ name, name ∈ VOLTAGE_NAMES → entry_text self name = Ok (entries name)) →
  (∀ name v, name ∈ VOLTAGE_NAMES → voltages self !! name = Some v →
     parse_voltage (entries name) = (if v <? 0 then Raise ValueError else Ok v)
     ∧ voltages (fst (on_voltage_setting_change entries self)) !! name
       = Some (if v <? 0 then v else v mod 256))
  ∧ ((∀ name v, name ∈ VOLTAGE_NAMES → voltages self !! name = Some v →
        byte v) →
     voltages (fst (on_voltage_setting_change entries self)) = voltages self).
Proof.
  intros H.
  assert (Hparse : ∀ name v, name ∈ VOLTAGE_NAMES →
            voltages self !! name = Some v →
            parse_voltage (entries name)
            = (if v <? 0 then Raise ValueError else Ok v)).
  { intros name v Hn Ev. specialize (H name Hn).
    unfold entry_text, getitem in H. rewrite Ev in H.
    injection H as <-. apply parse_entry_text. }
  unfold on_voltage_setting_change. rewrite then_preview_state.
  destruct (voltage_rounds entries VOLTAGE_NAMES self)
    as (s' & E & Hout & Hin & Hfail).
  rewrite E. cbn [fst].
  assert (Hmask : ∀ val, Z.land val 255 = val mod 256).
  { intros val. change 255 with (Z.ones 8). by rewrite Z.land_ones by lia. }
  assert (Hres : ∀ name v, name ∈ VOLTAGE_NAMES →
            voltages self !! name = Some v →
            voltages s' !! name = Some (if v <? 0 then v else v mod 256)).
  { intros name v Hn Ev. pose proof (Hparse name v Hn Ev) as Hp.
    destruct (v <? 0).
    - by rewrite (Hfail name _ Hp).
    - by rewrite (Hin name v Hn Hp), Hmask. }
  split; [by split; [apply Hparse | apply Hres]|].
  intros Hb. apply map_eq. intros name.
  destruct (decide (name ∈ VOLTAGE_NAMES)) as [Hn|Hn]; [|by apply Hout].
  destruct (voltages self !! name) as [v|] eqn:Ev.
  - rewrite (Hres name v Hn Ev). specialize (Hb name v Hn Ev).
    unfold byte in Hb. rewrite (proj2 (Z.ltb_ge _ _)) by lia.
    by rewrite Z.mod_small.
  - specialize (H name Hn). unfold entry_text, getitem in H.
    by rewrite Ev in H.
Qed.

Lemma voltage_entries_parse_back_witness :
  (∀ name, name ∈ VOLTAGE_NAMES
     → entry_text init name = Ok (written_voltage_entries name))
  ∧ (∀ name v, name ∈ VOLTAGE_NAMES → voltages init !! name = Some v →
       parse_voltage (written_voltage_entries name)
       = (if v <? 0 then Raise ValueError else Ok v)
       ∧ voltages (fst (on_voltage_setting_change written_voltage_entries
                          init)) !! name
         = Some (if v <? 0 then v else v mod 256))
  ∧ ((∀ name v, name ∈ VOLTAGE_NAMES → voltages init !! name = Some v →
        byte v) →
     voltages (fst (on_voltage_setting_change written_voltage_entries init))
     = voltages init).
Proof.
  assert (H : ∀ name, name ∈ VOLTAGE_NAMES
            → entry_text init name = Ok (written_voltage_entries name)).
  { intros name Hn. unfold VOLTAGE_NAMES in Hn.
    repeat (apply elem_of_cons in Hn as [-> | Hn]; [reflexivity|]).
    by apply elem_of_nil in Hn. }
  exact (conj H (voltage_entries_parse_back init _ H)).
Defined.

Section Reset.

(** After its two assignments and the loops over the widgets, which
    cannot fail on the default patterns and timing, a confirmed reset is
    the refresh of the preview. *)
Lemma reset_runs_preview self :
  reset_to_default true self
  = update_preview (fst (reset_to_default true self)).
Proof.
  rewrite reset_state.
  set (s0 := set_timing_groups _ _).
  unfold reset_to_default, mbind, cmd_bind.
  unfold cbind at 1. unfold writes at 1. cbn beta iota.
  unfold cbind at 1. unfold writes at 1. cbn beta iota. fold s0.
  unfold cbind at 1. rewrite cfor_ok.
  2:{ intros i Hi. apply elem_of_seq in Hi.
      do 4 (destruct i as [|i]; [reflexivity|]). lia. }
  unfold cbind at 1. rewrite cfor_ok; [done|].
  intros g Hg. apply elem_of_seq in Hg. apply cfor_ok.
  intros t Ht. apply elem_of_seq in Ht.
  do 10 (destruct g as [|g];
         [do 5 (destruct t as [|t]; [reflexivity|]); lia|]).
  lia.
Qed.

Lemma reset_encodable_but_voltages self :
  (∀ t, 0 <= t < 4 →
     is_Some (voltage_patterns (fst (reset_to_default true self)) !! t))
  ∧ groups_ok 10 (timing_groups (fst (reset_to_default true self))).
Proof.
  rewrite reset_state. split.
  - intros t Ht. cbn.
    assert (t = 0 ∨ t = 1 ∨ t = 2 ∨ t = 3) as [-> | [-> | [-> | ->]]]
      by lia; by eexists.
  - apply groups_ok_lookup. intros g Hg. cbn.
    do 10 (destruct g as [|g];
           [eexists; split; [reflexivity|simpl; lia]|]).
    lia.
Qed.

End Reset.

(** X13. reset_to_default: declining the dialog changes nothing.  A
    confirmed reset keeps the frame rate and the voltage levels, and leaves
    patterns and timing that do not depend on the model before it, so a
    second reset changes nothing; they are not the patterns and timing the
    editor starts with.  It returns normally exactly when the five voltage
    levels are present, and raises KeyError otherwise, after the reset of
    the model. *)
Theorem reset_to_default_outcome (self : LUTEditor) :
  let s' := fst (reset_to_default true self) in
  reset_to_default false self = (self, Ok tt)
  ∧ frame_rate s' = frame_rate self ∧ voltages s' = voltages self
  ∧ (∀ other,
       voltage_patterns (fst (reset_to_default true other))
       = voltage_patterns s'
       ∧ timing_groups (fst (reset_to_default true other)) = timing_groups s')
  ∧ fst (reset_to_default true s') = s'
  ∧ voltage_patterns s' ≠ voltage_patterns init
  ∧ timing_groups s' ≠ timing_groups init
  ∧ snd (reset_to_default true self)
    = (if decide (Forall (fun name => is_Some (voltages self !! name))
                    VOLTAGE_NAMES)
       then Ok tt else Raise KeyError).
Proof.
  cbv zeta. split; [done|].
  split; [by rewrite reset_state|]. split; [by rewrite reset_state|].
  split; [intros other; by rewrite !reset_state|].
  split; [by rewrite !reset_state|].
  split.
  { rewrite reset_state. cbn. intros H.
    apply (f_equal (fun m => m !! 0)) in H. discriminate H. }
  split; [rewrite reset_state; cbn; discriminate|].
  rewrite reset_runs_preview.
  destruct (reset_encodable_but_voltages self) as [Hp Hg].
  assert (Hv : voltages (fst (reset_to_default true self)) = voltages self)
    by by rewrite reset_state.
  set (s0 := fst (reset_to_default true self)) in *.
  destruct (decide _) as [Hall|Hnot].
  - rewrite Forall_forall in Hall.
    rewrite update_preview_ok; [done| |].
    + split; [exact Hp| | |].
      * unfold s0. by rewrite reset_state.
      * unfold s0. rewrite reset_state. cbn. by repeat constructor.
      * intros name Hn. rewrite Hv. by apply Hall.
    + unfold s0. rewrite reset_state. cbn. unfold byte.
      repeat constructor; lia.
  - destruct (encode_cases s0)
      as [[He _] | [[(t & Ht & Hn) _] | [(_ & Hg' & _) | (_ & _ & _ & Hr)]]].
    + exfalso. apply Hnot, Forall_forall. intros name Hn. rewrite <- Hv.
      by apply (encodable_voltages s0 He).
    + destruct (Hp t Ht) as [p Ep]. congruence.
    + done.
    + unfold update_preview, reads. by rewrite Hr.
Qed.

Section Loaded.

Lemma for_each_checked {A} (xs : list A) (check : A → res unit) :
  for_each xs (fun x _ => check x) tt = Ok tt →
  Forall (fun x => check x = Ok tt) xs.
Proof.
  induction xs as [|x xs IH]; [done|]. cbn [for_each].
  destruct (check x) as [[]|e] eqn:E; [|done]. res_step.
  intros H. constructor; [done|by apply IH].
Qed.

Lemma reload_widgets_checked self :
  reload_widgets self = Ok tt →
  (∀ name v, voltages self !! name = Some v → name ∈ VOLTAGE_NAMES)
  ∧ snd (update_preview self) = Ok tt.
Proof.
  unfold reload_widgets.
  destruct (for_each (range 4) _ tt) as [[]|]; [|done]. res_step.
  destruct (for_each (range 10) _ tt) as [[]|]; [|done]. res_step.
  destruct (for_each (map_to_list (voltages self)) _ tt) as [[]|] eqn:E;
    [|done].
  res_step. intros Hp. split; [|done].
  apply (for_each_checked _ (fun kv : string * Z =>
           if bool_decide (kv.1 ∈ VOLTAGE_NAMES) then Ok tt
           else Raise KeyError)) in E.
  rewrite Forall_forall in E. intros name v Hv.
  apply elem_of_map_to_list in Hv. specialize (E _ Hv). cbn [fst] in E.
  by case_bool_decide.
Qed.

Lemma update_preview_checked self :
  snd (update_preview self) = Ok tt →
  encodable self ∧ voltage_pattern_to_lut self = Ok (table self)
  ∧ ∃ est, calculate_timing self = Ok est.
Proof.
  unfold update_preview, reads. cbn [snd].
  destruct (encode_cases self)
    as [[He Hr] | [[_ Hr] | [(_ & _ & Hr) | (_ & _ & _ & Hr)]]];
    rewrite Hr; [|done..].
  res_step. destruct (calculate_timing self) as [est|]; [|done].
  intros _. eauto.
Qed.

End Loaded.

Section Preview.

Lemma for_each_returns {A S} (xs : list A) (body : A → S → res S) :
  (∀ x s, x ∈ xs → ∃ s', body x s = Ok s') →
  ∀ s, ∃ s', for_each xs body s = Ok s'.
Proof.
  induction xs as [|x xs IH]; intros H s; [by eexists|].
  cbn [for_each]. destruct (H x s) as [s' ->]; [left|]. res_step.
  apply IH. intros y s0 Hy. apply H. by right.
Qed.

Lemma add_bytes_returns (lut : list Z) start n output :
  (start + n <= length lut)%nat →
  ∃ output', add_bytes lut start n output = Ok output'.
Proof.
  intros Hl. unfold add_bytes. apply for_each_returns.
  intros i s Hi. apply elem_of_seq in Hi. unfold index.
  destruct (lookup_lt_is_Some_2 lut (start + i)) as [b ->]; [lia|].
  by eexists.
Qed.

(** The text of the C array is produced for every model the encoder
    accepts and every table of 112 entries. *)
Lemma preview_output_returns self (lut : list Z) :
  encodable self → length lut = 112%nat →
  ∃ output, preview_output self lut = Ok output.
Proof.
  intros [Hp Hg Hv] Hl. unfold preview_output. cbv zeta.
  match goal with |- context [for_each ?xs ?body ?s] =>
    let H := fresh in
    assert (H : ∀ x s0, x ∈ xs → ∃ s', body x s0 = Ok s');
      [|destruct (for_each_returns xs body H s) as [o1 ->]] end.
  { intros t s Ht. apply elem_of_seq in Ht. unfold getitem.
    destruct (Hp (Z.of_nat t)) as [p ->]; [lia|]. res_step. unfold index.
    destruct (lookup_lt_is_Some_2 TRANSITION_NAMES t) as [name ->];
      [simpl; lia|].
    res_step.
    match goal with |- context [add_bytes lut ?a ?b ?out] =>
      destruct (add_bytes_returns lut a b out) as [o ->]; [lia|] end.
    by eexists. }
  res_step.
  match goal with |- context [add_bytes lut ?a ?b ?out] =>
    destruct (add_bytes_returns lut a b out) as [o2 ->]; [lia|] end.
  res_step.
  match goal with |- context [for_each ?xs ?body ?s] =>
    let H := fresh in
    assert (H : ∀ x s0, x ∈ xs → ∃ s', body x s0 = Ok s');
      [|destruct (for_each_returns xs body H s) as [o3 ->]] end.
  { intros g s Hin. apply elem_of_seq in Hin. unfold index.
    destruct (Hg g) as (group & -> & Hlen); [lia|]. res_step.
    match goal with |- context [add_bytes lut ?a ?b ?out] =>
      destruct (add_bytes_returns lut a b out) as [o ->]; [lia|] end.
    res_step.
    destruct (lookup_lt_is_Some_2 group 0) as [a ->]; [lia|].
    destruct (lookup_lt_is_Some_2 group 1) as [b ->]; [lia|].
    destruct (lookup_lt_is_Some_2 group 2) as [c ->]; [lia|].
    destruct (lookup_lt_is_Some_2 group 3) as [d ->]; [lia|].
    destruct (lookup_lt_is_Some_2 group 4) as [rp ->]; [lia|].
    res_step. by eexists. }
  res_step.
  match goal with |- context [add_bytes lut ?a ?b ?out] =>
    destruct (add_bytes_returns lut a b out) as [o4 ->]; [lia|] end.
  res_step.
  match goal with |- context [add_bytes lut ?a ?b ?out] =>
    destruct (add_bytes_returns lut a b out) as [o5 ->]; [lia|] end.
  res_step. by eexists.
Qed.

End Preview.

(** X14. A load that reports success on attributes of the editor's types
    leaves a model the encoder and the estimator accept: the patterns
    0..3, ten groups of at least five fields, and exactly the five voltage
    names, since a name without an entry widget stops the load.  Pattern
    lengths, step names and value ranges are not checked. *)
Theorem loaded_model_encodes (untyped_reload : Attrs → res unit)
    (data : json) (a a' : Attrs) (self' : LUTEditor) :
  load_from_file untyped_reload data a = (a', Ok tt) →
  typed a' = Some self' →
  encodable self'
  ∧ (∀ name, is_Some (voltages self' !! name) ↔ name ∈ VOLTAGE_NAMES)
  ∧ voltage_pattern_to_lut self' = Ok (table self')
  ∧ ∃ est, calculate_timing self' = Ok est.
Proof.
  unfold load_from_file, mbind, cmd_bind, cbind.
  destruct (load_fields data a) as [a1 [[]|e]]; [|done].
  unfold reads. intros [= -> Hr] Ht. unfold reload in Hr. rewrite Ht in Hr.
  apply reload_widgets_checked in Hr as [Hn Hu].
  apply update_preview_checked in Hu as (He & Hlut & Hest).
  split; [done|]. split; [|done].
  intros name. split; [intros [v Hv]; by eapply Hn|].
  apply (encodable_voltages self' He).
Qed.

Lemma loaded_model_encodes_witness :
  load_from_file (fun _ => Raise TypeError) (save_to_file odd_model)
    (attrs_of init)
  = (attrs_of odd_model, Ok tt)
  ∧ typed (attrs_of odd_model) = Some odd_model
  ∧ encodable odd_model
  ∧ (∀ name, is_Some (voltages odd_model !! name) ↔ name ∈ VOLTAGE_NAMES)
  ∧ voltage_pattern_to_lut odd_model = Ok (table odd_model)
  ∧ ∃ est, calculate_timing odd_model = Ok est.
Proof.
  assert (H1 : load_from_file (fun _ => Raise TypeError)
                 (save_to_file odd_model) (attrs_of init)
               = (attrs_of odd_model, Ok tt)) by (vm_compute; reflexivity).
  assert (H2 : typed (attrs_of odd_model) = Some odd_model)
    by (vm_compute; reflexivity).
  exact (conj H1 (conj H2 (loaded_model_encodes _ _ _ _ _ H1 H2))).
Defined.

(** X15. The texts update_preview writes, the timing label and the C
    array, add no failure to the encoder and the estimator: when both
    return, the label shows their two numbers and the array text is
    produced; when one of them raises, the texts raise the same error. *)
Theorem preview_texts_outcome (self : LUTEditor) :
  match voltage_pattern_to_lut self, calculate_timing self with
  | Ok lut, Ok (total_frames, refresh_time) =>
      snd (update_preview self) = Ok tt
      ∧ ∃ output,
          preview_output self lut = Ok output
          ∧ preview_texts self
            = Ok ("Total frames: " +:+ str_of_int total_frames
                  +:+ " | Est. time: ~" +:+ str_of_int refresh_time +:+ "ms",
                  output)
  | Raise e, _ | Ok _, Raise e =>
      snd (update_preview self) = Raise e ∧ preview_texts self = Raise e
  end.
Proof.
  unfold preview_texts, update_preview, reads. cbn [snd].
  destruct (encode_cases self)
    as [[He Hr] | [[_ Hr] | [(_ & _ & Hr) | (_ & _ & _ & Hr)]]];
    rewrite Hr; [|done..].
  res_step. destruct (calculate_timing self) as [[total ms]|e]; [|done].
  res_step. split; [done|].
  destruct (preview_output_returns self (table self) He) as [output E].
  { apply table_length, groups_ok_lookup, He. }
  exists output. split; [done|]. by rewrite E.
Qed.

Section Width.

Lemma upper_hex_length d :
  String.length (upper_hex d) = Hexadecimal.nb_digits d.
Proof. induction d; simpl; congruence. Qed.

Lemma of_hex_uint_acc_bound d acc :
  Z.pos (Pos.of_hex_uint_acc d acc)
  < (Z.pos acc + 1) * 16 ^ Z.of_nat (Hexadecimal.nb_digits d).
Proof.
  revert acc. induction d; intros acc;
    cbn [Pos.of_hex_uint_acc Hexadecimal.nb_digits]; [lia|..];
    rewrite Nat2Z.inj_succ, Z.pow_succ_r by lia;
    match goal with
    | |- Z.pos (Pos.of_hex_uint_acc _ ?a) < _ =>
        specialize (IHd a);
        assert (Z.pos a + 1 <= 16 * (Z.pos acc + 1)) by lia
    end;
    assert (0 < 16 ^ Z.of_nat (Hexadecimal.nb_digits d))
      by (apply Z.pow_pos_nonneg; lia);
    nia.
Qed.

Lemma of_hex_uint_bound d :
  Z.of_N (Pos.of_hex_uint d) < 16 ^ Z.of_nat (Hexadecimal.nb_digits d).
Proof.
  induction d; cbn [Pos.of_hex_uint Hexadecimal.nb_digits]; [done|..];
    rewrite Nat2Z.inj_succ, Z.pow_succ_r by lia;
    assert (0 < 16 ^ Z.of_nat (Hexadecimal.nb_digits d))
      by (apply Z.pow_pos_nonneg; lia);
    [lia|..];
    match goal with
    | |- Z.of_N (N.pos (Pos.of_hex_uint_acc _ ?a)) < _ =>
        pose proof (of_hex_uint_acc_bound d a)
    end;
    rewrite N2Z.inj_pos; nia.
Qed.

(** The number of hexadecimal digits bounds the number. *)
Lemma to_hex_uint_bound (n : N) :
  Z.of_N n < 16 ^ Z.of_nat (String.length (upper_hex (N.to_hex_uint n))).
Proof.
  rewrite upper_hex_length.
  rewrite <- (HexadecimalN.Unsigned.of_to n) at 1.
  apply of_hex_uint_bound.
Qed.

Lemma byte_two_digits :
  Forall (fun n => String.length (format_02X n) = 2%nat)
    (Z.of_nat <$> seq 0 256).
Proof. apply (bool_decide_unpack _). vm_compute. exact I. Qed.

End Width.

(** X16. An entry of the C array, 0x followed by the value in the format
    02X, has upper-case hexadecimal digits only and at least two of them
    when the value is not negative; it has exactly two exactly when the
    value is below 256.  A table entry of 256 or more, which a timing field
    or the frame rate can hold, is printed with three digits or more, not
    truncated to a byte. *)
Theorem array_entry_width (n : Z) :
  0 <= n →
  all_chars hex_char (format_02X n)
  ∧ (2 <= String.length (format_02X n))%nat
  ∧ (String.length (format_02X n) = 2%nat ↔ n < 256).
Proof.
  intros Hn. unfold format_02X.
  rewrite (proj2 (Z.ltb_ge n 0)) by lia.
  pose proof (upper_hex_chars (N.to_hex_uint (Z.abs_N n))) as Hall.
  pose proof (to_hex_uint_bound (Z.abs_N n)) as Hb.
  rewrite N2Z.inj_abs_N, Z.abs_eq in Hb by lia.
  assert (Hbyte : n < 256 → String.length (format_02X n) = 2%nat).
  { intros Hlt. pose proof byte_two_digits as H.
    rewrite Forall_forall in H. apply H.
    apply list_elem_of_fmap. exists (Z.to_nat n).
    split; [lia|]. apply elem_of_seq. lia. }
  unfold format_02X in Hbyte.
  rewrite (proj2 (Z.ltb_ge n 0)) in Hbyte by lia.
  set (ds := upper_hex (N.to_hex_uint (Z.abs_N n))) in *.
  destruct (String.length ds <? 2)%nat eqn:El.
  - apply Nat.ltb_lt in El.
    assert (n < 256).
    { eapply Z.lt_le_trans; [exact Hb|].
      change 256 with (16 ^ 2). apply Z.pow_le_mono_r; lia. }
    split; [|split].
    + split; [|done]. unfold hex_char; simpl; tauto.
    + rewrite Hbyte by done. lia.
    + split; [done|]. intros _. by apply Hbyte.
  - apply Nat.ltb_ge in El.
    split; [done|]. split; [done|]. split; [|done].
    intros E. rewrite E in Hb. exact Hb.
Qed.

Lemma array_entry_width_witness :
  0 <= 300
  ∧ format_02X 300 = "12C"
  ∧ all_chars hex_char (format_02X 300)
  ∧ (2 <= String.length (format_02X 300))%nat
  ∧ (String.length (format_02X 300) = 2%nat ↔ 300 < 256).
Proof.
  split; [lia|]. split; [reflexivity|].
  apply (array_entry_width 300). lia.
Defined.
